(** * SecAuto automation bridge: a shallow embedding of the Python sources

    The development follows the repository's modules:
    - [server/SoarBaseAPI.py]: context protocol, context search and the
      integration config resolver;
    - [integrations/virustotal_integration.py] and
      [automations/virustotal_url_scanner.py]: the URL scanner automation;
    - [user/sitecustomize.py]: the capability shim and its hot reload.

    Python values that travel through the bridge are JSON documents.  [None]
    is JSON null ([JNull]); JSON numbers are restricted to integers.  A Python
    [dict] keeps insertion order, so a mapping is an association list; [m[k]]
    is the first entry for [k]. *)

From Stdlib Require Import ZArith Lia Ascii String DecimalString.
From Equations Require Import Equations.
From stdpp Require Import base list strings gmap.

Set Warnings "-register-all".

(* ===================================================================== *)
(** * Part I: definitions                                                  *)
(* ===================================================================== *)

(** ** JSON documents *)

Unset Elimination Schemes.
Inductive json : Type :=
| JNull
| JBool (b : bool)
| JNum (n : Z)
| JStr (s : string)
| JList (items : list json)
| JDict (entries : list (string * json)).
Set Elimination Schemes.

(** [key in d] and [d[key]] for a mapping given by its entries. *)
Fixpoint dict_get (key : string) (m : list (string * json)) : option json :=
  match m with
  | [] => None
  | (k, v) :: m' => if String.eqb k key then Some v else dict_get key m'
  end.

(** [d.values()] *)
Definition dict_values (m : list (string * json)) : list json := map snd m.

(** [isinstance(v, (dict, list))] *)
Definition is_container (v : json) : bool :=
  match v with
  | JDict _ | JList _ => true
  | _ => false
  end.

(** [isinstance(v, dict)] *)
Definition is_dict (v : json) : bool :=
  match v with
  | JDict _ => true
  | _ => false
  end.

(** Python truth value of a document. *)
Definition truthy (v : json) : bool :=
  match v with
  | JNull => false
  | JBool b => b
  | JNum n => negb (n =? 0)%Z
  | JStr s => negb (String.eqb s "")
  | JList l => match l with [] => false | _ => true end
  | JDict m => match m with [] => false | _ => true end
  end.

Fixpoint json_size (j : json) : nat :=
  match j with
  | JList l => S (list_sum (map json_size l))
  | JDict m => S (list_sum (map (fun kv => json_size (snd kv)) m))
  | _ => 1
  end.

Definition stack_size (stack : list json) : nat := list_sum (map json_size stack).

(** ** Context search (SoarBaseAPI.py) *)

(** [search_context]: the mapping's own keys first, then its values in
    insertion order; a result that [is not None] ends the loop.  Documents
    are finite trees and the interpreter's recursion limit is not modelled,
    so the function is total. *)
Fixpoint search_context (json_obj : json) (key : string) : json :=
  match json_obj with
  | JDict m =>
      match dict_get key m with
      | Some v => v
      | None =>
          (fix items (m : list (string * json)) : json :=
             match m with
             | [] => JNull
             | (_, v) :: m' =>
                 match search_context v key with
                 | JNull => items m'
                 | result => result
                 end
             end) m
      end
  | JList l =>
      (fix each (l : list json) : json :=
         match l with
         | [] => JNull
         | item :: l' =>
             match search_context item key with
             | JNull => each l'
             | result => result
             end
         end) l
  | _ => JNull
  end.

(** The [for item in json_obj] loop of [search_context], on its own. *)
Fixpoint search_each (l : list json) (key : string) : json :=
  match l with
  | [] => JNull
  | item :: l' =>
      match search_context item key with
      | JNull => search_each l' key
      | result => result
      end
  end.

(** The work stack has its top at the head.  [stack.append(value)] for every
    container among [values], in order: the last one appended is popped
    first. *)
Definition push_containers (stack : list json) (values : list json) : list json :=
  fold_left (fun st value => if is_container value then value :: st else st)
            values stack.

Lemma push_containers_rev stack values :
  push_containers stack values = rev (filter (fun v => is_container v = true) values) ++ stack.
Proof.
  unfold push_containers. revert stack.
  induction values as [|v values IH]; intros stack; simpl; [done|].
  rewrite IH. rewrite filter_cons.
  destruct (is_container v) eqn:E.
  - rewrite decide_True by done. simpl. by rewrite <- app_assoc.
  - rewrite decide_False by done. done.
Qed.

Lemma stack_size_app s1 s2 : stack_size (s1 ++ s2) = stack_size s1 + stack_size s2.
Proof. unfold stack_size. rewrite map_app. induction (map json_size s1); simpl; lia. Qed.

Lemma stack_size_rev s : stack_size (rev s) = stack_size s.
Proof.
  induction s as [|x s IH]; simpl; [done|].
  rewrite stack_size_app, IH. unfold stack_size. simpl. lia.
Qed.

Lemma stack_size_filter (P : json -> bool) s :
  stack_size (filter (fun v => P v = true) s) <= stack_size s.
Proof.
  induction s as [|x s IH]; simpl; [done|].
  rewrite filter_cons. destruct (decide (P x = true)); unfold stack_size in *; simpl; lia.
Qed.

Lemma stack_size_push stack values :
  stack_size (push_containers stack values) <= stack_size values + stack_size stack.
Proof.
  rewrite push_containers_rev, stack_size_app, stack_size_rev.
  pose proof (stack_size_filter is_container values). lia.
Qed.

Lemma stack_size_values m :
  stack_size (dict_values m) = list_sum (map (fun kv => json_size (snd kv)) m).
Proof. unfold stack_size, dict_values. by rewrite map_map. Qed.

(** The [while stack:] loop of [search_context_iterative]. *)
Equations? search_loop (stack : list json) (key : string) : json
  by wf (stack_size stack) lt :=
  search_loop [] key := JNull;
  search_loop (JDict m :: stack) key with dict_get key m := {
    | Some v := v;
    | None := search_loop (push_containers stack (dict_values m)) key };
  search_loop (JList l :: stack) key := search_loop (push_containers stack l) key;
  search_loop (_ :: stack) key := search_loop stack key.
Proof.
  all: try (unfold stack_size; simpl; lia).
  - pose proof (stack_size_push stack l). unfold stack_size in *. simpl. lia.
  - pose proof (stack_size_push stack (dict_values m)).
    rewrite stack_size_values in *. unfold stack_size in *. simpl. lia.
Qed.

Definition search_context_iterative (json_obj : json) (key : string) : json :=
  search_loop [json_obj] key.

(** [key_path.split('.')]: always at least one segment. *)
Fixpoint split_dot (s : string) : list string :=
  match s with
  | EmptyString => [""]
  | String c s' =>
      if Ascii.eqb c "."%char then "" :: split_dot s'
      else match split_dot s' with
           | seg :: rest => String c seg :: rest
           | [] => [String c ""]
           end
  end.

(** The [for key in keys:] loop of [search_context_path]. *)
Fixpoint walk_keys (current_data : json) (keys : list string) : json :=
  match keys with
  | [] => current_data
  | key :: keys' =>
      match current_data with
      | JDict m =>
          match dict_get key m with
          | Some v => walk_keys v keys'
          | None => JNull
          end
      | _ => JNull
      end
  end.

Definition search_context_path (json_obj : json) (key_path : string) : json :=
  walk_keys json_obj (split_dot key_path).

(** ** Vocabulary of the search properties *)

(** Number of entries named [key] in the mappings of a document, at any depth. *)
Fixpoint occurrences (key : string) (j : json) : nat :=
  match j with
  | JDict m =>
      list_sum (map (fun kv => (if String.eqb (fst kv) key then 1 else 0)
                               + occurrences key (snd kv)) m)
  | JList l => list_sum (map (occurrences key) l)
  | _ => 0
  end.

Definition occurrences_in (key : string) (docs : list json) : nat :=
  list_sum (map (occurrences key) docs).

(** [stored key d v]: some mapping inside [d] has an entry [key: v]. *)
Inductive stored (key : string) : json -> json -> Prop :=
| stored_here m v :
    In (key, v) m -> stored key (JDict m) v
| stored_in_value m k x v :
    In (k, x) m -> stored key x v -> stored key (JDict m) v
| stored_in_item l x v :
    In x l -> stored key x v -> stored key (JList l) v.

Definition stored_in (key : string) (docs : list json) (v : json) : Prop :=
  exists d, In d docs /\ stored key d v.

(** The path search as the specification words it: follow every segment
    through successive mappings; absent as soon as a segment is missing from
    the current mapping, or the current value is not a mapping. *)
Inductive follows : json -> list string -> json -> Prop :=
| follows_end d :
    follows d [] d
| follows_segment m k ks v r :
    dict_get k m = Some v -> follows v ks r -> follows (JDict m) (k :: ks) r
| follows_missing m k ks :
    dict_get k m = None -> follows (JDict m) (k :: ks) JNull
| follows_not_mapping d k ks :
    is_dict d = false -> follows d (k :: ks) JNull.

(** [reaches d ks v]: every segment of [ks] is present, and leads to [v]. *)
Inductive reaches : json -> list string -> json -> Prop :=
| reaches_end d :
    reaches d [] d
| reaches_segment m k ks v r :
    dict_get k m = Some v -> reaches v ks r -> reaches (JDict m) (k :: ks) r.

(** ["."join(segments)] *)
Fixpoint join_dot (segments : list string) : string :=
  match segments with
  | [] => ""
  | [seg] => seg
  | seg :: rest => String.append seg (String "."%char (join_dot rest))
  end.

Fixpoint has_dot (s : string) : bool :=
  match s with
  | EmptyString => false
  | String c s' => Ascii.eqb c "."%char || has_dot s'
  end.

(** ** Effects: a trace of events, then a result or a raised exception *)

Inductive exn : Type :=
| AttributeError      (* an attribute that the object does not have *)
| TypeError           (* iterating a value that is not iterable, [int + str] *)
| KeyError            (* [d[key]] on a mapping without [key] *)
| ImportError
| OSError
| JSONDecodeError     (* json.JSONDecodeError *)
| RequestException    (* requests.exceptions.RequestException and its subclasses *)
| OtherException.     (* any other subclass of [Exception] *)

Inductive event : Type :=
| Stdout (doc : json)       (* [print(json.dumps(doc, indent=2))]: one document *)
| Stderr (msg : string)     (* a line on the side channel *)
| HttpGet (address : json) (name : string) (api_key : json)
                            (* the [requests.get] of [get_integration_config] *)
| VtExchange (url : string). (* the HTTP exchanges of [scan_url] for one URL *)

Inductive outcome (A : Type) : Type :=
| Ret (a : A)
| Raise (e : exn).
Arguments Ret {A} a.
Arguments Raise {A} e.

Definition M (A : Type) : Type := list event * outcome A.

Definition raise {A : Type} (e : exn) : M A := ([], Raise e).

Definition emit (ev : event) : M unit := ([ev], Ret tt).

#[global] Instance M_ret : MRet M := fun A a => ([], Ret a).

#[global] Instance M_bind : MBind M := fun A B k m =>
  match m with
  | (t, Ret a) => let '(t', r) := k a in (t ++ t', r)
  | (t, Raise e) => (t, Raise e)
  end.

(** [try: body except ...: handler]; [handler e = None] when no clause
    matches [e]. *)
Definition try_except {A : Type} (body : M A) (handler : exn -> option (M A)) : M A :=
  match body with
  | (t, Ret a) => (t, Ret a)
  | (t, Raise e) =>
      match handler e with
      | Some h => let '(t', r) := h in (t ++ t', r)
      | None => (t, Raise e)
      end
  end.

(** [except Exception:] *)
Definition except_Exception {A : Type} (h : M A) : exn -> option (M A) :=
  fun _ => Some h.

(** [except requests.exceptions.RequestException:] *)
Definition except_RequestException {A : Type} (h : M A) : exn -> option (M A) :=
  fun e => match e with RequestException => Some h | _ => None end.

Definition trace {A : Type} (m : M A) : list event := fst m.
Definition result {A : Type} (m : M A) : outcome A := snd m.

(** [d.get(key, default)]: only a mapping has [get]. *)
Definition py_get (d : json) (key : string) (default : json) : M json :=
  match d with
  | JDict m => mret (match dict_get key m with Some v => v | None => default end)
  | _ => raise AttributeError
  end.

(** [d[key]] *)
Definition py_subscript (d : json) (key : string) : M json :=
  match d with
  | JDict m => match dict_get key m with Some v => mret v | None => raise KeyError end
  | _ => raise TypeError
  end.

(** ** What lies outside the repository *)

(** What [json.load(sys.stdin)] does. *)
Inductive load_result : Type :=
| Loaded (v : json)       (* the input is well-formed JSON denoting [v] *)
| LoadDecodeError         (* the input is not well-formed JSON *)
| LoadOtherError.         (* reading fails *)

Inductive stdin_state : Type :=
| StdinTty                         (* interactive: [isatty()] is true *)
| StdinPiped (content : load_result)
| StdinUnusable.                   (* [sys.stdin.isatty()] itself raises *)

Inductive file_state : Type :=
| FileMissing                 (* [os.path.exists] is false *)
| FileUnreadable              (* [open] raises *)
| FileNotJson                 (* [json.load] raises *)
| FileJson (config : json).   (* [json.load] returns [config] *)

Inductive http_response : Type :=
| NetworkFailure    (* [requests.get] raises a RequestException: connection
                       error, timeout, invalid URL or header *)
| Response (status_code : Z) (body : option json).
                    (* [body = None]: [response.json()] raises, which is a
                       RequestException in the requests library *)

(** The state of a [VirusTotalIntegration] object. *)
Record vt_integration : Type := {
  vt_api_key : json;
  vt_base_url : json;
  vt_timeout : json;
  vt_retries : json
}.

Record world : Type := {
  stdin : stdin_state;
  files : string -> file_state;
  http_get : json -> string -> json -> http_response;
      (* address, integration name, credential *)
  vt_scan : vt_integration -> string -> json;
      (* what [scan_url] returns after its HTTP exchanges *)
  json_loads : string -> option json;    (* [json.loads]; [None]: it raises ValueError *)
  now_isoformat : string;                (* [datetime.now().isoformat()] *)
  py_str : json -> string;               (* [str(v)] of a value that is not a string *)
  py_repr : string -> string;            (* [repr(s)] of a string *)
  str_exn : exn -> string;               (* [str(e)] *)
  py_percent : Z -> Z -> json            (* the float [a / b * 100] *)
}.

(** ** Context protocol (SoarBaseAPI.py) *)

Definition stdin_isatty (w : world) : M bool :=
  match stdin w with
  | StdinTty => mret true
  | StdinPiped _ => mret false
  | StdinUnusable => raise OtherException
  end.

Definition json_load_stdin (w : world) : M json :=
  match stdin w with
  | StdinPiped (Loaded v) => mret v
  | StdinPiped LoadDecodeError => raise JSONDecodeError
  | _ => raise OtherException
  end.

Definition load_context (w : world) : M json :=
  try_except
    (input_data ← try_except
                    (isatty ← stdin_isatty w;
                     if negb isatty then json_load_stdin w else mret JNull)
                    (fun e => match e with
                              | JSONDecodeError => Some (mret JNull)
                              | _ => Some (mret JNull)
                              end);
     mret input_data)
    (except_Exception (emit (Stderr "Error loading context");; mret JNull)).

(** [base_context()] is [json.dumps({})]; the shim reads it back with
    [json.loads].  A JSON text is represented by the value it denotes. *)
Definition base_context : json := JDict [].

Definition return_context (data : json) : M unit := emit (Stdout data).

(** ** Integration config resolver (SoarBaseAPI.py) *)

Definition config_paths : list string :=
  ["data/integration_config.json";
   "SoarAuto/data/integration_config.json";
   "../SoarAuto/data/integration_config.json"].

(** The body of the [try] in the loop of [get_secauto_config]: [Some] is the
    [return url, api_key], [None] falls through to the next path. *)
Definition read_candidate (w : world) (config_path : string) : M (option (json * json)) :=
  match files w config_path with
  | FileMissing => mret None
  | FileUnreadable => raise OSError
  | FileNotJson => raise JSONDecodeError
  | FileJson config =>
      url ← py_get config "secauto_url" JNull;
      api_key ← py_get config "secauto_api_key" JNull;
      if truthy url && truthy api_key then mret (Some (url, api_key)) else mret None
  end.

Fixpoint secauto_config_from (w : world) (paths : list string) : M (json * json) :=
  match paths with
  | [] => mret (JStr "http://localhost:8080", JNull)
  | config_path :: paths' =>
      found ← try_except (read_candidate w config_path) (except_Exception (mret None));
      match found with
      | Some url_and_key => mret url_and_key
      | None => secauto_config_from w paths'
      end
  end.

Definition get_secauto_config (w : world) : M (json * json) :=
  secauto_config_from w config_paths.

Definition requests_get (w : world) (address : json) (name : string) (api_key : json)
  : M (Z * option json) :=
  emit (HttpGet address name api_key);;
  match http_get w address name api_key with
  | NetworkFailure => raise RequestException
  | Response status_code body => mret (status_code, body)
  end.

(** [response.json()] *)
Definition response_json (body : option json) : M json :=
  match body with
  | Some data => mret data
  | None => raise RequestException
  end.

Definition get_integration_config (w : world) (integration_name : string) : M json :=
  '(secauto_url, secauto_api_key) ← get_secauto_config w;
  if negb (truthy secauto_api_key) then mret JNull
  else
    try_except
      ('(status_code, body) ← requests_get w secauto_url integration_name secauto_api_key;
       if (status_code =? 200)%Z then
         data ← response_json body;
         success ← py_get data "success" JNull;
         if truthy success then
           integration ← py_get data "integration" JNull;
           if truthy integration then py_subscript data "integration" else mret JNull
         else mret JNull
       else mret JNull)
      (except_RequestException (mret JNull)).

(** ** VirusTotal integration (virustotal_integration.py) *)

(** The attributes set by [__init__] before [_load_config]. *)
Definition vt_initial : vt_integration := {|
  vt_api_key := JNull;
  vt_base_url := JStr "https://www.virustotal.com/api/v3";
  vt_timeout := JNum 60;
  vt_retries := JNum 3
|}.

(** One assignment [self.x = <expr>] inside the [try] of [_load_config]: when
    the expression raises, the attributes assigned so far stay. *)
Definition assign_or_stop (expr : M json) (self : vt_integration)
    (continue : json -> vt_integration) : vt_integration :=
  match result expr with
  | Ret v => continue v
  | Raise _ => self
  end.

Definition apply_config (self : vt_integration) (config : json) : vt_integration :=
  assign_or_stop (py_get config "apikey" JNull) self (fun api_key =>
  let self := {| vt_api_key := api_key; vt_base_url := vt_base_url self;
                 vt_timeout := vt_timeout self; vt_retries := vt_retries self |} in
  assign_or_stop (py_get config "url" (vt_base_url self)) self (fun base_url =>
  let self := {| vt_api_key := vt_api_key self; vt_base_url := base_url;
                 vt_timeout := vt_timeout self; vt_retries := vt_retries self |} in
  assign_or_stop (settings ← py_get config "settings" (JDict []);
                  py_get settings "timeout" (vt_timeout self)) self (fun timeout =>
  let self := {| vt_api_key := vt_api_key self; vt_base_url := vt_base_url self;
                 vt_timeout := timeout; vt_retries := vt_retries self |} in
  assign_or_stop (settings ← py_get config "settings" (JDict []);
                  py_get settings "retries" (vt_retries self)) self (fun retries =>
  {| vt_api_key := vt_api_key self; vt_base_url := vt_base_url self;
     vt_timeout := vt_timeout self; vt_retries := retries |})))).

Definition _load_config (w : world) (self : vt_integration) : M vt_integration :=
  try_except
    (config ← get_integration_config w "virustotal";
     mret (if truthy config then apply_config self config else self))
    (except_Exception (mret self)).

(** [VirusTotalIntegration()] *)
Definition VirusTotalIntegration (w : world) : M vt_integration :=
  _load_config w vt_initial.

Definition scan_url (w : world) (self : vt_integration) (url : string) : M json :=
  if negb (truthy (vt_api_key self)) then
    mret (JDict [("virustotal",
                  JDict [("success", JBool false);
                         ("error_message", JStr "VirusTotal API key not configured")])])
  else
    emit (VtExchange url);; mret (vt_scan w self url).

(** ** URL scanner automation (virustotal_url_scanner.py) *)

(** [for x in v]: the items of a list, the keys of a mapping, the characters
    of a string. *)
Definition py_iter (v : json) : M (list json) :=
  match v with
  | JList l => mret l
  | JDict m => mret (map (fun kv => JStr (fst kv)) m)
  | JStr s => mret (map (fun c => JStr (String c EmptyString)) (list_ascii_of_string s))
  | _ => raise TypeError
  end.

(** [len(v)] *)
Definition py_len (v : json) : M Z :=
  match v with
  | JList l => mret (Z.of_nat (length l))
  | JDict m => mret (Z.of_nat (length m))
  | JStr s => mret (Z.of_nat (String.length s))
  | _ => raise TypeError
  end.

(** [n + v] for an integer [n]; a boolean counts as 0 or 1. *)
Definition py_add (n : Z) (v : json) : M Z :=
  match v with
  | JNum k => mret (n + k)%Z
  | JBool b => mret (n + (if b then 1 else 0))%Z
  | _ => raise TypeError
  end.

(** [v == 0] *)
Definition py_is_zero (v : json) : bool :=
  match v with
  | JNum k => (k =? 0)%Z
  | JBool b => negb b
  | _ => false
  end.

Definition startswith (s prefix : string) : bool := String.prefix prefix s.

Definition endswith (s suffix : string) : bool :=
  String.prefix (String.rev suffix) (String.rev s).

(** [c.isspace()], for code points below 256. *)
Definition is_space (c : ascii) : bool :=
  let n := nat_of_ascii c in
  ((9 <=? n) && (n <=? 13)) || ((28 <=? n) && (n <=? 32)) || (n =? 133) || (n =? 160).

Fixpoint lstrip (s : string) : string :=
  match s with
  | EmptyString => EmptyString
  | String c s' => if is_space c then lstrip s' else s
  end.

(** [s.strip()] *)
Definition py_strip (s : string) : string :=
  String.rev (lstrip (String.rev (lstrip s))).

(** [isinstance(v, str) and v.strip()] *)
Definition nonblank_str (v : json) : option string :=
  match v with
  | JStr s => if String.eqb (py_strip s) "" then None else Some s
  | _ => None
  end.

(** The inner [for item in parsed_array] loop. *)
Definition nonblank_items (parsed_array : list json) : list string :=
  omap nonblank_str parsed_array.

(** One iteration of [for url in urls], on the pair
    [(valid_urls, invalid_urls)]. *)
Definition classify_url (w : world) (lists : list string * list string) (url : json)
  : list string * list string :=
  let '(valid_urls, invalid_urls) := lists in
  match url with
  | JStr s =>
      if startswith s "{{" && endswith s "}}" then
        (valid_urls, invalid_urls ++ [s])
      else if negb (String.eqb (py_strip s) "") then
        if startswith s "[" && endswith s "]" then
          match json_loads w s with
          | Some (JList parsed_array) =>
              (valid_urls ++ nonblank_items parsed_array, invalid_urls)
          | _ => (valid_urls ++ [s], invalid_urls)
          end
        else (valid_urls ++ [s], invalid_urls)
      else (valid_urls, invalid_urls ++ [s])
  | _ => (valid_urls, invalid_urls ++ [py_str w url])
  end.

Definition zero_summary (total_urls failed_scans : Z) : json :=
  JDict [("total_urls", JNum total_urls);
         ("scanned_urls", JNum 0);
         ("malicious_urls", JNum 0);
         ("clean_urls", JNum 0);
         ("failed_scans", JNum failed_scans)].

(** The double quote character. *)
Definition dquote : string := String (ascii_of_nat 34) EmptyString.

(** The error text of the [if not urls:] block; it quotes two key names. *)
Definition no_urls_error : string :=
  String.concat dquote
    ["No URLs provided in context. Expected "; "urls"; " key or ";
     "threat_intelligence.domains"; ""].

(** The envelope of the [if not urls:] block. *)
Definition no_urls_envelope : json :=
  JDict [("virustotal",
          JDict [("success", JBool false);
                 ("error", JStr no_urls_error);
                 ("results", JList []);
                 ("summary", zero_summary 0 0)])].

(** [repr] of a list of strings. *)
Definition repr_list (w : world) (l : list string) : string :=
  String.append "[" (String.append (String.concat ", " (map (py_repr w) l)) "]").

(** The envelope of the [if not valid_urls:] block. *)
Definition no_valid_envelope (w : world) (invalid_urls : list string) (n_urls : Z) : json :=
  JDict [("virustotal",
          JDict [("success", JBool false);
                 ("error", JStr (String.append "No valid URLs provided. Invalid URLs: "
                                               (repr_list w invalid_urls)));
                 ("results", JList []);
                 ("summary", zero_summary n_urls n_urls)])].

(** The variables of the scanning loops. *)
Record scan_state : Type := {
  results : list json;
  malicious_count : Z;
  clean_count : Z;
  failed_count : Z
}.

Definition scan_start : scan_state :=
  {| results := []; malicious_count := 0; clean_count := 0; failed_count := 0 |}.

(** The body of [for url in valid_urls]. *)
Definition scan_one (w : world) (vt : vt_integration) (st : scan_state) (url : string)
  : M scan_state :=
  try_except
    (scanned ← scan_url w vt url;
     virustotal_result ← py_get scanned "virustotal" (JDict []);
     stats ← py_get virustotal_result "stats" (JDict []);
     counted ← (if truthy stats then
                  malicious_count_for_url ← py_get stats "malicious" (JNum 0);
                  total ← py_add (malicious_count st) malicious_count_for_url;
                  mret {| results := results st;
                          malicious_count := total;
                          clean_count := if py_is_zero malicious_count_for_url
                                         then (clean_count st + 1)%Z else clean_count st;
                          failed_count := failed_count st |}
                else
                  mret {| results := results st;
                          malicious_count := malicious_count st;
                          clean_count := clean_count st;
                          failed_count := (failed_count st + 1)%Z |});
     success ← py_get virustotal_result "success" (JBool false);
     error_message ← py_get virustotal_result "error_message" (JStr "");
     mret {| results := results counted ++
                        [JDict [("url", JStr url); ("verdicts", stats);
                                ("success", success); ("error_message", error_message)]];
             malicious_count := malicious_count counted;
             clean_count := clean_count counted;
             failed_count := failed_count counted |})
    (fun e => Some (mret
       {| results := results st ++
                     [JDict [("url", JStr url); ("verdict", JDict []);
                             ("success", JBool false);
                             ("error_message", JStr (str_exn w e))]];
          malicious_count := malicious_count st;
          clean_count := clean_count st;
          failed_count := (failed_count st + 1)%Z |})).

Fixpoint scan_all (w : world) (vt : vt_integration) (st : scan_state) (urls : list string)
  : M scan_state :=
  match urls with
  | [] => mret st
  | url :: urls' => st' ← scan_one w vt st url; scan_all w vt st' urls'
  end.

(** The body of [for url in invalid_urls]. *)
Definition add_invalid (st : scan_state) (url : string) : scan_state :=
  {| results := results st ++
                [JDict [("url", JStr url); ("verdicts", JDict []);
                        ("success", JBool false);
                        ("error_message",
                         JStr (String.append "Template variable not resolved: " url))]];
     malicious_count := malicious_count st;
     clean_count := clean_count st;
     failed_count := (failed_count st + 1)%Z |}.

Definition final_envelope (w : world) (n_urls : Z) (valid_urls invalid_urls : list string)
    (st : scan_state) : json :=
  let n_valid := Z.of_nat (length valid_urls) in
  let n_invalid := Z.of_nat (length invalid_urls) in
  let summary :=
    JDict [("total_urls", JNum n_urls);
           ("scanned_urls", JNum (n_valid - failed_count st + n_invalid));
           ("malicious_urls", JNum (malicious_count st));
           ("clean_urls", JNum (clean_count st));
           ("failed_scans", JNum (failed_count st));
           ("invalid_urls", JNum n_invalid);
           ("success_rate",
            match valid_urls with
            | [] => JNum 0
            | _ => py_percent w (n_valid - failed_count st) n_valid
            end)] in
  let overall_success := (failed_count st =? 0)%Z && (0 <? n_valid)%Z in
  JDict [("virustotal",
          JDict [("success", JBool overall_success);
                 ("results", JList (results st));
                 ("summary", summary);
                 ("timestamp", JStr (now_isoformat w))])].

(** [main()], with the ambient [context] as its argument.  Neither [if]
    block ends in a [return]: control continues after each
    [return_context]. *)
Definition main (w : world) (context : json) : M unit :=
  urls ← py_get context "urls" (JList []);
  (if negb (truthy urls) then return_context no_urls_envelope else mret tt);;
  items ← py_iter urls;
  let '(valid_urls, invalid_urls) := fold_left (classify_url w) items ([], []) in
  (match valid_urls with
   | [] => n_urls ← py_len urls;
           return_context (no_valid_envelope w invalid_urls n_urls)
   | _ => mret tt
   end);;
  vt ← VirusTotalIntegration w;
  scanned ← scan_all w vt scan_start valid_urls;
  let st := fold_left add_invalid invalid_urls scanned in
  n_urls ← py_len urls;
  return_context (final_envelope w n_urls valid_urls invalid_urls st).

(** ** Capability shim and hot reload (sitecustomize.py) *)

(** What a name of the capability namespace can be bound to. *)
Inductive pyobj : Type :=
| ObjOpaque (id : N)       (* a module or one of its functions, by identity *)
| ObjShim (name : string)  (* a function defined by sitecustomize itself *)
| ObjData (j : json).      (* a document *)

(** A loaded [SoarBaseAPI] module: the module object and its attributes. *)
Record py_module : Type := {
  module_object : pyobj;
  module_attrs : gmap string pyobj
}.

Inductive import_result : Type :=
| Imported (m : py_module)
| ImportRaises (e : exn).

(** The backing file at one moment: its modification time ([None]: the file
    does not exist), and what executing it gives. *)
Record disk : Type := {
  soar_api_mtime : option Z;
  soar_api_import : import_result
}.

Record shim_state : Type := {
  builtins : gmap string pyobj;
  sys_modules : option py_module;       (* [sys.modules.get('SoarBaseAPI')] *)
  last_modified_time : option Z         (* the global, once it is set *)
}.

Definition set_builtin (name : string) (o : pyobj) (s : shim_state) : shim_state :=
  {| builtins := <[name := o]> (builtins s);
     sys_modules := sys_modules s;
     last_modified_time := last_modified_time s |}.

Definition set_sys_modules (m : option py_module) (s : shim_state) : shim_state :=
  {| builtins := builtins s;
     sys_modules := m;
     last_modified_time := last_modified_time s |}.

Definition set_last_modified_time (t : Z) (s : shim_state) : shim_state :=
  {| builtins := builtins s;
     sys_modules := sys_modules s;
     last_modified_time := Some t |}.

(** Statements that change the shim state and may raise. *)
Definition SM (A : Type) : Type := shim_state -> shim_state * outcome A.

(** [first; second]: an exception in [first] skips [second]. *)
Definition seq_SM {A : Type} (first : SM unit) (second : SM A) : SM A :=
  fun s =>
    match first s with
    | (s', Ret _) => second s'
    | (s', Raise e) => (s', Raise e)
    end.

(** [import SoarBaseAPI]: the cached module if there is one, else the file is
    executed and the module cached. *)
Definition import_SoarBaseAPI (d : disk) : SM py_module :=
  fun s =>
    match sys_modules s with
    | Some m => (s, Ret m)
    | None =>
        match soar_api_import d with
        | Imported m => (set_sys_modules (Some m) s, Ret m)
        | ImportRaises e => (s, Raise e)
        end
    end.

(** [builtins.<name> = SoarBaseAPI.<name>] *)
Definition bind_attr (m : py_module) (name : string) : SM unit :=
  fun s =>
    match module_attrs m !! name with
    | Some o => (set_builtin name o s, Ret tt)
    | None => (s, Raise AttributeError)
    end.

Fixpoint bind_attrs (m : py_module) (names : list string) : SM unit :=
  match names with
  | [] => fun s => (s, Ret tt)
  | name :: names' => seq_SM (bind_attr m name) (bind_attrs m names')
  end.

(** The names rebound by [reload_soar_api] after [builtins.SoarBaseAPI], in
    the order of the assignments. *)
Definition reload_names : list string :=
  ["search_context"; "search_context_iterative"; "search_context_path";
   "load_context"; "base_context"; "return_context";
   "get_secauto_config"; "get_integration_config";
   "get_cache"; "set_cache"; "delete_cache"].

(** The [try] block of [reload_soar_api]. *)
Definition reload_body (d : disk) : SM unit :=
  fun s =>
    match import_SoarBaseAPI d (set_sys_modules None s) with
    | (s', Raise e) => (s', Raise e)
    | (s', Ret m) =>
        bind_attrs m reload_names (set_builtin "SoarBaseAPI" (module_object m) s')
    end.

Definition reload_soar_api (d : disk) : SM bool :=
  fun s =>
    match reload_body d s with
    | (s', Ret _) => (s', Ret true)
    | (s', Raise _) => (s', Ret false)     (* except Exception: return False *)
    end.

Definition check_and_reload (d : disk) : SM unit :=
  fun s =>
    match soar_api_mtime d with
    | None => (s, Ret tt)
    | Some current_mtime =>
        match last_modified_time s with
        | None => (set_last_modified_time current_mtime s, Ret tt)
        | Some recorded =>
            if (recorded <? current_mtime)%Z then
              match reload_soar_api d (set_last_modified_time current_mtime s) with
              | (s', Ret _) => (s', Ret tt)
              | (s', Raise e) => (s', Raise e)
              end
            else (s, Ret tt)
        end
    end.

(** [_ensure_context_loaded()]; [json.loads(SoarBaseAPI.base_context())] is
    [base_context]. *)
Definition _ensure_context_loaded (w : world) : M json :=
  try_except
    (context ← load_context w;
     match context with
     | JNull => mret base_context
     | _ => mret context
     end)
    (except_Exception (mret base_context)).

(** The assignments of the initial import block that read the module, before
    and after the two that bind the shim's own functions. *)
Definition initial_names_head : list string :=
  ["search_context"; "search_context_iterative"; "search_context_path";
   "load_context"; "return_context";
   "get_secauto_config"; "get_integration_config"].

Definition initial_names_tail : list string :=
  ["get_cache"; "set_cache"; "delete_cache"].

(** The [try] block of the initial import.  The calls [get_secauto_config()]
    and [SoarBaseAPI.load_context()] run the functions of the module just
    bound, taken here to be those of SoarBaseAPI.py. *)
Definition initial_import_body (d : disk) (w : world) (s : shim_state)
  : list event * shim_state * outcome unit :=
  match import_SoarBaseAPI d s with
  | (s1, Raise e) => ([], s1, Raise e)
  | (s1, Ret m) =>
      let binding :=
        seq_SM (fun s => (set_builtin "SoarBaseAPI" (module_object m) s, Ret tt))
       (seq_SM (bind_attrs m initial_names_head)
       (seq_SM (fun s => (set_builtin "check_and_reload" (ObjShim "check_and_reload")
                            (set_builtin "reload_soar_api" (ObjShim "reload_soar_api") s),
                          Ret tt))
               (bind_attrs m initial_names_tail))) in
      match binding s1 with
      | (s2, Raise e) => ([], s2, Raise e)
      | (s2, Ret _) =>
          match get_secauto_config w with
          | (t1, Raise e) => (t1, s2, Raise e)
          | (t1, Ret (secauto_url, secauto_api_key)) =>
              match _ensure_context_loaded w with
              | (t2, Raise e) => (t1 ++ t2, s2, Raise e)
              | (t2, Ret global_context) =>
                  (t1 ++ t2,
                   set_builtin "secauto_api_key" (ObjData secauto_api_key)
                     (set_builtin "secauto_url" (ObjData secauto_url)
                        (set_builtin "context" (ObjData global_context) s2)),
                   Ret tt)
              end
          end
      end
  end.

(** The initial import with its [except ImportError] clause. *)
Definition initial_import (d : disk) (w : world) (s : shim_state)
  : list event * shim_state * outcome unit :=
  match initial_import_body d w s with
  | (t, s', Raise ImportError) =>
      (t ++ [Stderr "Warning: Could not import SoarBaseAPI"], s', Ret tt)
  | r => r
  end.

(** The interpreter before sitecustomize runs. *)
Definition fresh_state : shim_state :=
  {| builtins := ∅; sys_modules := None; last_modified_time := None |}.

(** ** Vocabulary of the resolver properties *)

(** A candidate file yields coordinates: it exists, parses to a mapping, and
    holds a non-empty address and a non-empty credential. *)
Definition candidate_usable (f : file_state) : bool :=
  match f with
  | FileJson (JDict m) =>
      truthy (match dict_get "secauto_url" m with Some v => v | None => JNull end)
      && truthy (match dict_get "secauto_api_key" m with Some v => v | None => JNull end)
  | _ => false
  end.

Definition is_HttpGet (ev : event) : bool :=
  match ev with HttpGet _ _ _ => true | _ => false end.

Definition is_Stdout (ev : event) : bool :=
  match ev with Stdout _ => true | _ => false end.

(** ** Sample worlds *)

(** No input, no file, no network, inert library functions. *)
Definition bare_world : world := {|
  stdin := StdinTty;
  files := fun _ => FileMissing;
  http_get := fun _ _ _ => NetworkFailure;
  vt_scan := fun _ _ => JDict [];
  json_loads := fun _ => None;
  now_isoformat := "2025-01-01T00:00:00";
  py_str := fun _ => "";
  py_repr := fun s => s;
  str_exn := fun _ => "";
  py_percent := fun _ _ => JNum 0
|}.

Definition with_stdin (s : stdin_state) (w : world) : world := {|
  stdin := s;
  files := files w;
  http_get := http_get w;
  vt_scan := vt_scan w;
  json_loads := json_loads w;
  now_isoformat := now_isoformat w;
  py_str := py_str w;
  py_repr := py_repr w;
  str_exn := str_exn w;
  py_percent := py_percent w
|}.

(** The first candidate file holds coordinates, and the config endpoint
    answers every request with [reply]. *)
Definition served_world (reply : http_response) : world := {|
  stdin := StdinTty;
  files := fun path =>
    if String.eqb path "data/integration_config.json"
    then FileJson (JDict [("secauto_url", JStr "http://localhost:8080");
                          ("secauto_api_key", JStr "K")])
    else FileMissing;
  http_get := fun _ _ _ => reply;
  vt_scan := fun _ _ => JDict [];
  json_loads := fun _ => None;
  now_isoformat := "2025-01-01T00:00:00";
  py_str := fun _ => "";
  py_repr := fun s => s;
  str_exn := fun _ => "";
  py_percent := fun _ _ => JNum 0
|}.

(** The second candidate holds coordinates; the first exists but has an
    empty credential, the third holds other coordinates. *)
Definition second_candidate_world : world := {|
  stdin := StdinTty;
  files := fun path =>
    if String.eqb path "data/integration_config.json"
    then FileJson (JDict [("secauto_url", JStr "http://first"); ("secauto_api_key", JStr "")])
    else if String.eqb path "SoarAuto/data/integration_config.json"
    then FileJson (JDict [("secauto_url", JStr "http://second"); ("secauto_api_key", JStr "K2")])
    else FileJson (JDict [("secauto_url", JStr "http://third"); ("secauto_api_key", JStr "K3")]);
  http_get := fun _ _ _ => NetworkFailure;
  vt_scan := fun _ _ => JDict [];
  json_loads := fun _ => None;
  now_isoformat := "2025-01-01T00:00:00";
  py_str := fun _ => "";
  py_repr := fun s => s;
  str_exn := fun _ => "";
  py_percent := fun _ _ => JNum 0
|}.

(** The context [{"urls": []}]. *)
Definition empty_urls_context : json := JDict [("urls", JList [])].

(** ** Sample modules and disks *)

(** The functions SoarBaseAPI.py defines. *)
Definition soar_api_functions : list string :=
  ["base_context"; "load_context"; "return_context"; "update_context";
   "search_context_iterative"; "search_context"; "search_context_path";
   "get_secauto_config"; "get_integration_config"].

(** A module whose attributes are [names]; [version] tells two loads of the
    file apart. *)
Definition module_with (version : N) (names : list string) : py_module := {|
  module_object := ObjOpaque (1000 * version);
  module_attrs :=
    list_to_map (imap (fun i name => (name, ObjOpaque (1000 * version + 1 + N.of_nat i)))
                      names)
|}.

(** The module as SoarBaseAPI.py gives it, and one that also has the three
    cache functions the shim binds. *)
Definition soar_api_module (version : N) : py_module :=
  module_with version soar_api_functions.

Definition full_module (version : N) : py_module :=
  module_with version (soar_api_functions ++ ["get_cache"; "set_cache"; "delete_cache"]).

Definition disk_at (mtime : Z) (m : py_module) : disk :=
  {| soar_api_mtime := Some mtime; soar_api_import := Imported m |}.

(** The shim state after the initial import of [full_module 1] at modification
    time 100. *)
Definition activated : shim_state :=
  snd (fst (initial_import (disk_at 100 (full_module 1)) bare_world fresh_state)).

(** ** Vocabulary of the shim properties *)

(** The namespace after the assignments for [names], all present in [m]. *)
Definition rebound (m : py_module) (names : list string) (b : gmap string pyobj)
  : gmap string pyobj :=
  fold_left (fun b name =>
               match module_attrs m !! name with
               | Some o => <[name := o]> b
               | None => b
               end) names b.

Definition exports (m : py_module) (names : list string) : Prop :=
  Forall (fun name => is_Some (module_attrs m !! name)) names.

(** ** Further code: context update (SoarBaseAPI.py) *)

(** [m[k] = v]: an existing key keeps its place, a new key goes last. *)
Fixpoint dict_set (k : string) (v : json) (m : list (string * json))
  : list (string * json) :=
  match m with
  | [] => [(k, v)]
  | (k', v') :: m' =>
      if String.eqb k' k then (k', v) :: m' else (k', v') :: dict_set k v m'
  end.

(** [m.update(data)], the entries of [data] in their order. *)
Definition dict_update (m data : list (string * json)) : list (string * json) :=
  fold_left (fun m kv => dict_set (fst kv) (snd kv) m) data m.

(** [update_context(context, data)] for a patch [data] that is a mapping,
    given by its entries. *)
Definition update_context (context : json) (data : list (string * json)) : json :=
  match context with
  | JDict m => JDict (dict_update m data)
  | _ => JNull
  end.


(** ** Further code: the HTTP exchanges of the VirusTotal integration *)

(** What a request of the integration does. *)
Inductive vt_reply : Type :=
| VtRaises (e : exn)
| VtResponse (status_code : Z) (text : string) (body : option json).
      (* [body = None]: [response.json()] raises, a RequestException *)

Record vt_network : Type := {
  vt_post : vt_integration -> string -> vt_reply;
      (* [requests.post(f"{self.base_url}/urls", ...)] for one URL *)
  vt_get : vt_integration -> json -> vt_reply
      (* [requests.get(f"{self.base_url}/analyses/{analysis_id}", ...)] *)
}.

Definition vt_request (r : vt_reply) : M (Z * string * option json) :=
  match r with
  | VtRaises e => raise e
  | VtResponse status_code text body => mret (status_code, text, body)
  end.

(** [str(n)] of an integer. *)
Definition py_str_int (n : Z) : string := NilZero.string_of_int (Z.to_int n).

(** [{"success": False, "error_message": f"<label>{detail}"}] *)
Definition vt_failure (label detail : string) : list (string * json) :=
  [("success", JBool false); ("error_message", JStr (String.append label detail))].

(** [f"HTTP {response.status_code}: {response.text}"] *)
Definition http_error_text (status_code : Z) (text : string) : string :=
  String.append (py_str_int status_code) (String.append ": " text).

(** The two [except] clauses shared by [get_report] and [scan_url]. *)
Definition vt_handlers (w : world) (wrap : list (string * json) -> json)
  : exn -> option (M json) :=
  fun e =>
    match e with
    | RequestException => Some (mret (wrap (vt_failure "Request failed: " (str_exn w e))))
    | _ => Some (mret (wrap (vt_failure "Unexpected error: " (str_exn w e))))
    end.

Definition get_report (w : world) (net : vt_network) (self : vt_integration)
    (analysis_id : json) : M json :=
  if negb (truthy (vt_api_key self)) then
    mret (JDict (vt_failure "VirusTotal API key not configured" ""))
  else
    try_except
      ('(status_code, text, body) ← vt_request (vt_get net self analysis_id);
       if (status_code =? 200)%Z then
         data ← response_json body;
         inner ← py_get data "data" (JDict []);
         attributes ← py_get inner "attributes" (JDict []);
         status ← py_get attributes "status" (JStr "unknown");
         stats ← py_get attributes "stats" (JDict []);
         mret (JDict [("success", JBool true); ("status", status); ("stats", stats)])
       else
         mret (JDict (vt_failure "HTTP " (http_error_text status_code text))))
      (vt_handlers w JDict).

(** [{"virustotal": {...}}] *)
Definition vt_envelope (value : list (string * json)) : json :=
  JDict [("virustotal", JDict value)].

(** [scan_url] from its [try] on, that is, once an API key is configured. *)
Definition scan_url_exchange (w : world) (net : vt_network) (self : vt_integration)
    (url : string) : M json :=
  try_except
    ('(status_code, text, body) ← vt_request (vt_post net self url);
     if (status_code =? 200)%Z then
       data ← response_json body;
       inner ← py_get data "data" (JDict []);
       analysis_id ← py_get inner "id" (JStr "");
       if truthy analysis_id then
         report ← get_report w net self analysis_id;
         match report with
         | JDict report_entries =>
             mret (vt_envelope
                     (dict_update [("success", JBool true); ("url", JStr url);
                                   ("analysis_id", analysis_id)] report_entries))
         | _ => raise TypeError
         end
       else
         mret (vt_envelope (vt_failure "No analysis ID returned from VirusTotal" ""))
     else
       mret (vt_envelope (vt_failure "HTTP " (http_error_text status_code text))))
    (vt_handlers w vt_envelope).

(** The value an action returns; [None] stands in for an action that raises. *)
Definition returned (action : M json) : json :=
  match result action with
  | Ret v => v
  | Raise _ => JNull
  end.

(** The world whose scanning oracle is the integration's own code over the
    network [net]. *)
Definition world_with_network (net : vt_network) (w : world) : world := {|
  stdin := stdin w;
  files := files w;
  http_get := http_get w;
  vt_scan := fun self url => returned (scan_url_exchange w net self url);
  json_loads := json_loads w;
  now_isoformat := now_isoformat w;
  py_str := py_str w;
  py_repr := py_repr w;
  str_exn := str_exn w;
  py_percent := py_percent w
|}.

(** ** Vocabulary of the scanner properties *)

(** The [try] body of [scan_one] after the call of [scan_url]. *)
Definition process_scan (st : scan_state) (url : string) (scanned : json) : M scan_state :=
  virustotal_result ← py_get scanned "virustotal" (JDict []);
  stats ← py_get virustotal_result "stats" (JDict []);
  counted ← (if truthy stats then
               malicious_count_for_url ← py_get stats "malicious" (JNum 0);
               total ← py_add (malicious_count st) malicious_count_for_url;
               mret {| results := results st;
                       malicious_count := total;
                       clean_count := if py_is_zero malicious_count_for_url
                                      then (clean_count st + 1)%Z else clean_count st;
                       failed_count := failed_count st |}
             else
               mret {| results := results st;
                       malicious_count := malicious_count st;
                       clean_count := clean_count st;
                       failed_count := (failed_count st + 1)%Z |});
  success ← py_get virustotal_result "success" (JBool false);
  error_message ← py_get virustotal_result "error_message" (JStr "");
  mret {| results := results counted ++
                     [JDict [("url", JStr url); ("verdicts", stats);
                             ("success", success); ("error_message", error_message)]];
          malicious_count := malicious_count counted;
          clean_count := clean_count counted;
          failed_count := failed_count counted |}.

(** The two lists the [for url in urls] loop builds. *)
Definition classified (w : world) (items : list json) : list string * list string :=
  fold_left (classify_url w) items ([], []).

(** [context.get('urls', [])] for a context that is a mapping. *)
Definition urls_of (m : list (string * json)) : json :=
  match dict_get "urls" m with
  | Some v => v
  | None => JList []
  end.

(** One scan leaves the counters consistent with one more result. *)
Definition scan_step_ok (st st' : scan_state) : Prop :=
  length (results st') = S (length (results st))
  /\ (failed_count st <= failed_count st')%Z
  /\ (clean_count st <= clean_count st')%Z
  /\ (clean_count st' + failed_count st' <= clean_count st + failed_count st + 1)%Z.

(** The result entry of a URL scanned without an API key. *)
Definition unconfigured_entry (url : string) : json :=
  JDict [("url", JStr url); ("verdicts", JDict []);
         ("success", JBool false);
         ("error_message", JStr "VirusTotal API key not configured")].

Definition count_stdout (t : list event) : nat :=
  length (filter (fun ev => is_Stdout ev = true) t).

(** A string that the loop of [main] takes as one URL to scan: not an
    unresolved template, not blank, not a bracketed array text. *)
Definition plain_url (u : string) : bool :=
  negb (startswith u "{{" && endswith u "}}")
  && negb (String.eqb (py_strip u) "")
  && negb (startswith u "[" && endswith u "]").

(** A network on which VirusTotal accepts every URL with analysis id "a1"
    and reports three engines, one of them flagging the URL. *)
Definition sample_network : vt_network := {|
  vt_post := fun _ _ =>
    VtResponse 200 "" (Some (JDict [("data", JDict [("id", JStr "a1")])]));
  vt_get := fun _ _ =>
    VtResponse 200 ""
      (Some (JDict [("data",
                     JDict [("attributes",
                             JDict [("status", JStr "completed");
                                    ("stats", JDict [("malicious", JNum 1);
                                                     ("harmless", JNum 2)])])])]))
|}.

(** Coordinates on disk and a config endpoint that serves an API key. *)
Definition configured_world : world :=
  served_world (Response 200 (Some (JDict [("success", JBool true);
                                           ("integration", JDict [("apikey", JStr "K")])]))).

(** ** Further code: the Redis integration (redis_integration.py) *)

(** The attributes of a [RedisIntegration] object. *)
Record redis_integration : Type := {
  redis_host : json;
  redis_port : json;
  redis_password : json
}.

(** The attributes set by [__init__] before [_load_config]. *)
Definition redis_initial : redis_integration :=
  {| redis_host := JNull; redis_port := JNull; redis_password := JNull |}.

(** The attributes set by the [except] clauses of [_load_config]. *)
Definition redis_defaults : redis_integration :=
  {| redis_host := JStr "localhost"; redis_port := JNum 6379; redis_password := JStr "" |}.

(** [RedisIntegration._load_config]; the constructor ignores its argument. *)
Definition redis_load_config (w : world) : M redis_integration :=
  try_except
    (config ← get_integration_config w "redis";
     if truthy config then
       host ← py_get config "host" (JStr "localhost");
       port ← py_get config "port" (JNum 6379);
       password ← py_get config "password" (JStr "");
       mret {| redis_host := host; redis_port := port; redis_password := password |}
     else mret redis_initial)
    (except_Exception (mret redis_defaults)).

(** [RedisIntegration(config_manager)] *)
Definition RedisIntegration (w : world) : M redis_integration := redis_load_config w.

(** A command attempted on a Redis connection, with the connection's
    parameters. *)
Inductive redis_call : Type :=
| RedisGet (host port password : json) (key : string)
| RedisSet (host port password : json) (key value : string)
| RedisDelete (host port password : json) (key : string).

(** What the server answers to a [GET]. *)
Inductive redis_reply : Type :=
| RedisRaises (e : exn)        (* connection refused, wrong password, ... *)
| RedisNil                     (* no such key: [None] *)
| RedisBytes (raw : string).   (* the stored bytes *)

Record redis_env : Type := {
  redis_module : bool;                        (* [import redis] succeeded *)
  redis_get_reply : redis_call -> redis_reply;
  redis_command_raises : redis_call -> option exn;   (* for [SET] and [DELETE] *)
  utf8_decode : string -> option string       (* [None]: UnicodeDecodeError *)
}.

(** Events of the automations that use the cache: those of the bridge, and
    the Redis commands. *)
Inductive io_event : Type :=
| Core (ev : event)
| Cache (c : redis_call).

Definition MR (A : Type) : Type := list io_event * outcome A.

#[global] Instance MR_ret : MRet MR := fun A a => ([], Ret a).

#[global] Instance MR_bind : MBind MR := fun A B k m =>
  match m with
  | (t, Ret a) => let '(t', r) := k a in (t ++ t', r)
  | (t, Raise e) => (t, Raise e)
  end.

Definition raise_R {A : Type} (e : exn) : MR A := ([], Raise e).

(** An action of the bridge inside an automation that uses the cache. *)
Definition lift {A : Type} (m : M A) : MR A := (map Core (fst m), snd m).

(** [try: body except Exception as e: handler(e)] *)
Definition try_except_R {A : Type} (body : MR A) (handler : exn -> MR A) : MR A :=
  match body with
  | (t, Ret a) => (t, Ret a)
  | (t, Raise e) => let '(t', r) := handler e in (t ++ t', r)
  end.

(** [{"redis": {"success": False, "error_message": message}}] *)
Definition redis_failure (message : string) : json :=
  JDict [("redis", JDict [("success", JBool false); ("error_message", JStr message)])].

(** [{"redis": {"success": True, <field>: text}}] *)
Definition redis_success (field text : string) : json :=
  JDict [("redis", JDict [("success", JBool true); (field, JStr text)])].

Definition redis_unexpected (w : world) (e : exn) : MR json :=
  mret (redis_failure (String.append "Unexpected error: " (str_exn w e))).

(** [redis.Redis(host=..., port=..., password=...)] and one command on it. *)
Definition redis_command (env : redis_env) (c : redis_call) : MR unit :=
  match redis_command_raises env c with
  | Some e => ([Cache c], Raise e)
  | None => ([Cache c], Ret tt)
  end.

Definition get_cache (w : world) (env : redis_env) (self : redis_integration)
    (key : string) : MR json :=
  if negb (truthy (redis_host self)) then
    mret (redis_failure "Redis host not configured")
  else if negb (redis_module env) then
    mret (redis_failure "Redis module not available. Install with: pip install redis")
  else
    let c := RedisGet (redis_host self) (redis_port self) (redis_password self) key in
    try_except_R
      (match redis_get_reply env c with
       | RedisRaises e => ([Cache c], Raise e)
       | RedisNil => ([Cache c], Ret (redis_failure "Key not found in Redis"))
       | RedisBytes raw =>
           if String.eqb raw "" then ([Cache c], Ret (redis_failure "Key not found in Redis"))
           else match utf8_decode env raw with
                | Some text => ([Cache c], Ret (redis_success "value" text))
                | None => ([Cache c], Raise OtherException)
                end
       end)
      (redis_unexpected w).

(** [set_cache] reads no attribute of [self]: the connection is always to
    localhost, port 6379, empty password.  Without the redis module,
    [redis.Redis] is an attribute of [None]. *)
Definition set_cache (w : world) (env : redis_env) (self : redis_integration)
    (key value : string) : MR json :=
  try_except_R
    (if negb (redis_module env) then raise_R AttributeError
     else
       redis_command env (RedisSet (JStr "localhost") (JNum 6379) (JStr "") key value);;
       mret (redis_success "message" "Value set in Redis"))
    (redis_unexpected w).

Definition delete_cache (w : world) (env : redis_env) (self : redis_integration)
    (key : string) : MR json :=
  if negb (truthy (redis_host self)) then
    mret (redis_failure "Redis host not configured")
  else if negb (redis_module env) then
    mret (redis_failure "Redis module not available. Install with: pip install redis")
  else
    try_except_R
      (redis_command env
         (RedisDelete (redis_host self) (redis_port self) (redis_password self) key);;
       mret (redis_success "message" "Value deleted from Redis"))
      (redis_unexpected w).

(** ** Further code: the user-count automations (tenableauto.py, qualysauto.py) *)

(** [f"{v}"] of a document: a string as it is, [None], booleans and integers
    as Python prints them, anything else through [str]. *)
Definition py_format (w : world) (v : json) : string :=
  match v with
  | JStr s => s
  | JNull => "None"
  | JBool true => "True"
  | JBool false => "False"
  | JNum n => py_str_int n
  | _ => py_str w v
  end.

(** [json.dumps({'active_users': a, 'inactive_users': i})] *)
Definition dumps_counts (active_users inactive_users : Z) : string :=
  String.concat ""
    ["{"; dquote; "active_users"; dquote; ": "; py_str_int active_users; ", ";
     dquote; "inactive_users"; dquote; ": "; py_str_int inactive_users; "}"].

(** The envelope of the [if not users:] block of both automations. *)
Definition no_users_envelope : json :=
  JDict [("usercontext",
          JDict [("success", JBool false);
                 ("error", JStr "No Usersseen");
                 ("results", JList []);
                 ("summary", JDict [("active_users", JNum 0);
                                    ("inactive_users", JNum 0)])])].

Definition user_count_envelope (active_users inactive_users : Z) : json :=
  JDict [("usercontext",
          JDict [("success", JBool true);
                 ("summary", JDict [("active_users", JNum active_users);
                                    ("inactive_users", JNum inactive_users)])])].

(** [v == True]: the boolean true and the integer 1. *)
Definition py_eq_True (v : json) : bool :=
  match v with
  | JBool b => b
  | JNum n => (n =? 1)%Z
  | _ => false
  end.

(** [v == 'Active'] *)
Definition py_eq_Active (v : json) : bool :=
  match v with
  | JStr s => String.eqb s "Active"
  | _ => false
  end.

(** [for user in users: if user.get(field) == <value>: active_users += 1
    else: inactive_users += 1], on the pair of counters. *)
Fixpoint count_users (is_active : json -> bool) (field : string) (users : list json)
    (counts : Z * Z) : M (Z * Z) :=
  match users with
  | [] => mret counts
  | user :: users' =>
      v ← py_get user field JNull;
      count_users is_active field users'
        (if is_active v then ((fst counts + 1)%Z, snd counts)
         else (fst counts, (snd counts + 1)%Z))
  end.

(** [main()] of tenableauto.py, with the ambient [context] as argument. *)
Definition tenableauto_main (w : world) (env : redis_env) (context : json) : MR unit :=
  redisconfig ← lift (py_get context "redis" (JList []));
  redis ← lift (RedisIntegration w);
  users ← lift (py_get context "users" JNull);
  if negb (truthy users) then
    lift (return_context no_users_envelope)
  else
    items ← lift (py_iter users);
    '(active_users, inactive_users) ← lift (count_users py_eq_True "enabled" items (0, 0)%Z);
    clientname ← lift (py_get context "clientname" JNull);
    set_cache w env redis
      (String.append "tenable_user_count_" (py_format w clientname))
      (dumps_counts active_users inactive_users);;
    lift (return_context (user_count_envelope active_users inactive_users)).

(** One iteration of [for i in userlist] of qualysauto.py: the entry
    [{"login": ..., "status": ...}]. *)
Definition qualys_user (i : json) : M json :=
  login_field ← py_get i "USER_LOGIN" JNull;
  login ← py_get login_field "#text" JNull;
  status_field ← py_get i "USER_STATUS" JNull;
  status ← py_get status_field "#text" JNull;
  mret (JDict [("login", login); ("status", status)]).

Fixpoint qualys_usernames (userlist : list json) : M (list json) :=
  match userlist with
  | [] => mret []
  | i :: userlist' =>
      data ← qualys_user i;
      rest ← qualys_usernames userlist';
      mret (data :: rest)
  end.

(** [main()] of qualysauto.py, with the ambient [context] as argument. *)
Definition qualysauto_main (w : world) (env : redis_env) (context : json) : MR unit :=
  redisconfig ← lift (py_get context "redis" (JList []));
  output ← lift (py_get context "USER_LIST_OUTPUT" JNull);
  user_list ← lift (py_get output "USER_LIST" JNull);
  userlist ← lift (py_get user_list "USER" JNull);
  items ← lift (py_iter userlist);
  usernames ← lift (qualys_usernames items);
  redis ← lift (RedisIntegration w);
  match usernames with
  | [] => lift (return_context no_users_envelope)
  | _ =>
      '(active_users, inactive_users) ←
        lift (count_users py_eq_Active "status" usernames (0, 0)%Z);
      clientname ← lift (py_get context "clientname" JNull);
      set_cache w env redis
        (String.append "qualys_user_count_" (py_format w clientname))
        (dumps_counts active_users inactive_users);;
      lift (return_context (user_count_envelope active_users inactive_users))
  end.

(** ** Vocabulary of the cache and user-count properties *)

(** [c.get(key, default)] on the entries of a mapping. *)
Definition entry_or (c : list (string * json)) (key : string) (default : json) : json :=
  match dict_get key c with
  | Some v => v
  | None => default
  end.

(** The connection [set_cache] always uses. *)
Definition localhost_set (key value : string) : redis_call :=
  RedisSet (JStr "localhost") (JNum 6379) (JStr "") key value.

(** A user counts as active when its [field] entry passes [is_active]. *)
Definition user_is_active (is_active : json -> bool) (field : string) (user : json) : bool :=
  match user with
  | JDict u => is_active (entry_or u field JNull)
  | _ => false
  end.

Definition active_among (is_active : json -> bool) (field : string) (users : list json)
  : list json :=
  filter (fun user => user_is_active is_active field user = true) users.

Definition is_Cache (ev : io_event) : bool :=
  match ev with Cache _ => true | Core _ => false end.

Definition is_Core_Stdout (ev : io_event) : bool :=
  match ev with Core (Stdout _) => true | _ => false end.

(** A redis module that is installed and a server that stores nothing and
    accepts every command. *)
Definition empty_redis : redis_env := {|
  redis_module := true;
  redis_get_reply := fun _ => RedisNil;
  redis_command_raises := fun _ => None;
  utf8_decode := fun raw => Some raw
|}.

(** The entry [{"login": ..., "status": ...}] of a Qualys user record whose
    [USER_LOGIN] and [USER_STATUS] fields are mappings; [None] otherwise. *)
Definition qualys_entry (i : json) : option json :=
  match i with
  | JDict u =>
      match entry_or u "USER_LOGIN" JNull, entry_or u "USER_STATUS" JNull with
      | JDict login, JDict status =>
          Some (JDict [("login", entry_or login "#text" JNull);
                       ("status", entry_or status "#text" JNull)])
      | _, _ => None
      end
  | _ => None
  end.

(** ** Further code: repeated reload checks (sitecustomize.py) *)

(** [check_and_reload()] called once for each state of the file in [disks]. *)
Definition run_checks (disks : list disk) (s : shim_state) : shim_state :=
  fold_left (fun s d => fst (check_and_reload d s)) disks s.

(** The greatest modification time among the files that exist. *)
Definition latest_mtime (disks : list disk) (t : Z) : Z :=
  fold_left (fun t d => match soar_api_mtime d with
                        | Some current => Z.max t current
                        | None => t
                        end) disks t.

(** The namespace a complete initial import leaves, from the namespace [b]
    before it: the assignments of the block in their order. *)
Definition activated_builtins (m : py_module) (context url key : json)
    (b : gmap string pyobj) : gmap string pyobj :=
  <["secauto_api_key" := ObjData key]>
    (<["secauto_url" := ObjData url]>
       (<["context" := ObjData context]>
          (rebound m initial_names_tail
             (<["check_and_reload" := ObjShim "check_and_reload"]>
                (<["reload_soar_api" := ObjShim "reload_soar_api"]>
                   (rebound m initial_names_head
                      (<["SoarBaseAPI" := module_object m]> b))))))).

(* ===================================================================== *)
(** * Part II: properties                                                  *)
(* ===================================================================== *)

(** ** The examples of the specification *)

Example search_path_abc :
  let d := JDict [("a", JDict [("b", JDict [("c", JNum 1)])])] in
  search_context_path d "a.b.c" = JNum 1 /\ search_context_path d "a.x.c" = JNull.
Proof. split; reflexivity. Qed.

(** The recursive search takes the first match in insertion order; the
    iterative one pops the last container pushed. *)
Example search_duplicate_key :
  let d := JDict [("x", JDict [("k", JNum 1)]); ("y", JDict [("k", JNum 2)])] in
  search_context d "k" = JNum 1 /\ search_context_iterative d "k" = JNum 2.
Proof. split; reflexivity. Qed.

(** ** Induction on documents *)

Lemma json_ind (P : json -> Prop) :
  P JNull ->
  (forall b, P (JBool b)) ->
  (forall n, P (JNum n)) ->
  (forall s, P (JStr s)) ->
  (forall l, Forall P l -> P (JList l)) ->
  (forall m, Forall (fun kv => P (snd kv)) m -> P (JDict m)) ->
  forall j, P j.
Proof.
  intros Hnull Hbool Hnum Hstr Hlist Hdict.
  fix IH 1. intros [ | b | n | s | l | m].
  - exact Hnull.
  - apply Hbool.
  - apply Hnum.
  - apply Hstr.
  - apply Hlist. induction l as [|x l IHl]; constructor; [apply IH | exact IHl].
  - apply Hdict. induction m as [|[k v] m IHm]; constructor; [apply IH | exact IHm].
Qed.

(** ** The loops of [search_context] as list functions *)

Lemma search_context_list l key :
  search_context (JList l) key = search_each l key.
Proof. simpl. induction l as [|x l IH]; simpl; [done|]. by rewrite IH. Qed.

Lemma search_context_dict m key :
  search_context (JDict m) key =
  match dict_get key m with
  | Some v => v
  | None => search_each (dict_values m) key
  end.
Proof.
  simpl. destruct (dict_get key m); [done|].
  induction m as [|[k v] m IH]; simpl; [done|]. by rewrite IH.
Qed.

(** ** Occurrences and stored values *)

Lemma occurrences_in_cons key d docs :
  occurrences_in key (d :: docs) = occurrences key d + occurrences_in key docs.
Proof. reflexivity. Qed.

Lemma occurrences_in_app key l1 l2 :
  occurrences_in key (l1 ++ l2) = occurrences_in key l1 + occurrences_in key l2.
Proof.
  induction l1 as [|x l1 IH]; simpl; [done|].
  rewrite !occurrences_in_cons, IH. lia.
Qed.

Lemma occurrences_in_rev key l :
  occurrences_in key (rev l) = occurrences_in key l.
Proof.
  induction l as [|x l IH]; simpl; [done|].
  rewrite occurrences_in_app, IH, !occurrences_in_cons. unfold occurrences_in. simpl. lia.
Qed.

Lemma occurrences_in_containers key l :
  occurrences_in key (filter (fun v => is_container v = true) l) = occurrences_in key l.
Proof.
  induction l as [|x l IH]; simpl; [done|].
  rewrite filter_cons. destruct (decide (is_container x = true)) as [Hc|Hc].
  - rewrite !occurrences_in_cons, IH. done.
  - rewrite occurrences_in_cons, IH. by destruct x.
Qed.

Lemma occurrences_in_push key stack values :
  occurrences_in key (push_containers stack values)
  = occurrences_in key values + occurrences_in key stack.
Proof.
  by rewrite push_containers_rev, occurrences_in_app, occurrences_in_rev,
    occurrences_in_containers.
Qed.

Lemma occurrences_list key l :
  occurrences key (JList l) = occurrences_in key l.
Proof. reflexivity. Qed.

(** A mapping without an entry for [key] has the occurrences of its values. *)
Lemma occurrences_dict_miss key m :
  dict_get key m = None ->
  occurrences key (JDict m) = occurrences_in key (dict_values m).
Proof.
  simpl. induction m as [|[k v] m IH]; simpl; [done|].
  destruct (String.eqb k key) eqn:E; [done|]. intros H.
  rewrite occurrences_in_cons. simpl. rewrite IH by done. done.
Qed.

Lemma occurrences_dict_cons key k v m :
  occurrences key (JDict ((k, v) :: m))
  = (if String.eqb k key then 1 else 0) + occurrences key v + occurrences key (JDict m).
Proof. simpl. lia. Qed.

Lemma dict_get_In key m v : dict_get key m = Some v -> In (key, v) m.
Proof.
  induction m as [|[k x] m IH]; simpl; [done|].
  destruct (String.eqb k key) eqn:E.
  - apply String.eqb_eq in E. intros [= ->]. left. by subst.
  - intros H. right. by apply IH.
Qed.

Lemma In_dict_get key m v : In (key, v) m -> exists x, dict_get key m = Some x.
Proof.
  induction m as [|[k x] m IH]; simpl; [done|].
  intros [[= -> ->]|H].
  - rewrite String.eqb_refl. eauto.
  - destruct (String.eqb k key); eauto.
Qed.

Lemma occurrences_in_ge key x l :
  In x l -> occurrences key x <= occurrences_in key l.
Proof.
  induction l as [|y l IH]; [done|]. rewrite occurrences_in_cons.
  intros [->|Hin]; [lia|]. specialize (IH Hin). lia.
Qed.

Lemma occurrences_entry_ge key k x m :
  In (k, x) m ->
  (if String.eqb k key then 1 else 0) + occurrences key x <= occurrences key (JDict m).
Proof.
  induction m as [|[k' x'] m IH]; [done|]. rewrite occurrences_dict_cons.
  intros [[= -> ->]|Hin]; [lia|]. specialize (IH Hin). lia.
Qed.

Lemma stored_occurs key d v : stored key d v -> 1 <= occurrences key d.
Proof.
  induction 1 as [m v Hin | m k x v Hin _ IH | l x v Hin _ IH].
  - pose proof (occurrences_entry_ge key key v m Hin) as H.
    rewrite String.eqb_refl in H. lia.
  - pose proof (occurrences_entry_ge key k x m Hin). lia.
  - rewrite occurrences_list. pose proof (occurrences_in_ge key x l Hin). lia.
Qed.

Lemma stored_in_occurs key docs v : stored_in key docs v -> 1 <= occurrences_in key docs.
Proof.
  intros (d & Hin & Hst). apply stored_occurs in Hst.
  induction docs as [|y docs IH]; [done|]. rewrite occurrences_in_cons.
  destruct Hin as [->|Hin]; [lia|]. specialize (IH Hin). lia.
Qed.

Lemma stored_is_container key d v : stored key d v -> is_container d = true.
Proof. by destruct 1. Qed.

Lemma occurs_in_some key l :
  1 <= occurrences_in key l -> exists x, In x l /\ 1 <= occurrences key x.
Proof.
  induction l as [|y l IH]; [simpl; unfold occurrences_in; simpl; lia|].
  rewrite occurrences_in_cons. intros H.
  destruct (decide (1 <= occurrences key y)) as [Hy|Hy].
  - exists y. split; [by left|done].
  - destruct IH as (x & Hin & Hx); [lia|]. exists x. split; [by right|done].
Qed.

Lemma occurs_stored key d : 1 <= occurrences key d -> exists v, stored key d v.
Proof.
  induction d as [ | | | | l IH | m IH] using json_ind; simpl; try lia.
  - fold (occurrences_in key l). intros H.
    destruct (occurs_in_some key l H) as (x & Hin & Hx).
    rewrite List.Forall_forall in IH. destruct (IH x Hin Hx) as [v Hv].
    exists v. by eapply stored_in_item.
  - change (1 <= occurrences key (JDict m) -> exists v, stored key (JDict m) v).
    intros H. destruct (dict_get key m) as [v|] eqn:E.
    + exists v. apply stored_here. by apply dict_get_In.
    + rewrite occurrences_dict_miss in H by done.
      destruct (occurs_in_some key _ H) as (x & Hin & Hx).
      unfold dict_values in Hin. apply in_map_iff in Hin as ([k x'] & <- & Hin).
      rewrite List.Forall_forall in IH. destruct (IH _ Hin Hx) as [v Hv].
      exists v. by eapply stored_in_value.
Qed.

Lemma In_push_containers d stack values :
  In d (push_containers stack values) <->
  (In d values /\ is_container d = true) \/ In d stack.
Proof.
  rewrite push_containers_rev, in_app_iff, <- in_rev.
  rewrite <- !list_elem_of_In, list_elem_of_filter. tauto.
Qed.

Lemma stored_in_values key m v :
  dict_get key m = None ->
  stored key (JDict m) v -> stored_in key (dict_values m) v.
Proof.
  intros Hmiss H. inversion H as [m' v' Hin | m' k x v' Hin Hst | ]; subst.
  - apply In_dict_get in Hin as [x Hx]. congruence.
  - exists x. split; [|done]. unfold dict_values. apply in_map_iff. by exists (k, x).
Qed.

Lemma values_stored_in key m v :
  stored_in key (dict_values m) v -> stored key (JDict m) v.
Proof.
  intros (x & Hin & Hst). unfold dict_values in Hin.
  apply in_map_iff in Hin as ([k x'] & <- & Hin). by eapply stored_in_value.
Qed.

Lemma stored_in_items key l v : stored key (JList l) v <-> stored_in key l v.
Proof.
  split.
  - intros H. inversion H; subst. by eexists.
  - intros (x & Hin & Hst). by eapply stored_in_item.
Qed.

Lemma stored_in_push key stack values v :
  stored_in key (push_containers stack values) v <->
  stored_in key values v \/ stored_in key stack v.
Proof.
  unfold stored_in. split.
  - intros (d & Hin & Hst). apply In_push_containers in Hin as [[Hin _]|Hin]; eauto.
  - intros [(d & Hin & Hst)|(d & Hin & Hst)]; exists d; split; try done;
      apply In_push_containers; [left|right]; try done.
    split; [done|]. by eapply stored_is_container.
Qed.

Lemma stored_in_cons key d docs v :
  stored_in key (d :: docs) v <-> stored key d v \/ stored_in key docs v.
Proof.
  unfold stored_in. split.
  - intros (x & [->|Hin] & Hst); eauto.
  - intros [H|(x & Hin & Hst)]; [exists d|exists x]; simpl; eauto.
Qed.

(** ** A document without the key: both searches are absent *)

Lemma search_each_absent key l :
  (forall x, In x l -> search_context x key = JNull) ->
  search_each l key = JNull.
Proof.
  induction l as [|y l IH]; simpl; [done|]. intros H.
  rewrite (H y) by (by left). apply IH. intros x Hx. apply H. by right.
Qed.

Lemma occurrences_in_zero key l x :
  occurrences_in key l = 0 -> In x l -> occurrences key x = 0.
Proof. intros H Hin. pose proof (occurrences_in_ge key x l Hin). lia. Qed.

Lemma search_context_absent key d :
  occurrences key d = 0 -> search_context d key = JNull.
Proof.
  induction d as [ | | | | l IH | m IH] using json_ind; try done.
  - rewrite occurrences_list, search_context_list. intros H.
    rewrite List.Forall_forall in IH.
    apply search_each_absent. intros x Hx. apply IH; [done|].
    by eapply occurrences_in_zero.
  - intros H. rewrite search_context_dict.
    destruct (dict_get key m) as [v|] eqn:E.
    { apply dict_get_In in E. pose proof (occurrences_entry_ge key key v m E) as Hge.
      rewrite String.eqb_refl in Hge. lia. }
    rewrite occurrences_dict_miss in H by done.
    rewrite List.Forall_forall in IH.
    apply search_each_absent. intros x Hx.
    pose proof (occurrences_in_zero key _ x H Hx) as Hz.
    unfold dict_values in Hx. apply in_map_iff in Hx as ([k x'] & <- & Hin).
    by apply (IH _ Hin).
Qed.

Lemma search_each_absent_zero key l :
  occurrences_in key l = 0 -> search_each l key = JNull.
Proof.
  intros H. apply search_each_absent. intros x Hx.
  apply search_context_absent. by eapply occurrences_in_zero.
Qed.

Lemma hit_occurs key m v :
  dict_get key m = Some v -> 1 + occurrences key v <= occurrences key (JDict m).
Proof.
  intros E. apply dict_get_In in E.
  pose proof (occurrences_entry_ge key key v m E) as Hge.
  by rewrite String.eqb_refl in Hge.
Qed.

Lemma search_loop_absent key stack :
  occurrences_in key stack = 0 -> search_loop stack key = JNull.
Proof.
  funelim (search_loop stack key); simp search_loop; try done.
  all: intros Hocc.
  - match goal with IH : _ -> search_loop _ _ = JNull |- _ => apply IH end.
    rewrite occurrences_in_push. by rewrite occurrences_in_cons in Hocc.
  - match goal with E : dict_get _ _ = Some _ |- _ =>
      pose proof (hit_occurs _ _ _ E) end.
    rewrite occurrences_in_cons in Hocc. lia.
  - match goal with IH : _ -> search_loop _ _ = JNull |- _ => apply IH end.
    rewrite occurrences_in_push. rewrite occurrences_in_cons in Hocc.
    rewrite occurrences_dict_miss in Hocc by done. done.
Qed.

(** ** A document with one occurrence: both searches return its value *)

Lemma search_each_unique key l v :
  (forall x, In x l -> occurrences key x <= 1 ->
             forall v, stored key x v -> search_context x key = v) ->
  occurrences_in key l <= 1 ->
  stored_in key l v ->
  search_each l key = v.
Proof.
  induction l as [|y l IH]; intros Hall Hocc Hst.
  { by destruct Hst as (? & [] & _). }
  rewrite occurrences_in_cons in Hocc. simpl.
  apply stored_in_cons in Hst as [Hy|Hl].
  - pose proof (stored_occurs _ _ _ Hy).
    rewrite (Hall y (or_introl eq_refl) ltac:(lia) v Hy).
    rewrite (search_each_absent_zero key l) by lia. by destruct v.
  - pose proof (stored_in_occurs _ _ _ Hl).
    rewrite (search_context_absent key y) by lia.
    apply IH; [|lia|done]. intros x Hx. apply Hall. by right.
Qed.

(** With at most one occurrence, two entries for [key] in one mapping are
    the same entry. *)
Lemma entry_unique key m v x :
  occurrences key (JDict m) <= 1 -> In (key, v) m -> In (key, x) m -> v = x.
Proof.
  induction m as [|[k y] m IH]; [done|]. rewrite occurrences_dict_cons.
  intros Hocc [Hv|Hv] [Hx|Hx].
  - congruence.
  - injection Hv as -> ->.
    pose proof (occurrences_entry_ge key key x m Hx) as Hge.
    rewrite !String.eqb_refl in *. lia.
  - injection Hx as -> ->.
    pose proof (occurrences_entry_ge key key v m Hv) as Hge.
    rewrite !String.eqb_refl in *. lia.
  - apply IH; [lia|done|done].
Qed.

Lemma hit_unique key m x v :
  dict_get key m = Some x ->
  occurrences key (JDict m) <= 1 ->
  stored key (JDict m) v -> v = x.
Proof.
  intros E Hocc Hst. apply dict_get_In in E.
  pose proof (occurrences_entry_ge key key x m E) as Hhit.
  rewrite String.eqb_refl in Hhit.
  inversion Hst as [m' v' Hin | m' k y v' Hin Hy | ]; subst.
  - by eapply entry_unique.
  - exfalso. pose proof (stored_occurs _ _ _ Hy) as Hy1. clear Hst Hhit.
    induction m as [|[k' y'] m IH]; [done|]. rewrite occurrences_dict_cons in Hocc.
    destruct E as [E|E], Hin as [Hin|Hin].
    + injection E as -> ->. injection Hin as <- <-.
      rewrite String.eqb_refl in Hocc. lia.
    + injection E as -> ->. rewrite String.eqb_refl in Hocc.
      pose proof (occurrences_entry_ge key k y m Hin). lia.
    + injection Hin as -> ->.
      pose proof (occurrences_entry_ge key key x m E) as Hge.
      rewrite String.eqb_refl in Hge. lia.
    + apply IH; [done|lia|done].
Qed.

Lemma search_context_unique key d v :
  occurrences key d <= 1 -> stored key d v -> search_context d key = v.
Proof.
  revert v. induction d as [ | | | | l IH | m IH] using json_ind; intros v Hocc Hst;
    try (by inversion Hst).
  - rewrite search_context_list. rewrite List.Forall_forall in IH.
    apply search_each_unique; [|done|by apply stored_in_items].
    intros x Hx Hox w Hw. by apply IH.
  - rewrite search_context_dict. destruct (dict_get key m) as [x|] eqn:E.
    + symmetry. by eapply hit_unique.
    + rewrite occurrences_dict_miss in Hocc by done.
      rewrite List.Forall_forall in IH.
      apply search_each_unique; [|done|by apply stored_in_values].
      intros y Hy Hoy w Hw. unfold dict_values in Hy.
      apply in_map_iff in Hy as ([k y'] & <- & Hin). by apply (IH _ Hin).
Qed.

Lemma search_loop_unique key stack v :
  occurrences_in key stack <= 1 ->
  stored_in key stack v ->
  search_loop stack key = v.
Proof.
  funelim (search_loop stack key); simp search_loop; intros Hocc Hst.
  - by destruct Hst as (? & [] & _).
  - apply stored_in_cons in Hst as [Hst|Hst]; [inversion Hst|].
    rewrite occurrences_in_cons in Hocc. auto.
  - apply stored_in_cons in Hst as [Hst|Hst]; [inversion Hst|].
    rewrite occurrences_in_cons in Hocc. auto.
  - apply stored_in_cons in Hst as [Hst|Hst]; [inversion Hst|].
    rewrite occurrences_in_cons in Hocc. auto.
  - apply stored_in_cons in Hst as [Hst|Hst]; [inversion Hst|].
    rewrite occurrences_in_cons in Hocc. auto.
  - match goal with IH : forall _, _ -> _ -> search_loop _ _ = _ |- _ => apply IH end.
    + rewrite occurrences_in_push. by rewrite occurrences_in_cons in Hocc.
    + apply stored_in_push. apply stored_in_cons in Hst as [Hst|Hst]; [left|by right].
      by apply stored_in_items.
  - match goal with E : dict_get _ _ = Some _ |- _ => rename E into Ehit end.
    pose proof (hit_occurs _ _ _ Ehit) as Hhit.
    rewrite occurrences_in_cons in Hocc.
    apply stored_in_cons in Hst as [Hst|Hst].
    + symmetry. apply (hit_unique _ _ _ _ Ehit); [lia|done].
    + apply stored_in_occurs in Hst. lia.
  - match goal with IH : forall _, _ -> _ -> search_loop _ _ = _ |- _ => apply IH end.
    + rewrite occurrences_in_push. rewrite occurrences_in_cons in Hocc.
      by rewrite occurrences_dict_miss in Hocc.
    + apply stored_in_push. apply stored_in_cons in Hst as [Hst|Hst]; [left|by right].
      by apply stored_in_values.
Qed.

(** ** A document with the key: both searches return a stored value *)

Lemma search_each_stored key l :
  (forall x, In x l -> 1 <= occurrences key x -> stored key x (search_context x key)) ->
  1 <= occurrences_in key l ->
  stored_in key l (search_each l key).
Proof.
  induction l as [|y l IH]; intros Hall Hocc.
  { unfold occurrences_in in Hocc. simpl in Hocc. lia. }
  rewrite occurrences_in_cons in Hocc. simpl. apply stored_in_cons.
  destruct (decide (occurrences key y = 0)) as [Hy|Hy].
  - rewrite (search_context_absent key y Hy). right.
    apply IH; [|lia]. intros x Hx. apply Hall. by right.
  - pose proof (Hall y (or_introl eq_refl) ltac:(lia)) as Hsty.
    destruct (search_context y key) eqn:E; try (by left).
    destruct (decide (occurrences_in key l = 0)) as [Hl|Hl].
    + rewrite (search_each_absent_zero key l Hl). by left.
    + right. apply IH; [|lia]. intros x Hx. apply Hall. by right.
Qed.

Lemma search_context_stored key d :
  1 <= occurrences key d -> stored key d (search_context d key).
Proof.
  induction d as [ | | | | l IH | m IH] using json_ind; try (simpl; lia).
  - rewrite occurrences_list, search_context_list. intros H.
    rewrite List.Forall_forall in IH.
    apply stored_in_items. by apply search_each_stored.
  - intros H. rewrite search_context_dict. destruct (dict_get key m) as [x|] eqn:E.
    + apply stored_here. by apply dict_get_In.
    + rewrite occurrences_dict_miss in H by done.
      rewrite List.Forall_forall in IH.
      apply values_stored_in. apply search_each_stored; [|done].
      intros y Hy. unfold dict_values in Hy.
      apply in_map_iff in Hy as ([k y'] & <- & Hin). by apply (IH _ Hin).
Qed.

Lemma search_loop_stored key stack :
  1 <= occurrences_in key stack -> stored_in key stack (search_loop stack key).
Proof.
  funelim (search_loop stack key); simp search_loop; intros Hocc.
  all: try (rewrite occurrences_in_cons in Hocc; simpl in Hocc;
            apply stored_in_cons; right; auto; fail).
  - unfold occurrences_in in Hocc. simpl in Hocc. lia.
  - apply stored_in_cons. rewrite stored_in_items, <- stored_in_push.
    match goal with IH : _ -> stored_in _ _ _ |- _ => apply IH end.
    by rewrite occurrences_in_push, <- occurrences_list, <- occurrences_in_cons.
  - apply stored_in_cons. left. apply stored_here. by apply dict_get_In.
  - apply stored_in_cons.
    match goal with IH : _ -> stored_in _ _ _ |- _ => rename IH into IHloop end.
    rewrite occurrences_in_push in IHloop.
    rewrite occurrences_in_cons in Hocc. rewrite occurrences_dict_miss in Hocc by done.
    specialize (IHloop Hocc). apply stored_in_push in IHloop as [Hv|Hs]; [left|by right].
    by apply values_stored_in.
Qed.

(** ** Splitting a path *)

Lemma split_dot_cons s : exists seg rest, split_dot s = seg :: rest.
Proof.
  destruct s as [|c s]; simpl; [by eauto|].
  destruct (Ascii.eqb c "."); [by eauto|]. destruct (split_dot s); by eauto.
Qed.

Lemma join_dot_cons a b rest :
  join_dot (a :: b :: rest) = String.append a (String "."%char (join_dot (b :: rest))).
Proof. reflexivity. Qed.

Lemma join_split_dot s : join_dot (split_dot s) = s.
Proof.
  induction s as [|c s IH]; [done|]. simpl.
  destruct (split_dot_cons s) as (seg & rest & E). rewrite E in *.
  destruct (Ascii.eqb c ".") eqn:Ec.
  - apply Ascii.eqb_eq in Ec. subst c. rewrite join_dot_cons, IH. done.
  - destruct rest as [|b rest].
    + simpl in *. by rewrite IH.
    + rewrite join_dot_cons in *.
      change (String c (String.append seg (String "."%char (join_dot (b :: rest)))) = String c s).
      by rewrite IH.
Qed.

Lemma split_dot_segments s : Forall (fun seg => has_dot seg = false) (split_dot s).
Proof.
  induction s as [|c s IH]; simpl; [by repeat constructor|].
  destruct (Ascii.eqb c ".") eqn:Ec; [by constructor|].
  destruct (split_dot s) as [|seg rest].
  - repeat constructor. simpl. by rewrite Ec.
  - inversion IH; subst. constructor; [|done]. simpl. by rewrite Ec.
Qed.

(** ** The path walk *)

Lemma walk_keys_follows d ks : follows d ks (walk_keys d ks).
Proof.
  revert d. induction ks as [|k ks IH]; intros d; simpl; [constructor|].
  destruct d; try (by apply follows_not_mapping).
  destruct (dict_get k entries) eqn:E.
  - eapply follows_segment; [done|apply IH].
  - by apply follows_missing.
Qed.

Lemma follows_functional d ks r : follows d ks r -> r = walk_keys d ks.
Proof.
  induction 1 as [d | m k ks v r E _ IH | m k ks E | d k ks Hd]; simpl.
  - done.
  - by rewrite E.
  - by rewrite E.
  - by destruct d.
Qed.

Lemma reaches_follows d ks v : reaches d ks v -> follows d ks v.
Proof. induction 1; [constructor|by eapply follows_segment]. Qed.

(** ** Claims on context search *)

(** C6.  [search_context_path] splits the path on dots and walks downward
    through mappings only: its result is what following every segment through
    successive mappings gives, and it is the absent value [JNull] as soon as a
    segment is missing from the current mapping or the current value is not a
    mapping (a sequence is never indexed, nothing is searched).  The segments
    are the dot-free pieces of the path. *)
Theorem search_context_path_walks (d : json) (p : string) :
  follows d (split_dot p) (search_context_path d p)
  /\ (forall r, follows d (split_dot p) r -> r = search_context_path d p)
  /\ (forall v, reaches d (split_dot p) v -> search_context_path d p = v)
  /\ (is_dict d = false -> search_context_path d p = JNull)
  /\ join_dot (split_dot p) = p
  /\ Forall (fun seg => has_dot seg = false) (split_dot p).
Proof.
  unfold search_context_path. repeat split.
  - apply walk_keys_follows.
  - apply follows_functional.
  - intros v Hv. symmetry. by apply follows_functional, reaches_follows.
  - intros Hd. destruct (split_dot_cons p) as (seg & rest & ->). by destruct d.
  - apply join_split_dot.
  - apply split_dot_segments.
Qed.

Lemma search_context_path_walks_witness :
  search_context_path (JDict [("a", JDict [("b", JDict [("c", JNum 1)])])]) "a.b.c" = JNum 1
  /\ search_context_path (JList [JDict [("a", JNum 1)]]) "0.a" = JNull.
Proof.
  split.
  - apply (proj1 (proj2 (proj2 (search_context_path_walks _ "a.b.c")))).
    repeat (eapply reaches_segment; [reflexivity|]). apply reaches_end.
  - apply (proj1 (proj2 (proj2 (proj2 (search_context_path_walks _ "0.a"))))).
    reflexivity.
Defined.

(** C7.  On every document in which the searched key occurs at most once,
    [search_context_iterative] and [search_context] return the same result:
    the key's value if it is present, the absent value otherwise.  The two
    can differ only when the key occurs at two places or more. *)
Theorem search_context_iterative_equiv (d : json) (key : string) :
  (occurrences key d <= 1 ->
     search_context_iterative d key = search_context d key
     /\ (forall v, stored key d v -> search_context d key = v)
     /\ (occurrences key d = 0 -> search_context d key = JNull))
  /\ (search_context_iterative d key <> search_context d key ->
      2 <= occurrences key d).
Proof.
  assert (Hagree : occurrences key d <= 1 ->
                   search_context_iterative d key = search_context d key).
  { intros Hocc. unfold search_context_iterative.
    destruct (decide (occurrences key d = 0)) as [Hz|Hnz].
    - rewrite search_loop_absent, search_context_absent; [done|done|].
      unfold occurrences_in. simpl. lia.
    - destruct (occurs_stored key d ltac:(lia)) as [v Hv].
      rewrite (search_context_unique key d v Hocc Hv).
      apply search_loop_unique.
      + unfold occurrences_in. simpl. lia.
      + exists d. split; [by left|done]. }
  split.
  - intros Hocc. split; [by apply Hagree|]. split.
    + intros v Hv. by apply search_context_unique.
    + apply search_context_absent.
  - intros Hne. destruct (decide (occurrences key d <= 1)) as [Hocc|Hocc]; [|lia].
    by destruct Hne; apply Hagree.
Qed.

Lemma search_context_iterative_equiv_witness :
  search_context_iterative (JDict [("x", JList [JDict [("k", JNull)]]); ("y", JNum 2)]) "k"
  = search_context (JDict [("x", JList [JDict [("k", JNull)]]); ("y", JNum 2)]) "k".
Proof.
  apply (proj1 (search_context_iterative_equiv _ "k")). vm_compute. lia.
Defined.

(** C10 as stated fails: a stored JSON null is returned as [JNull], the very
    value the three lookups return for a document without the key. *)
Lemma sentinel_is_stored_null :
  let d := JDict [("k", JNull)] in
  let empty := JDict [] in
  stored "k" d JNull /\ reaches d (split_dot "k") JNull
  /\ search_context d "k" = search_context empty "k"
  /\ search_context_iterative d "k" = search_context_iterative empty "k"
  /\ search_context_path d "k" = search_context_path empty "k".
Proof.
  repeat split.
  - apply stored_here. by left.
  - eapply reaches_segment; [reflexivity|apply reaches_end].
Qed.

(** C10, amended.  For every document that contains the searched key, each
    of [search_context] and [search_context_iterative] returns a value stored
    under that key; for every document that contains the full dot path,
    [search_context_path] returns the value at the end of the path.  The
    absent value is [JNull], which is also how a stored JSON null is
    returned: the result differs from the absent value when no value stored
    under the key is null. *)
Theorem lookup_returns_stored_value (d : json) (key p : string) :
  (1 <= occurrences key d ->
     stored key d (search_context d key)
     /\ stored key d (search_context_iterative d key))
  /\ (forall v, reaches d (split_dot p) v -> search_context_path d p = v)
  /\ (1 <= occurrences key d -> (forall v, stored key d v -> v <> JNull) ->
      search_context d key <> JNull /\ search_context_iterative d key <> JNull)
  /\ (occurrences key d = 0 ->
      search_context d key = JNull /\ search_context_iterative d key = JNull).
Proof.
  assert (Hst : 1 <= occurrences key d ->
                stored key d (search_context d key)
                /\ stored key d (search_context_iterative d key)).
  { intros Hocc. split; [by apply search_context_stored|].
    unfold search_context_iterative.
    destruct (search_loop_stored key [d]) as (x & [<-|[]] & Hx); [|done].
    unfold occurrences_in. simpl. lia. }
  split; [done|]. split.
  { intros v Hv. symmetry. by apply follows_functional, reaches_follows. }
  split.
  - intros Hocc Hnn. destruct (Hst Hocc). split; by apply Hnn.
  - intros Hz. split; [by apply search_context_absent|].
    apply search_loop_absent. unfold occurrences_in. simpl. lia.
Qed.

Lemma lookup_returns_stored_value_witness :
  let d := JDict [("a", JDict [("k", JNum 7)])] in
  stored "k" d (search_context d "k")
  /\ stored "k" d (search_context_iterative d "k")
  /\ search_context_path d "a.k" = JNum 7.
Proof.
  intros d. pose proof (lookup_returns_stored_value d "k" "a.k") as (H1 & H2 & _).
  destruct H1 as [Ha Hb]; [vm_compute; lia|]. split; [exact Ha|]. split; [exact Hb|].
  apply H2. repeat (eapply reaches_segment; [reflexivity|]). apply reaches_end.
Defined.

(** ** Claims on the context protocol *)

(** C1 as stated fails: with an interactive standard input [load_context]
    returns [None], which is not the empty mapping. *)
Lemma load_context_tty_is_not_empty_mapping :
  result (load_context bare_world) = Ret JNull
  /\ result (load_context bare_world) <> Ret (JDict []).
Proof. split; [reflexivity|discriminate]. Qed.

(** C1, amended.  For every well-formed JSON document piped on standard
    input, [load_context] returns the value it denotes; when standard input
    is interactive, or is not well-formed JSON, or cannot be read,
    [load_context] returns [None], and it is the shim's
    [_ensure_context_loaded] that turns this [None] into the empty mapping.
    [load_context] never raises and writes nothing. *)
Theorem load_context_result (w : world) :
  (forall v, stdin w = StdinPiped (Loaded v) -> load_context w = ([], Ret v))
  /\ (stdin w = StdinTty \/ stdin w = StdinPiped LoadDecodeError
      \/ stdin w = StdinPiped LoadOtherError \/ stdin w = StdinUnusable ->
      load_context w = ([], Ret JNull)
      /\ _ensure_context_loaded w = ([], Ret (JDict [])))
  /\ (exists v, load_context w = ([], Ret v)).
Proof.
  unfold _ensure_context_loaded, load_context, stdin_isatty, json_load_stdin.
  split; [|split].
  - by intros v ->.
  - by intros [-> | [-> | [-> | ->]]].
  - destruct (stdin w) as [ | [v| | ] | ]; by eexists.
Qed.

Lemma load_context_result_witness :
  load_context (with_stdin (StdinPiped (Loaded (JDict [("urls", JList [])]))) bare_world)
  = ([], Ret (JDict [("urls", JList [])]))
  /\ load_context (with_stdin (StdinPiped LoadDecodeError) bare_world) = ([], Ret JNull)
     /\ _ensure_context_loaded (with_stdin (StdinPiped LoadDecodeError) bare_world)
        = ([], Ret (JDict [])).
Proof.
  split.
  - apply (proj1 (load_context_result _)). reflexivity.
  - apply (proj1 (proj2 (load_context_result _))). right. left. reflexivity.
Defined.

(** ** Claims on the integration config resolver *)

Lemma read_candidate_unusable w path :
  candidate_usable (files w path) = false ->
  try_except (read_candidate w path) (except_Exception (mret None)) = ([], Ret None).
Proof.
  unfold read_candidate. destruct (files w path) as [ | | | config]; try done.
  destruct config; try done. simpl. intros ->. done.
Qed.

Lemma secauto_config_from_unusable w paths :
  (forall path, In path paths -> candidate_usable (files w path) = false) ->
  secauto_config_from w paths = ([], Ret (JStr "http://localhost:8080", JNull)).
Proof.
  induction paths as [|path paths IH]; intros H; simpl; [done|].
  rewrite read_candidate_unusable by (apply H; by left).
  simpl. rewrite IH; [done|]. intros q Hq. apply H. by right.
Qed.

(** The coordinates lookup is silent and never raises; a credential it
    returns from a file is non-empty. *)
Lemma secauto_config_from_total w paths :
  exists url key, secauto_config_from w paths = ([], Ret (url, key)).
Proof.
  induction paths as [|path paths (url & key & IH)]; simpl; [by eauto|].
  unfold read_candidate. destruct (files w path) as [ | | | config]; simpl;
    try (rewrite IH; by eauto).
  destruct config; simpl; try (rewrite IH; by eauto).
  match goal with |- context [if ?c then _ else _] => destruct c end; simpl;
    [by eauto | rewrite IH; by eauto].
Qed.

(** C5.  If no candidate file yields a credential (each is missing,
    unreadable, unparseable, or lacks a non-empty address or credential),
    [get_secauto_config] falls back to the default address with no
    credential, and [get_integration_config] returns the absent result for
    every name with an empty trace: the HTTP request is never issued. *)
Theorem no_credential_no_request (w : world) (name : string) :
  (forall path, In path config_paths -> candidate_usable (files w path) = false) ->
  get_secauto_config w = ([], Ret (JStr "http://localhost:8080", JNull))
  /\ get_integration_config w name = ([], Ret JNull)
  /\ filter (fun ev => is_HttpGet ev = true) (trace (get_integration_config w name)) = [].
Proof.
  intros H. unfold get_integration_config, get_secauto_config.
  rewrite (secauto_config_from_unusable w config_paths H). done.
Qed.

Lemma no_credential_no_request_witness :
  get_integration_config bare_world "virustotal" = ([], Ret JNull).
Proof.
  apply (no_credential_no_request bare_world "virustotal").
  intros path _. reflexivity.
Defined.

(** With coordinates on disk the request is issued: the branch guarded by the
    credential is reachable. *)
Example credential_then_request :
  get_integration_config
    (served_world (Response 200 (Some (JDict [("success", JBool true);
                                             ("integration", JDict [("apikey", JStr "K")])]))))
    "virustotal"
  = ([HttpGet (JStr "http://localhost:8080") "virustotal" (JStr "K")],
     Ret (JDict [("apikey", JStr "K")])).
Proof. reflexivity. Qed.

(** The failure modes that do degrade to the absent result: a network
    failure, a status other than 200, a body that is not JSON, and a body
    that is a mapping without a true success flag or without a non-empty
    payload. *)
Lemma get_integration_config_degrades w name url key :
  get_secauto_config w = ([], Ret (url, key)) ->
  truthy key = true ->
  match http_get w url name key with
  | NetworkFailure => True
  | Response status_code body =>
      status_code <> 200%Z \/ body = None
      \/ exists m, body = Some (JDict m)
                   /\ (truthy (match dict_get "success" m with Some v => v | None => JNull end)
                       && truthy (match dict_get "integration" m with Some v => v | None => JNull end)
                       = false)
  end ->
  get_integration_config w name = ([HttpGet url name key], Ret JNull).
Proof.
  intros Hcfg Hkey Hresp. unfold get_integration_config, requests_get.
  rewrite Hcfg. simpl. rewrite Hkey. simpl.
  destruct (http_get w url name key) as [|status_code body]; [done|]. simpl.
  destruct (Z.eqb_spec status_code 200) as [->|Hne]; [|done].
  destruct Hresp as [Hs | [-> | (m & -> & Hm)]]; [done|done|]. simpl.
  destruct (truthy (match dict_get "success" m with Some v => v | None => JNull end));
    [|done].
  simpl in *. by rewrite Hm.
Qed.

(** C4, at the input on which the code departs from it: the endpoint answers
    200 with a JSON body that is not a mapping (here an empty array).
    [data.get] raises AttributeError, which is no RequestException, so it
    leaves [get_integration_config] instead of the absent result. *)
Theorem get_integration_config_lets_exception_out :
  get_integration_config (served_world (Response 200 (Some (JList [])))) "virustotal"
  = ([HttpGet (JStr "http://localhost:8080") "virustotal" (JStr "K")], Raise AttributeError).
Proof. reflexivity. Qed.

(** ** Claims on the URL scanner automation *)

(** The config fetch emits at most its one HTTP request, and nothing else. *)
Lemma get_integration_config_trace w name :
  trace (get_integration_config w name) = []
  \/ exists url key, trace (get_integration_config w name) = [HttpGet url name key].
Proof.
  unfold get_integration_config, get_secauto_config.
  destruct (secauto_config_from_total w config_paths) as (url & key & ->). simpl.
  destruct (truthy key); simpl; [right|by left]. exists url, key.
  unfold requests_get. simpl.
  destruct (http_get w url name key) as [|status_code body]; simpl; [done|].
  destruct (status_code =? 200)%Z; [|done].
  destruct body as [data|]; simpl; [|done].
  destruct data as [ | | | | |m]; simpl; try done.
  destruct (truthy _); simpl; [|done].
  destruct (truthy _); simpl; [|done].
  by destruct (dict_get "integration" m).
Qed.

Lemma VirusTotalIntegration_trace w :
  trace (VirusTotalIntegration w) = trace (get_integration_config w "virustotal")
  /\ exists vt, result (VirusTotalIntegration w) = Ret vt.
Proof.
  unfold VirusTotalIntegration, _load_config.
  destruct (get_integration_config w "virustotal") as [t [config|e]]; simpl.
  - rewrite app_nil_r. by eauto.
  - rewrite app_nil_r. by eauto.
Qed.

Lemma main_empty_urls w :
  main w empty_urls_context
  = (Stdout no_urls_envelope
       :: Stdout (no_valid_envelope w [] 0)
       :: trace (get_integration_config w "virustotal")
       ++ [Stdout (final_envelope w 0 [] [] scan_start)],
     Ret tt).
Proof.
  unfold main, empty_urls_context. simpl.
  destruct (VirusTotalIntegration_trace w) as [Ht [vt Hvt]].
  destruct (VirusTotalIntegration w) as [t r]. simpl in *. subst. done.
Qed.

(** The first envelope has the shape the automation promises for an empty
    URL list. *)
Example no_urls_envelope_shape :
  search_context_path no_urls_envelope "virustotal.success" = JBool false
  /\ search_context_path no_urls_envelope "virustotal.summary.total_urls" = JNum 0
  /\ search_context_path no_urls_envelope "virustotal.error" = JStr no_urls_error
  /\ no_urls_error <> "".
Proof. repeat split; try reflexivity. discriminate. Qed.

(** C2, at the input of the claim.  With context [{"urls": []}] the first
    envelope is emitted, but [main] does not return: it emits the envelope of
    the no-valid-URL block, constructs the integration, which calls
    [get_integration_config("virustotal")], and emits a third envelope.  With
    coordinates on disk the fetch is an HTTP request. *)
Theorem main_empty_urls_fetches_config :
  (forall w,
     trace (main w empty_urls_context)
     = Stdout no_urls_envelope
         :: Stdout (no_valid_envelope w [] 0)
         :: trace (get_integration_config w "virustotal")
         ++ [Stdout (final_envelope w 0 [] [] scan_start)])
  /\ (let w := served_world
                 (Response 200 (Some (JDict [("success", JBool true);
                                             ("integration", JDict [("apikey", JStr "K")])]))) in
      trace (main w empty_urls_context)
      = [Stdout no_urls_envelope;
         Stdout (no_valid_envelope w [] 0);
         HttpGet (JStr "http://localhost:8080") "virustotal" (JStr "K");
         Stdout (final_envelope w 0 [] [] scan_start)]).
Proof.
  split.
  - intros w. by rewrite main_empty_urls.
  - reflexivity.
Qed.

Lemma stdout_free_config_fetch w name :
  filter (fun ev => is_Stdout ev = true) (trace (get_integration_config w name)) = [].
Proof.
  destruct (get_integration_config_trace w name) as [-> | (url & key & ->)]; done.
Qed.

(** C3, at the input on which the code departs from it.  With context
    [{"urls": []}] one run of [main] calls [return_context] three times:
    three documents are written to standard output, whatever the world. *)
Theorem main_empty_urls_writes_three_documents (w : world) :
  length (filter (fun ev => is_Stdout ev = true) (trace (main w empty_urls_context))) = 3.
Proof.
  rewrite main_empty_urls. unfold trace at 1. cbn [fst].
  rewrite !filter_cons_True by done.
  rewrite filter_app, stdout_free_config_fetch.
  by rewrite app_nil_l, filter_cons_True.
Qed.

(** An unresolved template as only URL: two documents. *)
Example main_unresolved_template_writes_two_documents :
  length (filter (fun ev => is_Stdout ev = true)
            (trace (main bare_world (JDict [("urls", JList [JStr "{{incident.url}}"])])))) = 2.
Proof. reflexivity. Qed.

(** One plain URL: one document. *)
Example main_one_url_writes_one_document :
  length (filter (fun ev => is_Stdout ev = true)
            (trace (main bare_world (JDict [("urls", JList [JStr "https://example.com"])])))) = 1.
Proof. reflexivity. Qed.

(** ** The rebinding assignments *)

Lemma rebound_cons m name names b :
  rebound m (name :: names) b
  = rebound m names (match module_attrs m !! name with
                     | Some o => <[name := o]> b
                     | None => b
                     end).
Proof. reflexivity. Qed.

(** A name assigned from the module holds the module's attribute; any other
    name keeps its binding. *)
Lemma rebound_lookup m names (b : gmap string pyobj) name :
  rebound m names b !! name
  = if decide (name ∈ names)
    then match module_attrs m !! name with Some o => Some o | None => b !! name end
    else b !! name.
Proof.
  revert b. induction names as [|n names IH]; intros b; [done|].
  rewrite rebound_cons, IH. clear IH.
  destruct (decide (n = name)) as [->|Hne].
  - rewrite (decide_True (P := name ∈ name :: names)) by (by left).
    destruct (module_attrs m !! name) as [o|] eqn:E.
    + rewrite lookup_insert_eq. by destruct (decide (name ∈ names)).
    + by destruct (decide (name ∈ names)).
  - assert (Hb : (match module_attrs m !! n with
                  | Some o => <[n := o]> b
                  | None => b
                  end) !! name = b !! name).
    { destruct (module_attrs m !! n); [by rewrite lookup_insert_ne|done]. }
    rewrite Hb. destruct (decide (name ∈ names)) as [Hin|Hin].
    + by rewrite decide_True by (by right).
    + rewrite decide_False; [done|]. intros Hc. apply elem_of_cons in Hc as [?|?]; by subst.
Qed.

Lemma rebound_keeps m names (b : gmap string pyobj) name :
  is_Some (b !! name) -> is_Some (rebound m names b !! name).
Proof.
  intros Hb. rewrite rebound_lookup.
  destruct (decide (name ∈ names)); [|done].
  by destruct (module_attrs m !! name).
Qed.

(** The assignments stop at the first name the module lacks: the names before
    it are bound, the state is otherwise as it was. *)
Lemma bind_attrs_spec m names s :
  exists bound rest,
    names = bound ++ rest
    /\ exports m bound
    /\ fst (bind_attrs m names s)
       = {| builtins := rebound m bound (builtins s);
            sys_modules := sys_modules s;
            last_modified_time := last_modified_time s |}
    /\ ((rest = [] /\ snd (bind_attrs m names s) = Ret tt)
        \/ (exists missing rest', rest = missing :: rest'
                                  /\ module_attrs m !! missing = None
                                  /\ snd (bind_attrs m names s) = Raise AttributeError)).
Proof.
  revert s. induction names as [|n names IH]; intros s.
  { exists [], []. repeat split; [constructor|by destruct s|by left]. }
  simpl. unfold seq_SM, bind_attr.
  destruct (module_attrs m !! n) as [o|] eqn:E.
  - destruct (IH (set_builtin n o s)) as (bound & rest & -> & Hex & Hst & Hres).
    exists (n :: bound), rest. repeat split.
    + constructor; [by rewrite E|done].
    + rewrite Hst, rebound_cons, E. done.
    + done.
  - exists [], (n :: names). repeat split; [constructor|by destruct s|].
    right. by exists n, names.
Qed.

Lemma bind_attrs_exports m names s :
  exports m names ->
  bind_attrs m names s
  = ({| builtins := rebound m names (builtins s);
        sys_modules := sys_modules s;
        last_modified_time := last_modified_time s |}, Ret tt).
Proof.
  revert s. induction names as [|n names IH]; intros s Hex; [by destruct s|].
  inversion Hex as [|? ? [o Ho] Hex']; subst.
  rewrite rebound_cons, Ho.
  cbn [bind_attrs]. unfold seq_SM, bind_attr. rewrite Ho, IH by done. done.
Qed.

Lemma reload_soar_api_import_fails d s e :
  soar_api_import d = ImportRaises e ->
  reload_soar_api d s = (set_sys_modules None s, Ret false).
Proof.
  intros H. unfold reload_soar_api, reload_body, import_SoarBaseAPI. simpl. by rewrite H.
Qed.

Lemma reload_soar_api_imported d s m :
  soar_api_import d = Imported m ->
  exists bound rest,
    reload_names = bound ++ rest
    /\ exports m bound
    /\ fst (reload_soar_api d s)
       = {| builtins := rebound m bound (<["SoarBaseAPI" := module_object m]> (builtins s));
            sys_modules := Some m;
            last_modified_time := last_modified_time s |}
    /\ ((rest = [] /\ snd (reload_soar_api d s) = Ret true)
        \/ (exists missing rest', rest = missing :: rest'
                                  /\ module_attrs m !! missing = None
                                  /\ snd (reload_soar_api d s) = Ret false)).
Proof.
  intros H. unfold reload_soar_api, reload_body, import_SoarBaseAPI.
  cbn [set_sys_modules sys_modules]. rewrite H.
  match goal with |- context [bind_attrs m reload_names ?s0] =>
    destruct (bind_attrs_spec m reload_names s0) as (bound & rest & Hn & Hex & Hst & Hres);
    destruct (bind_attrs m reload_names s0) as [s' r] end.
  simpl in *. exists bound, rest. repeat split; try done.
  - by destruct r.
  - destruct Hres as [[-> ->] | (missing & rest' & -> & Hm & ->)]; [by left|right].
    by exists missing, rest'.
Qed.

Lemma SoarBaseAPI_not_reload_name : "SoarBaseAPI" ∉ reload_names.
Proof. intros H. apply (bool_decide_pack _) in H. vm_compute in H. done. Qed.

Lemma reload_soar_api_exports d s m :
  soar_api_import d = Imported m ->
  exports m reload_names ->
  reload_soar_api d s
  = ({| builtins := rebound m reload_names (<["SoarBaseAPI" := module_object m]> (builtins s));
        sys_modules := Some m;
        last_modified_time := last_modified_time s |}, Ret true).
Proof.
  intros H Hex. unfold reload_soar_api, reload_body, import_SoarBaseAPI.
  cbn [set_sys_modules sys_modules]. rewrite H.
  by rewrite bind_attrs_exports.
Qed.

Lemma reload_soar_api_keeps_time d s :
  last_modified_time (fst (reload_soar_api d s)) = last_modified_time s.
Proof.
  destruct (soar_api_import d) as [m|e] eqn:E.
  - destruct (reload_soar_api_imported d s m E) as (? & ? & _ & _ & -> & _). done.
  - by rewrite (reload_soar_api_import_fails d s e E).
Qed.

Lemma reload_soar_api_returns d s : exists b, snd (reload_soar_api d s) = Ret b.
Proof.
  unfold reload_soar_api. destruct (reload_body d s) as [s' [[]|e]]; by eauto.
Qed.

(** ** Claims on the capability shim *)

Lemma check_and_reload_absent d s :
  soar_api_mtime d = None -> check_and_reload d s = (s, Ret tt).
Proof. intros Hc. unfold check_and_reload. by rewrite Hc. Qed.

Lemma check_and_reload_first d s current :
  soar_api_mtime d = Some current -> last_modified_time s = None ->
  check_and_reload d s = (set_last_modified_time current s, Ret tt).
Proof. intros Hc Hr. unfold check_and_reload. by rewrite Hc, Hr. Qed.

Lemma check_and_reload_not_newer d s current recorded :
  soar_api_mtime d = Some current -> last_modified_time s = Some recorded ->
  (current <= recorded)%Z ->
  check_and_reload d s = (s, Ret tt).
Proof.
  intros Hc Hr Hle. unfold check_and_reload. rewrite Hc, Hr.
  apply Z.ltb_ge in Hle. by rewrite Hle.
Qed.

Lemma check_and_reload_newer d s current recorded :
  soar_api_mtime d = Some current -> last_modified_time s = Some recorded ->
  (recorded < current)%Z ->
  check_and_reload d s
  = (fst (reload_soar_api d (set_last_modified_time current s)), Ret tt).
Proof.
  intros Hc Hr Hlt. unfold check_and_reload. rewrite Hc, Hr.
  apply Z.ltb_lt in Hlt. rewrite Hlt.
  destruct (reload_soar_api_returns d (set_last_modified_time current s)) as [b Hb].
  destruct (reload_soar_api d (set_last_modified_time current s)) as [s' r].
  simpl in *. by subst.
Qed.

(** The sample activation binds the first module and records no time. *)
Lemma activated_unrecorded : last_modified_time activated = None.
Proof. vm_compute. reflexivity. Qed.

Lemma activated_search_context :
  builtins activated !! "search_context" = Some (ObjOpaque 1006).
Proof. vm_compute. reflexivity. Qed.

(** C8 as stated fails: the shim is activated when the file has modification
    time 100; the file then changes (time 200, a new module).  The next
    [check_and_reload] only records the time and rebinds nothing, and the call
    after it sees no change: the capability functions stay those of the first
    module. *)
Lemma first_check_does_not_reload :
  let changed := disk_at 200 (full_module 2) in
  let once := fst (check_and_reload changed activated) in
  let twice := fst (check_and_reload changed once) in
  builtins activated !! "search_context" = Some (ObjOpaque 1006)
  /\ module_attrs (full_module 2) !! "search_context" = Some (ObjOpaque 2006)
  /\ last_modified_time activated = None
  /\ once = set_last_modified_time 200 activated
  /\ twice = once
  /\ builtins twice !! "search_context" = Some (ObjOpaque 1006).
Proof.
  intros changed once twice.
  assert (Honce : once = set_last_modified_time 200 activated).
  { subst once. by rewrite (check_and_reload_first changed activated 200 eq_refl
                              activated_unrecorded). }
  assert (Htwice : twice = once).
  { subst twice. rewrite Honce.
    rewrite (check_and_reload_not_newer changed (set_last_modified_time 200 activated)
               200 200 eq_refl eq_refl); [done|lia]. }
  split; [exact activated_search_context|].
  split; [vm_compute; reflexivity|].
  split; [exact activated_unrecorded|].
  split; [done|]. split; [done|].
  rewrite Htwice, Honce. exact activated_search_context.
Qed.

(** C8, amended.  [check_and_reload] compares the file's modification time
    with the time recorded by the previous call of [check_and_reload] (the
    initial binding records none).  The first call on an existing file only
    records the time.  A later call that finds a strictly greater time
    records it and runs [reload_soar_api], which rebinds [SoarBaseAPI] and
    every name of [reload_names] when the re-import succeeds and the module
    has them all.  When the file is absent or its time is not greater, the
    call changes nothing; a second call on the same file always changes
    nothing. *)
Theorem check_and_reload_semantics (d : disk) (s : shim_state) :
  (soar_api_mtime d = None -> check_and_reload d s = (s, Ret tt))
  /\ (forall current, soar_api_mtime d = Some current -> last_modified_time s = None ->
        check_and_reload d s = (set_last_modified_time current s, Ret tt))
  /\ (forall current recorded,
        soar_api_mtime d = Some current -> last_modified_time s = Some recorded ->
        (current <= recorded)%Z ->
        check_and_reload d s = (s, Ret tt))
  /\ (forall current recorded,
        soar_api_mtime d = Some current -> last_modified_time s = Some recorded ->
        (recorded < current)%Z ->
        check_and_reload d s
        = (fst (reload_soar_api d (set_last_modified_time current s)), Ret tt))
  /\ (forall current recorded m,
        soar_api_mtime d = Some current -> last_modified_time s = Some recorded ->
        (recorded < current)%Z ->
        soar_api_import d = Imported m -> exports m reload_names ->
        let s' := fst (check_and_reload d s) in
        last_modified_time s' = Some current
        /\ builtins s' !! "SoarBaseAPI" = Some (module_object m)
        /\ forall name, name ∈ reload_names -> builtins s' !! name = module_attrs m !! name)
  /\ check_and_reload d (fst (check_and_reload d s)) = (fst (check_and_reload d s), Ret tt).
Proof.
  pose proof (check_and_reload_newer d s) as Hnewer.
  split; [|split; [|split; [|split; [|split]]]].
  - apply check_and_reload_absent.
  - apply check_and_reload_first.
  - apply check_and_reload_not_newer.
  - exact Hnewer.
  - intros current recorded m Hc Hr Hlt Him Hex s'. subst s'.
    rewrite (Hnewer _ _ Hc Hr Hlt), (reload_soar_api_exports _ _ _ Him Hex).
    cbn [fst builtins last_modified_time set_last_modified_time].
    split; [done|]. split.
    + rewrite rebound_lookup. rewrite decide_False; [by rewrite lookup_insert_eq|].
      exact SoarBaseAPI_not_reload_name.
    + intros name Hin. rewrite rebound_lookup, decide_True by done.
      unfold exports in Hex. rewrite Forall_forall in Hex.
      by destruct (Hex name Hin) as [o ->].
  - destruct (soar_api_mtime d) as [current|] eqn:Hc;
      [|by unfold check_and_reload; rewrite Hc].
    destruct (last_modified_time s) as [recorded|] eqn:Hr.
    + destruct (Z.ltb_spec recorded current) as [Hlt|Hge].
      * rewrite (check_and_reload_newer d s _ _ Hc Hr Hlt). cbn [fst].
        unfold check_and_reload at 1. rewrite Hc, reload_soar_api_keeps_time. simpl.
        by rewrite Z.ltb_irrefl.
      * rewrite (check_and_reload_not_newer d s current recorded Hc Hr Hge). cbn [fst].
        apply (check_and_reload_not_newer d s current recorded Hc Hr Hge).
    + rewrite (check_and_reload_first d s current Hc Hr). simpl.
      apply (check_and_reload_not_newer d _ current current); [done|done|lia].
Qed.

Lemma check_and_reload_semantics_witness :
  let d := disk_at 200 (full_module 2) in
  let s := set_last_modified_time 100 activated in
  check_and_reload d s = (fst (reload_soar_api d (set_last_modified_time 200 s)), Ret tt)
  /\ check_and_reload d (fst (check_and_reload d s)) = (fst (check_and_reload d s), Ret tt).
Proof.
  intros d s.
  pose proof (check_and_reload_semantics d s) as (_ & _ & _ & Hnewer & _ & Hagain).
  split; [|exact Hagain].
  apply (Hnewer 200%Z 100%Z); [reflexivity|reflexivity|lia].
Defined.

(** C9 as stated fails: the file now holds a module without [get_cache] (the
    functions SoarBaseAPI.py defines).  [reload_soar_api] fails, returning
    [False], after it has rebound [search_context] and the other names
    assigned before [get_cache]: the namespace is not as it was. *)
Lemma failed_reload_rebinds :
  let d := disk_at 200 (soar_api_module 2) in
  let s' := fst (reload_soar_api d activated) in
  snd (reload_soar_api d activated) = Ret false
  /\ builtins activated !! "search_context" = Some (ObjOpaque 1006)
  /\ builtins s' !! "search_context" = Some (ObjOpaque 2006)
  /\ builtins s' <> builtins activated.
Proof.
  intros d s'.
  assert (Hnew : builtins s' !! "search_context" = Some (ObjOpaque 2006)).
  { vm_compute. reflexivity. }
  split; [vm_compute; reflexivity|].
  split; [exact activated_search_context|]. split; [exact Hnew|].
  intros Heq.
  assert (Hclash : Some (ObjOpaque 2006) = Some (ObjOpaque 1006)).
  { rewrite <- Hnew, <- activated_search_context. by rewrite Heq. }
  discriminate Hclash.
Qed.

(** The initial import of the module as SoarBaseAPI.py gives it: the
    assignment of [get_cache] raises AttributeError, which the
    [except ImportError] clause does not catch, and [context] is never
    bound. *)
Example initial_import_without_cache_functions :
  let r := initial_import (disk_at 100 (soar_api_module 1)) bare_world fresh_state in
  snd r = Raise AttributeError
  /\ builtins (snd (fst r)) !! "get_integration_config" = Some (ObjOpaque 1009)
  /\ builtins (snd (fst r)) !! "context" = None.
Proof. repeat split; vm_compute; reflexivity. Qed.

(** C9, amended.  [reload_soar_api] never raises.  When the re-import itself
    fails it returns [False] and every binding is as before the attempt.
    When the import succeeds but the module lacks one of the names, it
    returns [False] after having rebound [SoarBaseAPI] and the names assigned
    before the missing one; the others keep their bindings.  A reload
    replaces bindings and never removes one.  In the initial import an
    ImportError is caught and logged, and binds nothing. *)
Theorem reload_failure_semantics (d : disk) (s : shim_state) :
  (exists b, snd (reload_soar_api d s) = Ret b)
  /\ (forall e, soar_api_import d = ImportRaises e ->
        snd (reload_soar_api d s) = Ret false
        /\ builtins (fst (reload_soar_api d s)) = builtins s)
  /\ (forall m, soar_api_import d = Imported m ->
        snd (reload_soar_api d s) = Ret false ->
        exists bound missing rest,
          reload_names = bound ++ missing :: rest
          /\ exports m bound
          /\ module_attrs m !! missing = None
          /\ builtins (fst (reload_soar_api d s))
             = rebound m bound (<["SoarBaseAPI" := module_object m]> (builtins s))
          /\ forall name, name <> "SoarBaseAPI" -> name ∉ bound ->
               builtins (fst (reload_soar_api d s)) !! name = builtins s !! name)
  /\ (forall name, is_Some (builtins s !! name) ->
        is_Some (builtins (fst (reload_soar_api d s)) !! name))
  /\ (forall w, sys_modules s = None -> soar_api_import d = ImportRaises ImportError ->
        initial_import d w s
        = ([Stderr "Warning: Could not import SoarBaseAPI"], s, Ret tt)).
Proof.
  split; [apply reload_soar_api_returns|]. split; [|split; [|split]].
  - intros e He. by rewrite (reload_soar_api_import_fails d s e He).
  - intros m Hm Hfalse.
    destruct (reload_soar_api_imported d s m Hm)
      as (bound & rest & Hn & Hex & Hst & [[_ Hr] | (missing & rest' & -> & Hmiss & _)]).
    { rewrite Hr in Hfalse. discriminate. }
    exists bound, missing, rest'. rewrite Hst. cbn [builtins].
    repeat split; try done.
    intros name Hne Hnot. rewrite rebound_lookup, decide_False by done.
    by rewrite lookup_insert_ne.
  - intros name Hs. destruct (soar_api_import d) as [m|e] eqn:E.
    + destruct (reload_soar_api_imported d s m E) as (bound & rest & _ & _ & -> & _).
      cbn [builtins]. apply rebound_keeps.
      destruct (decide ("SoarBaseAPI" = name)) as [<-|Hne].
      * by rewrite lookup_insert_eq.
      * by rewrite lookup_insert_ne.
    + by rewrite (reload_soar_api_import_fails d s e E).
  - intros w Hs He. unfold initial_import, initial_import_body, import_SoarBaseAPI.
    by rewrite Hs, He.
Qed.

Lemma reload_failure_semantics_witness :
  let d := {| soar_api_mtime := Some 200%Z; soar_api_import := ImportRaises OtherException |} in
  snd (reload_soar_api d activated) = Ret false
  /\ builtins (fst (reload_soar_api d activated)) = builtins activated.
Proof.
  intros d.
  apply (proj1 (proj2 (reload_failure_semantics d activated)) OtherException).
  reflexivity.
Defined.

(* ===================================================================== *)
(** * Part III: further properties of the code                             *)
(* ===================================================================== *)

(** ** Context update *)

Lemma dict_get_set_eq k v m : dict_get k (dict_set k v m) = Some v.
Proof.
  induction m as [|[k' v'] m IH]; simpl.
  - by rewrite String.eqb_refl.
  - destruct (String.eqb k' k) eqn:E; simpl; by rewrite E.
Qed.

Lemma dict_get_set_ne k k' v m : k <> k' -> dict_get k' (dict_set k v m) = dict_get k' m.
Proof.
  intros Hne. induction m as [|[k0 v0] m IH]; simpl.
  - destruct (String.eqb_spec k k'); [done|done].
  - destruct (String.eqb_spec k0 k) as [->|Hk]; simpl.
    + destruct (String.eqb_spec k k'); [done|done].
    + by rewrite IH.
Qed.

Lemma dict_update_snoc m data k v :
  dict_update m (data ++ [(k, v)]) = dict_set k v (dict_update m data).
Proof. unfold dict_update. by rewrite fold_left_app. Qed.



(** X1.  After [update_context(context, data)] on a mapping, a key of the
    patch reads the patch's value (the last one written for that key), and
    any other key reads what the context held: a shallow merge in which the
    last writer wins per top-level key. *)
Theorem update_context_lookup (m data : list (string * json)) (k : string) :
  exists m', update_context (JDict m) data = JDict m'
    /\ dict_get k m' = match dict_get k (rev data) with
                       | Some v => Some v
                       | None => dict_get k m
                       end.
Proof.
  exists (dict_update m data). split; [done|].
  induction data as [|[k0 v0] data IH] using rev_ind; [done|].
  rewrite dict_update_snoc, rev_app_distr. simpl.
  destruct (String.eqb_spec k0 k) as [->|Hne].
  - apply dict_get_set_eq.
  - by rewrite dict_get_set_ne.
Qed.




(** ** The resolver, beyond the claims *)

Lemma read_candidate_usable w path m url key :
  files w path = FileJson (JDict m) ->
  dict_get "secauto_url" m = Some url ->
  dict_get "secauto_api_key" m = Some key ->
  truthy url = true -> truthy key = true ->
  try_except (read_candidate w path) (except_Exception (mret None))
  = ([], Ret (Some (url, key))).
Proof.
  intros Hf Hu Hk Htu Htk. unfold read_candidate. rewrite Hf. simpl.
  by rewrite Hu, Hk, Htu, Htk.
Qed.

Lemma secauto_config_from_first w before path after m url key :
  (forall q, In q before -> candidate_usable (files w q) = false) ->
  files w path = FileJson (JDict m) ->
  dict_get "secauto_url" m = Some url ->
  dict_get "secauto_api_key" m = Some key ->
  truthy url = true -> truthy key = true ->
  secauto_config_from w (before ++ path :: after) = ([], Ret (url, key)).
Proof.
  intros Hbefore Hf Hu Hk Htu Htk.
  induction before as [|q before IH]; simpl.
  - by rewrite (read_candidate_usable w path m url key).
  - rewrite read_candidate_unusable by (apply Hbefore; by left). simpl.
    rewrite IH; [done|]. intros q' Hq'. apply Hbefore. by right.
Qed.

(** X3.  [get_secauto_config] returns the coordinates of the first candidate
    file, in the order of [config_paths], that exists, parses to a mapping and
    holds a non-empty address and a non-empty credential; later candidates are
    not consulted. *)
Theorem get_secauto_config_first_usable
    (w : world) (before after : list string) (path : string)
    (m : list (string * json)) (url key : json) :
  config_paths = before ++ path :: after ->
  (forall q, In q before -> candidate_usable (files w q) = false) ->
  files w path = FileJson (JDict m) ->
  dict_get "secauto_url" m = Some url ->
  dict_get "secauto_api_key" m = Some key ->
  truthy url = true -> truthy key = true ->
  get_secauto_config w = ([], Ret (url, key)).
Proof.
  intros Hpaths. unfold get_secauto_config. rewrite Hpaths.
  apply secauto_config_from_first.
Qed.

Lemma get_secauto_config_first_usable_witness :
  get_secauto_config second_candidate_world = ([], Ret (JStr "http://second", JStr "K2")).
Proof.
  apply (get_secauto_config_first_usable second_candidate_world
           ["data/integration_config.json"]
           ["../SoarAuto/data/integration_config.json"]
           "SoarAuto/data/integration_config.json"
           [("secauto_url", JStr "http://second"); ("secauto_api_key", JStr "K2")]);
    try reflexivity.
  intros q [<-|[]]. reflexivity.
Defined.

Lemma secauto_config_from_result w paths :
  exists url key,
    secauto_config_from w paths = ([], Ret (url, key))
    /\ ((url = JStr "http://localhost:8080" /\ key = JNull
         /\ forall path, In path paths -> candidate_usable (files w path) = false)
        \/ (truthy url = true /\ truthy key = true
            /\ exists path m, In path paths
                 /\ files w path = FileJson (JDict m)
                 /\ dict_get "secauto_url" m = Some url
                 /\ dict_get "secauto_api_key" m = Some key)).
Proof.
  induction paths as [|path paths (url & key & IH & Hcase)].
  { exists (JStr "http://localhost:8080"), JNull. split; [done|]. left. by repeat split. }
  destruct (candidate_usable (files w path)) eqn:Hus.
  - unfold candidate_usable in Hus.
    destruct (files w path) as [ | | | [ | | | | |m]] eqn:Hf; try done.
    destruct (dict_get "secauto_url" m) as [u|] eqn:Hu; [|done].
    destruct (dict_get "secauto_api_key" m) as [k|] eqn:Hk;
      [|by rewrite andb_false_r in Hus].
    apply andb_true_iff in Hus as [Htu Htk].
    exists u, k. split.
    + simpl. by rewrite (read_candidate_usable w path m u k).
    + right. repeat split; try done. exists path, m. repeat split; try done. by left.
  - exists url, key. split.
    + simpl. rewrite read_candidate_unusable by done. simpl. by rewrite IH.
    + destruct Hcase as [(-> & -> & Hall) | (Htu & Htk & p & m & Hin & Hrest)].
      * left. repeat split; try done. intros q [<-|Hq]; [done|by apply Hall].
      * right. repeat split; try done. exists p, m. split; [by right|done].
Qed.

(** X4.  [get_secauto_config] never raises and writes nothing.  It returns
    either the default address with no credential, exactly when no candidate
    file is usable, or an address and a credential that are both non-empty
    and were read from one of the candidate files. *)
Theorem get_secauto_config_result (w : world) :
  exists url key,
    get_secauto_config w = ([], Ret (url, key))
    /\ ((url = JStr "http://localhost:8080" /\ key = JNull
         /\ forall path, In path config_paths -> candidate_usable (files w path) = false)
        \/ (truthy url = true /\ truthy key = true
            /\ exists path m, In path config_paths
                 /\ files w path = FileJson (JDict m)
                 /\ dict_get "secauto_url" m = Some url
                 /\ dict_get "secauto_api_key" m = Some key)).
Proof. apply secauto_config_from_result. Qed.

(** X5.  The only exception that leaves [get_integration_config] is
    AttributeError, and only after a 200 answer whose JSON body is not a
    mapping.  A result other than [None] is always the non-empty
    [integration] entry of a 200 answer whose body is a mapping with a true
    [success] entry.  At most one request is issued. *)
Theorem get_integration_config_outcomes (w : world) (name : string) :
  (trace (get_integration_config w name) = []
   \/ exists url key, trace (get_integration_config w name) = [HttpGet url name key])
  /\ match result (get_integration_config w name) with
     | Raise e =>
         e = AttributeError
         /\ exists url key data,
              http_get w url name key = Response 200 (Some data) /\ is_dict data = false
     | Ret v =>
         v = JNull
         \/ (truthy v = true
             /\ exists url key m success,
                  http_get w url name key = Response 200 (Some (JDict m))
                  /\ dict_get "success" m = Some success /\ truthy success = true
                  /\ dict_get "integration" m = Some v)
     end.
Proof.
  unfold get_integration_config, get_secauto_config.
  destruct (secauto_config_from_total w config_paths) as (url & key & ->). simpl.
  destruct (truthy key); simpl; [|by split; left].
  unfold requests_get. simpl.
  destruct (http_get w url name key) as [|status_code body] eqn:Hresp; simpl.
  { split; [right; by eauto|by left]. }
  destruct (Z.eqb_spec status_code 200) as [->|Hne]; [|split; [right; by eauto|by left]].
  destruct body as [data|]; simpl; [|split; [right; by eauto|by left]].
  destruct data as [ | | | | |m]; simpl;
    try (split; [right; by eauto|]; split; [done|];
         eexists url, key, _; split; [exact Hresp|reflexivity]).
  destruct (dict_get "success" m) as [success|] eqn:Hs; simpl;
    [|split; [right; by eauto|by left]].
  destruct (truthy success) eqn:Hts; simpl; [|split; [right; by eauto|by left]].
  destruct (dict_get "integration" m) as [v|] eqn:Hi; simpl;
    [|split; [right; by eauto|by left]].
  destruct (truthy v) eqn:Htv; simpl; [|split; [right; by eauto|by left]].
  split; [right; by eauto|]. right. split; [done|].
  by exists url, key, m, success.
Qed.

(** ** The shim, beyond the claims *)

Lemma ensure_context_loaded_returns w :
  exists v, _ensure_context_loaded w = ([], Ret v) /\ v <> JNull.
Proof.
  unfold _ensure_context_loaded, load_context, stdin_isatty, json_load_stdin.
  destruct (stdin w) as [ | [x| | ] | ]; simpl; try (by eexists).
  destruct x; simpl; by eexists.
Qed.

(** X6.  [_ensure_context_loaded] never raises, writes nothing and never
    returns [None]: a document piped on standard input is returned as it is
    unless it is JSON null, and every other case gives the empty mapping. *)
Theorem ensure_context_loaded_not_none (w : world) :
  exists v,
    _ensure_context_loaded w = ([], Ret v)
    /\ v <> JNull
    /\ match stdin w with
       | StdinPiped (Loaded JNull) => v = JDict []
       | StdinPiped (Loaded x) => v = x
       | _ => v = JDict []
       end.
Proof.
  unfold _ensure_context_loaded, load_context, stdin_isatty, json_load_stdin.
  destruct (stdin w) as [ | [x| | ] | ]; simpl; try (by eexists).
  destruct x; simpl; by eexists.
Qed.

Lemma reload_soar_api_other_name d s name :
  name <> "SoarBaseAPI" -> ~ In name reload_names ->
  builtins (fst (reload_soar_api d s)) !! name = builtins s !! name.
Proof.
  intros Hne Hnot. destruct (soar_api_import d) as [m|e] eqn:E.
  - destruct (reload_soar_api_imported d s m E) as (bound & rest & Hn & _ & -> & _).
    cbn [builtins]. rewrite rebound_lookup, decide_False.
    + by rewrite lookup_insert_ne.
    + intros Hin. apply Hnot. rewrite Hn, in_app_iff. left. by apply list_elem_of_In.
  - by rewrite (reload_soar_api_import_fails d s e E).
Qed.

(** X7.  A reload, and so a reload check, never touches a name other than
    [SoarBaseAPI] and the eleven function names it rebinds: the [context]
    computed at activation, [secauto_url], [secauto_api_key] and the shim's
    own two functions keep their bindings, whether the reload succeeds or
    fails. *)
Theorem hot_reload_keeps_other_names (d : disk) (s : shim_state) (name : string) :
  name <> "SoarBaseAPI" -> ~ In name reload_names ->
  builtins (fst (reload_soar_api d s)) !! name = builtins s !! name
  /\ builtins (fst (check_and_reload d s)) !! name = builtins s !! name.
Proof.
  intros Hne Hnot. split; [by apply reload_soar_api_other_name|].
  unfold check_and_reload.
  destruct (soar_api_mtime d) as [current|]; [|done].
  destruct (last_modified_time s) as [recorded|]; [|done].
  destruct (recorded <? current)%Z; [|done].
  pose proof (reload_soar_api_other_name d (set_last_modified_time current s) name Hne Hnot)
    as Hkeep.
  destruct (reload_soar_api d (set_last_modified_time current s)) as [s' [b|e]]; exact Hkeep.
Qed.

Lemma hot_reload_keeps_other_names_witness :
  let d := disk_at 200 (full_module 2) in
  let s := set_last_modified_time 100 activated in
  builtins (fst (reload_soar_api d s)) !! "context" = builtins s !! "context"
  /\ builtins (fst (check_and_reload d s)) !! "context" = builtins s !! "context".
Proof.
  intros d s. apply (hot_reload_keeps_other_names d s "context"); [discriminate|].
  intros H. apply list_elem_of_In, (bool_decide_pack _) in H. vm_compute in H. exact H.
Defined.

Lemma check_and_reload_records d s t :
  last_modified_time s = Some t ->
  last_modified_time (fst (check_and_reload d s))
  = Some (match soar_api_mtime d with
          | Some current => Z.max t current
          | None => t
          end).
Proof.
  intros Hr. destruct (soar_api_mtime d) as [current|] eqn:Hc.
  - destruct (Z.ltb_spec t current) as [Hlt|Hge].
    + rewrite (check_and_reload_newer d s current t Hc Hr Hlt). cbn [fst].
      rewrite reload_soar_api_keeps_time.
      cbn [last_modified_time set_last_modified_time]. f_equal. lia.
    + rewrite (check_and_reload_not_newer d s current t Hc Hr Hge). cbn [fst].
      rewrite Hr. f_equal. lia.
  - by rewrite (check_and_reload_absent d s Hc).
Qed.

Lemma latest_mtime_cons d disks t :
  latest_mtime (d :: disks) t
  = latest_mtime disks (match soar_api_mtime d with
                        | Some current => Z.max t current
                        | None => t
                        end).
Proof. reflexivity. Qed.

Lemma latest_mtime_ge disks t : (t <= latest_mtime disks t)%Z.
Proof.
  revert t. induction disks as [|d disks IH]; intros t; [cbn; lia|].
  rewrite latest_mtime_cons. destruct (soar_api_mtime d) as [current|].
  - specialize (IH (Z.max t current)). lia.
  - apply IH.
Qed.

(** X8.  Over any sequence of reload checks, once a modification time has
    been recorded, the recorded time is the greatest of it and the
    modification times seen since: it never decreases.  While the file is
    absent or no newer than the recorded time, the calls change nothing,
    however many they are. *)
Theorem run_checks_records_latest (disks : list disk) (s : shim_state) (t : Z) :
  last_modified_time s = Some t ->
  last_modified_time (run_checks disks s) = Some (latest_mtime disks t)
  /\ (t <= latest_mtime disks t)%Z
  /\ ((forall d current, In d disks -> soar_api_mtime d = Some current -> (current <= t)%Z) ->
      run_checks disks s = s).
Proof.
  intros Hr. split; [|split; [apply latest_mtime_ge|]].
  - revert s t Hr. induction disks as [|d disks IH]; intros s t Hr; [done|].
    rewrite latest_mtime_cons. cbn [run_checks fold_left].
    apply IH. by apply check_and_reload_records.
  - revert s Hr. induction disks as [|d disks IH]; intros s Hr Hall; [done|].
    simpl. assert (Hsame : check_and_reload d s = (s, Ret tt)).
    { destruct (soar_api_mtime d) as [current|] eqn:Hc.
      - apply (check_and_reload_not_newer d s current t Hc Hr).
        apply (Hall d current); [by left|done].
      - by apply check_and_reload_absent. }
    rewrite Hsame. cbn [fst]. apply IH; [done|].
    intros d' current Hin. apply Hall. by right.
Qed.

Lemma run_checks_records_latest_witness :
  let s := set_last_modified_time 100 activated in
  last_modified_time
    (run_checks [disk_at 90 (full_module 2); disk_at 300 (full_module 3);
                 disk_at 200 (full_module 4)] s) = Some 300%Z.
Proof.
  intros s.
  apply (proj1 (run_checks_records_latest
                  [disk_at 90 (full_module 2); disk_at 300 (full_module 3);
                   disk_at 200 (full_module 4)] s 100 eq_refl)).
Defined.

Ltac solve_elem := apply (bool_decide_unpack _); by vm_compute.

Ltac solve_not_elem :=
  let H := fresh in intros H; apply (bool_decide_pack _) in H; by vm_compute in H.

(** Looks a concrete name up through the assignments of the shim. *)
Ltac lookup_through :=
  repeat first
    [ rewrite lookup_insert_eq
    | rewrite lookup_insert_ne by discriminate
    | rewrite rebound_lookup, decide_False by solve_not_elem
    | rewrite rebound_lookup, decide_True by solve_elem ].

Lemma exports_app m l1 l2 : exports m (l1 ++ l2) -> exports m l1 /\ exports m l2.
Proof. unfold exports. by rewrite Forall_app. Qed.

Lemma exports_lookup m names name :
  exports m names -> In name names -> exists o, module_attrs m !! name = Some o.
Proof.
  unfold exports. rewrite List.Forall_forall. intros H Hin. by destruct (H name Hin) as [o Ho]; eauto.
Qed.

Lemma initial_import_success d w s m :
  sys_modules s = None ->
  soar_api_import d = Imported m ->
  exports m (initial_names_head ++ initial_names_tail) ->
  exists context url key,
    get_secauto_config w = ([], Ret (url, key))
    /\ _ensure_context_loaded w = ([], Ret context)
    /\ context <> JNull
    /\ initial_import d w s
       = ([], {| builtins := activated_builtins m context url key (builtins s);
                 sys_modules := Some m;
                 last_modified_time := last_modified_time s |}, Ret tt).
Proof.
  intros Hs Him Hex. apply exports_app in Hex as [Hhead Htail].
  destruct (secauto_config_from_total w config_paths) as (url & key & Hcfg).
  destruct (ensure_context_loaded_returns w) as (context & Hctx & Hnn).
  exists context, url, key. split; [exact Hcfg|]. split; [exact Hctx|]. split; [exact Hnn|].
  unfold initial_import, initial_import_body, import_SoarBaseAPI.
  rewrite Hs, Him. unfold seq_SM.
  rewrite (bind_attrs_exports m initial_names_head _ Hhead).
  rewrite (bind_attrs_exports m initial_names_tail _ Htail).
  unfold get_secauto_config in Hcfg |- *. rewrite Hcfg, Hctx. reflexivity.
Qed.

(** X9.  When the file imports and the module has the ten functions the
    block reads, the initial import completes without raising or writing.
    It binds [SoarBaseAPI], those ten names to the module's functions, the
    shim's own [reload_soar_api] and [check_and_reload], [context] to a
    document that is not [None], and [secauto_url] and [secauto_api_key] to
    what [get_secauto_config] returns.  It does not bind [base_context],
    which only a reload binds, and records no modification time. *)
Theorem initial_import_binds (d : disk) (w : world) (s : shim_state) (m : py_module) :
  sys_modules s = None ->
  soar_api_import d = Imported m ->
  exports m (initial_names_head ++ initial_names_tail) ->
  exists s' context url key,
    initial_import d w s = ([], s', Ret tt)
    /\ get_secauto_config w = ([], Ret (url, key))
    /\ context <> JNull
    /\ builtins s' !! "context" = Some (ObjData context)
    /\ builtins s' !! "secauto_url" = Some (ObjData url)
    /\ builtins s' !! "secauto_api_key" = Some (ObjData key)
    /\ builtins s' !! "SoarBaseAPI" = Some (module_object m)
    /\ builtins s' !! "reload_soar_api" = Some (ObjShim "reload_soar_api")
    /\ builtins s' !! "check_and_reload" = Some (ObjShim "check_and_reload")
    /\ (forall name, In name (initial_names_head ++ initial_names_tail) ->
          builtins s' !! name = module_attrs m !! name)
    /\ builtins s' !! "base_context" = builtins s !! "base_context"
    /\ last_modified_time s' = last_modified_time s
    /\ sys_modules s' = Some m.
Proof.
  intros Hs Him Hex.
  destruct (initial_import_success d w s m Hs Him Hex)
    as (context & url & key & Hcfg & _ & Hnn & Hrun).
  eexists _, context, url, key. split; [exact Hrun|]. split; [exact Hcfg|].
  split; [exact Hnn|]. cbn [builtins last_modified_time sys_modules].
  unfold activated_builtins.
  split; [by lookup_through|]. split; [by lookup_through|]. split; [by lookup_through|].
  split; [by lookup_through|]. split; [by lookup_through|]. split; [by lookup_through|].
  split; [|split; [by lookup_through|done]].
  intros name Hin. destruct (exports_lookup m _ name Hex Hin) as [o Ho].
  simpl in Hin.
  repeat (destruct Hin as [<-|Hin]; [lookup_through; by rewrite Ho|]).
  destruct Hin.
Qed.

Lemma initial_import_binds_witness :
  exists s' context url key,
    initial_import (disk_at 100 (full_module 1)) bare_world fresh_state = ([], s', Ret tt)
    /\ get_secauto_config bare_world = ([], Ret (url, key))
    /\ context <> JNull
    /\ builtins s' !! "context" = Some (ObjData context)
    /\ builtins s' !! "base_context" = None
    /\ last_modified_time s' = None.
Proof.
  destruct (initial_import_binds (disk_at 100 (full_module 1)) bare_world fresh_state
              (full_module 1) eq_refl eq_refl)
    as (s' & context & url & key & H1 & H2 & H3 & H4 & _ & _ & _ & _ & _ & _ & H5 & H6 & _).
  { apply (bool_decide_unpack _). by vm_compute. }
  exists s', context, url, key. do 4 (split; [assumption|]). split; [|exact H6].
  rewrite H5. reflexivity.
Defined.

(** ** Reasoning about actions *)

Lemma bind_result_ret {A B : Type} (m : M A) (k : A -> M B) (v : B) :
  result (m ≫= k) = Ret v -> exists a, result m = Ret a /\ result (k a) = Ret v.
Proof.
  destruct m as [t [a|e]]; unfold mbind, M_bind, result; simpl; [|done].
  destruct (k a) as [t' r] eqn:E. simpl. intros ->. exists a. by rewrite E.
Qed.

Lemma bind_trace_nil {A B : Type} (m : M A) (k : A -> M B) :
  trace m = [] -> (forall a, trace (k a) = []) -> trace (m ≫= k) = [].
Proof.
  destruct m as [t [a|e]]; unfold mbind, M_bind, trace; simpl; intros -> Hk; [|done].
  specialize (Hk a). by destruct (k a) as [t' r]; simpl in *; subst.
Qed.

Lemma py_get_silent d key default : trace (py_get d key default) = [].
Proof. by destruct d. Qed.

Lemma response_json_silent body : trace (response_json body) = [].
Proof. by destruct body. Qed.

Lemma vt_request_silent r : trace (vt_request r) = [].
Proof. by destruct r. Qed.

(** A body that writes nothing, under the two [except] clauses of the
    integration: its value, or a failure value. *)
Lemma try_vt_handlers w wrap (body : M json) :
  trace body = [] ->
  exists v, try_except body (vt_handlers w wrap) = ([], Ret v)
    /\ (result body = Ret v
        \/ exists label e, result body = Raise e
                           /\ v = wrap (vt_failure label (str_exn w e))).
Proof.
  destruct body as [t [v|e]]; unfold trace; simpl; intros ->.
  - exists v. split; [done|by left].
  - destruct e; simpl; eexists; (split; [reflexivity|right; by eauto]).
Qed.

(** ** The VirusTotal exchanges *)

Lemma get_report_cases w net self analysis_id :
  (exists status stats,
     get_report w net self analysis_id
     = ([], Ret (JDict [("success", JBool true); ("status", status); ("stats", stats)]))
     /\ truthy (vt_api_key self) = true
     /\ exists text data, vt_get net self analysis_id = VtResponse 200 text (Some data))
  \/ (exists label detail,
        get_report w net self analysis_id = ([], Ret (JDict (vt_failure label detail)))).
Proof.
  unfold get_report. destruct (truthy (vt_api_key self)) eqn:Hkey; simpl;
    [|right; by eauto].
  match goal with |- context [try_except ?b _] => set (body := b) end.
  assert (Hsilent : trace body = []).
  { subst body. apply bind_trace_nil; [apply vt_request_silent|].
    intros [[status_code text] body]. destruct (status_code =? 200)%Z; [|done].
    apply bind_trace_nil; [apply response_json_silent|]. intros data.
    apply bind_trace_nil; [apply py_get_silent|]. intros inner.
    apply bind_trace_nil; [apply py_get_silent|]. intros attributes.
    apply bind_trace_nil; [apply py_get_silent|]. intros status.
    apply bind_trace_nil; [apply py_get_silent|]. done. }
  destruct (try_vt_handlers w JDict body Hsilent) as (v & -> & [Hv | (label & e & _ & ->)]);
    [|right; by eauto].
  subst body. apply bind_result_ret in Hv as ([[status_code text] body] & Hreq & Hv).
  destruct (Z.eqb_spec status_code 200) as [->|Hne].
  - apply bind_result_ret in Hv as (data & Hdata & Hv).
    apply bind_result_ret in Hv as (inner & _ & Hv).
    apply bind_result_ret in Hv as (attributes & _ & Hv).
    apply bind_result_ret in Hv as (status & _ & Hv).
    apply bind_result_ret in Hv as (stats & _ & Hv).
    injection Hv as <-. left. exists status, stats. split; [done|]. split; [done|].
    destruct (vt_get net self analysis_id) as [e|s t b]; [done|].
    injection Hreq as -> -> ->. destruct body as [data'|]; [|done]. by eauto.
  - injection Hv as <-. right. by eauto.
Qed.

(** X10.  [get_report] never raises and writes nothing.  It always returns a
    mapping with a boolean [success]: true only when an API key is configured
    and the analysis request was answered 200 with a JSON body, and then with
    a [status] and a [stats] entry; false with an [error_message] in every
    other case, including a request that raises. *)
Theorem get_report_shape (w : world) (net : vt_network) (self : vt_integration)
    (analysis_id : json) :
  exists r success,
    get_report w net self analysis_id = ([], Ret (JDict r))
    /\ dict_get "success" r = Some (JBool success)
    /\ if success
       then truthy (vt_api_key self) = true
            /\ (exists text data, vt_get net self analysis_id = VtResponse 200 text (Some data))
            /\ (exists status stats, dict_get "status" r = Some status
                                     /\ dict_get "stats" r = Some stats)
       else exists message, dict_get "error_message" r = Some (JStr message).
Proof.
  destruct (get_report_cases w net self analysis_id)
    as [(status & stats & -> & Hkey & Hresp) | (label & detail & ->)].
  - eexists _, true. split; [reflexivity|]. split; [reflexivity|].
    split; [done|]. split; [done|]. by exists status, stats.
  - eexists _, false. split; [reflexivity|]. split; [reflexivity|]. by eexists.
Qed.

Lemma scan_url_exchange_cases w net self url :
  (exists analysis_id status stats,
     scan_url_exchange w net self url
     = ([], Ret (vt_envelope [("success", JBool true); ("url", JStr url);
                              ("analysis_id", analysis_id);
                              ("status", status); ("stats", stats)]))
     /\ truthy analysis_id = true
     /\ get_report w net self analysis_id
        = ([], Ret (JDict [("success", JBool true); ("status", status); ("stats", stats)])))
  \/ (exists analysis_id message,
        scan_url_exchange w net self url
        = ([], Ret (vt_envelope [("success", JBool false); ("url", JStr url);
                                 ("analysis_id", analysis_id);
                                 ("error_message", JStr message)]))
        /\ truthy analysis_id = true)
  \/ (exists label detail,
        scan_url_exchange w net self url = ([], Ret (vt_envelope (vt_failure label detail)))).
Proof.
  unfold scan_url_exchange.
  match goal with |- context [try_except ?b _] => set (body := b) end.
  assert (Hsilent : trace body = []).
  { subst body. apply bind_trace_nil; [apply vt_request_silent|].
    intros [[status_code text] body]. destruct (status_code =? 200)%Z; [|done].
    apply bind_trace_nil; [apply response_json_silent|]. intros data.
    apply bind_trace_nil; [apply py_get_silent|]. intros inner.
    apply bind_trace_nil; [apply py_get_silent|]. intros analysis_id.
    destruct (truthy analysis_id); [|done].
    apply bind_trace_nil.
    - destruct (get_report_cases w net self analysis_id)
        as [(? & ? & -> & _) | (? & ? & ->)]; done.
    - by intros [].  }
  destruct (try_vt_handlers w vt_envelope body Hsilent)
    as (v & -> & [Hv | (label & e & _ & ->)]); [|right; right; by eauto].
  subst body. apply bind_result_ret in Hv as ([[status_code text] body] & Hreq & Hv).
  destruct (status_code =? 200)%Z.
  - apply bind_result_ret in Hv as (data & Hdata & Hv).
    apply bind_result_ret in Hv as (inner & _ & Hv).
    apply bind_result_ret in Hv as (analysis_id & _ & Hv).
    destruct (truthy analysis_id) eqn:Hid.
    + apply bind_result_ret in Hv as (report & Hrep & Hv).
      destruct (get_report_cases w net self analysis_id)
        as [(status & stats & Hget & _) | (label & detail & Hget)];
        rewrite Hget in Hrep; injection Hrep as <-; injection Hv as <-.
      * left. by exists analysis_id, status, stats.
      * right. left. by eexists analysis_id, _.
    + injection Hv as <-. right. right. by eauto.
  - injection Hv as <-. right. right. by eauto.
Qed.

(** X11.  From its [try] on, [scan_url] never raises and writes nothing, and
    its result is always [{"virustotal": {...}}] with a boolean [success].
    The flag is the report's, not that of the submission: when the URL was
    accepted (a non-empty analysis id) the result keeps [url] and
    [analysis_id] and is successful, with [status] and [stats], only if
    [get_report] succeeded; otherwise it carries the report's
    [error_message]. *)
Theorem scan_url_exchange_shape (w : world) (net : vt_network) (self : vt_integration)
    (url : string) :
  exists value success,
    scan_url_exchange w net self url = ([], Ret (vt_envelope value))
    /\ dict_get "success" value = Some (JBool success)
    /\ if success
       then exists analysis_id status stats,
              value = [("success", JBool true); ("url", JStr url);
                       ("analysis_id", analysis_id); ("status", status); ("stats", stats)]
              /\ truthy analysis_id = true
              /\ get_report w net self analysis_id
                 = ([], Ret (JDict [("success", JBool true); ("status", status);
                                    ("stats", stats)]))
       else exists message, dict_get "error_message" value = Some (JStr message).
Proof.
  destruct (scan_url_exchange_cases w net self url)
    as [(analysis_id & status & stats & -> & Hid & Hget)
       | [(analysis_id & message & -> & Hid) | (label & detail & ->)]].
  - eexists _, true. split; [reflexivity|]. split; [reflexivity|].
    by exists analysis_id, status, stats.
  - eexists _, false. split; [reflexivity|]. split; [reflexivity|]. by eexists.
  - eexists _, false. split; [reflexivity|]. split; [reflexivity|]. by eexists.
Qed.

(** ** The scanning loops *)

Lemma scan_one_unfold w vt st url :
  scan_one w vt st url
  = try_except
      (scan_url w vt url ≫= process_scan st url)
      (fun e => Some (mret
         {| results := results st ++
                       [JDict [("url", JStr url); ("verdict", JDict []);
                               ("success", JBool false);
                               ("error_message", JStr (str_exn w e))]];
            malicious_count := malicious_count st;
            clean_count := clean_count st;
            failed_count := (failed_count st + 1)%Z |})).
Proof. reflexivity. Qed.

Lemma py_add_silent n v : trace (py_add n v) = [].
Proof. by destruct v. Qed.

Lemma process_scan_silent st url scanned : trace (process_scan st url scanned) = [].
Proof.
  unfold process_scan.
  apply bind_trace_nil; [apply py_get_silent|]. intros virustotal_result.
  apply bind_trace_nil; [apply py_get_silent|]. intros stats.
  apply bind_trace_nil.
  - destruct (truthy stats); [|done].
    apply bind_trace_nil; [apply py_get_silent|]. intros x.
    apply bind_trace_nil; [apply py_add_silent|]. done.
  - intros counted.
    apply bind_trace_nil; [apply py_get_silent|]. intros success.
    apply bind_trace_nil; [apply py_get_silent|]. done.
Qed.

Lemma process_scan_ok st url scanned st' :
  result (process_scan st url scanned) = Ret st' -> scan_step_ok st st'.
Proof.
  unfold process_scan. intros H.
  apply bind_result_ret in H as (virustotal_result & _ & H).
  apply bind_result_ret in H as (stats & _ & H).
  apply bind_result_ret in H as (counted & Hc & H).
  apply bind_result_ret in H as (success & _ & H).
  apply bind_result_ret in H as (error_message & _ & H).
  injection H as <-. unfold scan_step_ok. cbn [results failed_count clean_count].
  rewrite length_app. cbn [length].
  destruct (truthy stats).
  - apply bind_result_ret in Hc as (x & _ & Hc).
    apply bind_result_ret in Hc as (total & _ & Hc).
    injection Hc as <-. cbn. destruct (py_is_zero x); lia.
  - injection Hc as <-. cbn. lia.
Qed.

Lemma scan_url_trace w vt url :
  exists scanned,
    scan_url w vt url
    = ((if truthy (vt_api_key vt) then [VtExchange url] else []), Ret scanned).
Proof. unfold scan_url. destruct (truthy (vt_api_key vt)); by eexists. Qed.

Lemma scan_one_spec w vt st url :
  exists st',
    scan_one w vt st url
    = ((if truthy (vt_api_key vt) then [VtExchange url] else []), Ret st')
    /\ scan_step_ok st st'.
Proof.
  rewrite scan_one_unfold.
  destruct (scan_url_trace w vt url) as [scanned ->].
  pose proof (process_scan_silent st url scanned) as Hsilent.
  pose proof (process_scan_ok st url scanned) as Hok.
  unfold mbind, M_bind. destruct (process_scan st url scanned) as [t [st'|e]];
    unfold trace in Hsilent; simpl in Hsilent; subst t.
  - exists st'. split; [by destruct (truthy (vt_api_key vt))|]. by apply Hok.
  - eexists. split; [by destruct (truthy (vt_api_key vt))|].
    unfold scan_step_ok. cbn. rewrite length_app. cbn. lia.
Qed.

Lemma scan_all_spec w vt urls st :
  exists st',
    scan_all w vt st urls
    = ((if truthy (vt_api_key vt) then map VtExchange urls else []), Ret st')
    /\ length (results st') = length (results st) + length urls
    /\ (failed_count st <= failed_count st')%Z
    /\ (clean_count st <= clean_count st')%Z
    /\ (clean_count st' + failed_count st'
        <= clean_count st + failed_count st + Z.of_nat (length urls))%Z.
Proof.
  revert st. induction urls as [|url urls IH]; intros st.
  { exists st. simpl. destruct (truthy (vt_api_key vt)); repeat split; lia. }
  destruct (scan_one_spec w vt st url) as (st1 & H1 & Hl1 & Hf1 & Hc1 & Hs1).
  destruct (IH st1) as (st' & H' & Hl' & Hf' & Hc' & Hs').
  exists st'. split.
  - cbn [scan_all]. rewrite H1. unfold mbind, M_bind. rewrite H'.
    by destruct (truthy (vt_api_key vt)).
  - cbn [length]. repeat split; lia.
Qed.

Lemma add_invalid_all invalid_urls st :
  let st' := fold_left add_invalid invalid_urls st in
  length (results st') = length (results st) + length invalid_urls
  /\ failed_count st' = (failed_count st + Z.of_nat (length invalid_urls))%Z
  /\ clean_count st' = clean_count st
  /\ malicious_count st' = malicious_count st.
Proof.
  revert st. induction invalid_urls as [|url l IH]; intros st; [cbn; repeat split; lia|].
  cbn [fold_left]. destruct (IH (add_invalid st url)) as (Hl & Hf & Hc & Hm).
  cbn zeta. rewrite Hl, Hf, Hc, Hm. unfold add_invalid. cbn.
  rewrite length_app. cbn. repeat split; lia.
Qed.

(** ** The run of the scanner *)

Lemma bind_ret {A B : Type} (t : list event) (a : A) (k : A -> M B) :
  (t, Ret a) ≫= k = (t ++ trace (k a), result (k a)).
Proof. unfold mbind, M_bind, trace, result. by destruct (k a). Qed.

Lemma length_list_ascii_of_string s :
  length (list_ascii_of_string s) = String.length s.
Proof. induction s as [|c s IH]; simpl; [done|]. by rewrite IH. Qed.

(** [len(urls)] is the number of items the loop sees. *)
Lemma py_iter_len urls items :
  py_iter urls = ([], Ret items) -> py_len urls = ([], Ret (Z.of_nat (length items))).
Proof.
  destruct urls as [ | | |s|l|m]; simpl; try done; intros [= <-].
  - by rewrite length_map, length_list_ascii_of_string.
  - done.
  - by rewrite length_map.
Qed.

Lemma main_run w m items :
  py_iter (urls_of m) = ([], Ret items) ->
  exists vt st0,
    result (VirusTotalIntegration w) = Ret vt
    /\ scan_all w vt scan_start (fst (classified w items))
       = ((if truthy (vt_api_key vt)
           then map VtExchange (fst (classified w items)) else []), Ret st0)
    /\ main w (JDict m)
       = ((if truthy (urls_of m) then [] else [Stdout no_urls_envelope])
          ++ (match fst (classified w items) with
              | [] => [Stdout (no_valid_envelope w (snd (classified w items))
                                 (Z.of_nat (length items)))]
              | _ => []
              end)
          ++ trace (get_integration_config w "virustotal")
          ++ (if truthy (vt_api_key vt)
              then map VtExchange (fst (classified w items)) else [])
          ++ [Stdout (final_envelope w (Z.of_nat (length items))
                        (fst (classified w items)) (snd (classified w items))
                        (fold_left add_invalid (snd (classified w items)) st0))],
          Ret tt).
Proof.
  intros Hiter. pose proof (py_iter_len _ _ Hiter) as Hlen.
  destruct (VirusTotalIntegration_trace w) as [Htr [vt Hvt]].
  destruct (scan_all_spec w vt (fst (classified w items)) scan_start) as (st0 & Hscan & _).
  exists vt, st0. split; [exact Hvt|]. split; [exact Hscan|].
  unfold main.
  change (py_get (JDict m) "urls" (JList [])) with (([], Ret (urls_of m)) : M json).
  rewrite bind_ret. cbn beta.
  assert (Hif : (if negb (truthy (urls_of m))
                 then return_context no_urls_envelope else mret tt)
                = ((if truthy (urls_of m) then [] else [Stdout no_urls_envelope]), Ret tt)).
  { by destruct (truthy (urls_of m)). }
  rewrite Hif, bind_ret. cbn beta. rewrite Hiter, bind_ret. cbn beta.
  fold (classified w items).
  destruct (classified w items) as [valid_urls invalid_urls]. cbn [fst snd] in *.
  assert (Hnv : match valid_urls with
                | [] => n_urls ← py_len (urls_of m);
                        return_context (no_valid_envelope w invalid_urls n_urls)
                | _ => mret tt
                end
                = (match valid_urls with
                   | [] => [Stdout (no_valid_envelope w invalid_urls
                                      (Z.of_nat (length items)))]
                   | _ => []
                   end, Ret tt)).
  { destruct valid_urls; [|done]. by rewrite Hlen. }
  rewrite Hnv, bind_ret. cbn beta.
  destruct (VirusTotalIntegration w) as [tcfg rcfg]. unfold trace in Htr at 1.
  simpl in Htr, Hvt. subst tcfg rcfg.
  rewrite bind_ret. cbn beta. rewrite Hscan, bind_ret. cbn beta.
  rewrite Hlen, bind_ret. cbn beta.
  unfold return_context, emit, trace, result. cbn [fst snd].
  by rewrite !app_nil_l.
Qed.

Lemma trace_pair {A : Type} (t : list event) (r : outcome A) : trace (t, r) = t.
Proof. reflexivity. Qed.

Lemma count_stdout_app t1 t2 : count_stdout (t1 ++ t2) = count_stdout t1 + count_stdout t2.
Proof. unfold count_stdout. by rewrite filter_app, length_app. Qed.

Lemma count_stdout_exchanges urls : count_stdout (map VtExchange urls) = 0.
Proof. induction urls as [|u urls IH]; [done|]. exact IH. Qed.

Lemma count_stdout_config_fetch w name :
  count_stdout (trace (get_integration_config w name)) = 0.
Proof. unfold count_stdout. by rewrite stdout_free_config_fetch. Qed.

(** X12.  For every context that is a mapping whose [urls] can be iterated,
    [main] returns without raising, and the number of documents it writes to
    standard output is one, plus one when [urls] is empty or otherwise
    falsy, plus one when no URL is classified valid: exactly one document is
    written precisely when at least one URL is valid. *)
Theorem main_document_count (w : world) (m : list (string * json)) (items : list json) :
  py_iter (urls_of m) = ([], Ret items) ->
  result (main w (JDict m)) = Ret tt
  /\ count_stdout (trace (main w (JDict m)))
     = (if truthy (urls_of m) then 0 else 1)
       + (match fst (classified w items) with [] => 1 | _ => 0 end)
       + 1
  /\ (fst (classified w items) <> [] -> count_stdout (trace (main w (JDict m))) = 1).
Proof.
  intros Hiter. destruct (main_run w m items Hiter) as (vt & st0 & _ & _ & Hmain).
  assert (Hcount : count_stdout (trace (main w (JDict m)))
                   = (if truthy (urls_of m) then 0 else 1)
                     + (match fst (classified w items) with [] => 1 | _ => 0 end) + 1).
  { rewrite Hmain, trace_pair.
    rewrite !count_stdout_app, count_stdout_config_fetch.
    assert (Hx : count_stdout (if truthy (vt_api_key vt)
                               then map VtExchange (fst (classified w items)) else []) = 0).
    { destruct (truthy (vt_api_key vt)); [apply count_stdout_exchanges|done]. }
    rewrite Hx. destruct (truthy (urls_of m)), (fst (classified w items)); reflexivity. }
  split; [by rewrite Hmain|]. split; [exact Hcount|].
  intros Hvalid. rewrite Hcount.
  destruct (fst (classified w items)) as [|u l] eqn:Hc; [done|].
  assert (Htruthy : truthy (urls_of m) = true); [|by rewrite Htruthy].
  destruct items as [|item items'].
  { by rewrite (eq_refl : classified w [] = ([], [])) in Hc. }
  destruct (urls_of m) as [ | | |s|l'|m']; try done; simpl in Hiter.
  - destruct s; [done|done].
  - by destruct l'.
  - by destruct m'.
Qed.

Lemma main_document_count_witness :
  count_stdout
    (trace (main bare_world
              (JDict [("urls", JList [JStr "https://example.com"; JStr "{{unresolved}}"])])))
  = 1.
Proof.
  apply (proj2 (proj2 (main_document_count bare_world
                         [("urls", JList [JStr "https://example.com"; JStr "{{unresolved}}"])]
                         [JStr "https://example.com"; JStr "{{unresolved}}"] eq_refl))).
  vm_compute. discriminate.
Defined.

(** X13.  A context that is not a mapping makes [main] raise AttributeError
    before anything is written.  A [urls] value that cannot be iterated makes
    it raise TypeError: before anything is written when the value is truthy
    (a non-zero number, [true]), after the no-URL envelope when it is
    [None], [false] or zero. *)
Theorem main_bad_input (w : world) (context : json) (m : list (string * json)) :
  (is_dict context = false -> main w context = ([], Raise AttributeError))
  /\ (is_container (urls_of m) = false ->
      (forall s, urls_of m <> JStr s) ->
      main w (JDict m)
      = ((if truthy (urls_of m) then [] else [Stdout no_urls_envelope]), Raise TypeError)).
Proof.
  split.
  - by destruct context.
  - intros Hc Hs. unfold main.
    change (py_get (JDict m) "urls" (JList [])) with (([], Ret (urls_of m)) : M json).
    rewrite bind_ret. cbn beta.
    destruct (urls_of m) as [ |b|n|s| | ]; try done.
    + by destruct b.
    + simpl. by destruct (n =? 0)%Z.
    + by destruct (Hs s).
Qed.

Lemma main_bad_input_witness :
  main bare_world (JList []) = ([], Raise AttributeError)
  /\ main bare_world (JDict [("urls", JNull)])
     = ([Stdout no_urls_envelope], Raise TypeError).
Proof.
  split.
  - apply (proj1 (main_bad_input bare_world (JList []) [])). reflexivity.
  - apply (proj2 (main_bad_input bare_world JNull [("urls", JNull)])); [reflexivity|].
    intros s. discriminate.
Defined.

(** The fields of the final envelope, as the path search reads them. *)
Lemma final_envelope_fields w n_urls valid_urls invalid_urls st :
  let doc := final_envelope w n_urls valid_urls invalid_urls st in
  search_context_path doc "virustotal.success"
  = JBool ((failed_count st =? 0)%Z && (0 <? Z.of_nat (length valid_urls))%Z)
  /\ search_context_path doc "virustotal.results" = JList (results st)
  /\ search_context_path doc "virustotal.summary.total_urls" = JNum n_urls
  /\ search_context_path doc "virustotal.summary.failed_scans" = JNum (failed_count st)
  /\ search_context_path doc "virustotal.summary.clean_urls" = JNum (clean_count st)
  /\ search_context_path doc "virustotal.summary.malicious_urls"
     = JNum (malicious_count st)
  /\ search_context_path doc "virustotal.summary.invalid_urls"
     = JNum (Z.of_nat (length invalid_urls)).
Proof. repeat split; reflexivity. Qed.

Lemma add_invalid_results invalid_urls st :
  exists entries,
    results (fold_left add_invalid invalid_urls st) = results st ++ entries
    /\ length entries = length invalid_urls.
Proof.
  revert st. induction invalid_urls as [|u l IH]; intros st.
  - exists []. by rewrite app_nil_r.
  - cbn [fold_left]. destruct (IH (add_invalid st u)) as (entries & -> & Hlen).
    eexists (_ :: entries). unfold add_invalid at 1. cbn [results].
    rewrite <- app_assoc. split; [reflexivity|]. cbn. by rewrite Hlen.
Qed.

(** X14.  The last document [main] writes reports one result entry for each
    URL classified valid or invalid, [total_urls] equal to the number of
    items of [urls], and counters that add up: every invalid URL is a failed
    scan, and clean and failed scans together never exceed the number of
    entries.  The path search reads these fields back from the document. *)
Theorem main_final_envelope (w : world) (m : list (string * json)) (items : list json) :
  py_iter (urls_of m) = ([], Ret items) ->
  let valid_urls := fst (classified w items) in
  let invalid_urls := snd (classified w items) in
  exists before doc entries failed clean,
    main w (JDict m) = (before ++ [Stdout doc], Ret tt)
    /\ search_context_path doc "virustotal.summary.total_urls"
       = JNum (Z.of_nat (length items))
    /\ search_context_path doc "virustotal.results" = JList entries
    /\ length entries = length valid_urls + length invalid_urls
    /\ search_context_path doc "virustotal.summary.failed_scans" = JNum failed
    /\ search_context_path doc "virustotal.summary.clean_urls" = JNum clean
    /\ search_context_path doc "virustotal.summary.invalid_urls"
       = JNum (Z.of_nat (length invalid_urls))
    /\ (Z.of_nat (length invalid_urls) <= failed)%Z
    /\ (0 <= clean)%Z
    /\ (clean + failed <= Z.of_nat (length valid_urls + length invalid_urls))%Z
    /\ search_context_path doc "virustotal.success"
       = JBool ((failed =? 0)%Z && (0 <? Z.of_nat (length valid_urls))%Z).
Proof.
  intros Hiter valid_urls invalid_urls.
  destruct (main_run w m items Hiter) as (vt & st0 & _ & Hscan & Hmain).
  fold valid_urls invalid_urls in Hscan, Hmain.
  destruct (scan_all_spec w vt valid_urls scan_start) as (st0' & Hscan' & Hl & Hf & Hc & Hs).
  rewrite Hscan in Hscan'. injection Hscan' as <-.
  destruct (add_invalid_all invalid_urls st0) as (Hl' & Hf' & Hc' & _).
  cbn in Hl, Hf, Hc, Hs.
  set (st := fold_left add_invalid invalid_urls st0) in *. clearbody st.
  destruct (final_envelope_fields w (Z.of_nat (length items)) valid_urls invalid_urls st)
    as (Hsuccess & Hresults & Htotal & Hfailed & Hclean & _ & Hinvalid).
  eexists _, _, (results st), (failed_count st), (clean_count st).
  split.
  { rewrite Hmain. rewrite !app_assoc. reflexivity. }
  rewrite Hsuccess, Hresults, Htotal, Hfailed, Hclean, Hinvalid.
  repeat split; try reflexivity; lia.
Qed.

Lemma main_final_envelope_witness :
  exists before doc entries,
    main bare_world (JDict [("urls", JList [JStr "https://example.com"; JNum 7])])
    = (before ++ [Stdout doc], Ret tt)
    /\ search_context_path doc "virustotal.summary.total_urls" = JNum 2
    /\ search_context_path doc "virustotal.results" = JList entries
    /\ length entries = 2.
Proof.
  destruct (main_final_envelope bare_world
              [("urls", JList [JStr "https://example.com"; JNum 7])]
              [JStr "https://example.com"; JNum 7] eq_refl)
    as (before & doc & entries & failed & clean & H1 & H2 & H3 & H4 & _).
  exists before, doc, entries. split; [exact H1|]. split; [exact H2|].
  split; [exact H3|exact H4].
Defined.

Lemma VirusTotalIntegration_unconfigured w :
  (forall path, In path config_paths -> candidate_usable (files w path) = false) ->
  VirusTotalIntegration w = ([], Ret vt_initial).
Proof.
  intros H. unfold VirusTotalIntegration, _load_config, get_integration_config,
    get_secauto_config.
  by rewrite (secauto_config_from_unusable w config_paths H).
Qed.

Lemma scan_all_unconfigured w vt urls st :
  truthy (vt_api_key vt) = false ->
  scan_all w vt st urls
  = ([], Ret {| results := results st ++ map unconfigured_entry urls;
                malicious_count := malicious_count st;
                clean_count := clean_count st;
                failed_count := (failed_count st + Z.of_nat (length urls))%Z |}).
Proof.
  intros Hkey. revert st. induction urls as [|url urls IH]; intros st.
  { destruct st. cbn. by rewrite app_nil_r, Z.add_0_r. }
  cbn [scan_all]. unfold scan_one at 1, scan_url. rewrite Hkey. simpl.
  rewrite IH. cbn. rewrite <- app_assoc. do 3 f_equal. lia.
Qed.

(** X15.  When no candidate file yields a credential, a run of [main] makes
    no network call at all: every event of its trace is a document on
    standard output.  The integration is left without an API key, each valid
    URL gets the entry [VirusTotal API key not configured], and every URL
    counts as a failed scan. *)
Theorem main_without_credential (w : world) (m : list (string * json)) (items : list json) :
  (forall path, In path config_paths -> candidate_usable (files w path) = false) ->
  py_iter (urls_of m) = ([], Ret items) ->
  let valid_urls := fst (classified w items) in
  let invalid_urls := snd (classified w items) in
  filter (fun ev => is_Stdout ev = false) (trace (main w (JDict m))) = []
  /\ exists before doc entries,
       main w (JDict m) = (before ++ [Stdout doc], Ret tt)
       /\ search_context_path doc "virustotal.success" = JBool false
       /\ search_context_path doc "virustotal.results"
          = JList (map unconfigured_entry valid_urls ++ entries)
       /\ length entries = length invalid_urls
       /\ search_context_path doc "virustotal.summary.failed_scans"
          = JNum (Z.of_nat (length valid_urls + length invalid_urls))
       /\ search_context_path doc "virustotal.summary.malicious_urls" = JNum 0.
Proof.
  intros Hnone Hiter valid_urls invalid_urls.
  destruct (main_run w m items Hiter) as (vt & st0 & Hvt & Hscan & Hmain).
  fold valid_urls invalid_urls in Hscan, Hmain.
  rewrite (VirusTotalIntegration_unconfigured w Hnone) in Hvt. injection Hvt as <-.
  assert (Hfetch : trace (get_integration_config w "virustotal") = []).
  { unfold get_integration_config, get_secauto_config.
    by rewrite (secauto_config_from_unusable w config_paths Hnone). }
  rewrite Hfetch in Hmain. cbn [vt_initial vt_api_key truthy] in Hscan, Hmain.
  rewrite (scan_all_unconfigured w vt_initial valid_urls scan_start eq_refl) in Hscan.
  injection Hscan as Hst0.
  destruct (add_invalid_all invalid_urls st0) as (_ & Hf & _ & Hm).
  destruct (add_invalid_results invalid_urls st0) as (entries & Hres & Hlen).
  assert (Hr0 : results st0 = map unconfigured_entry valid_urls) by (by rewrite <- Hst0).
  assert (Hf0 : failed_count st0 = Z.of_nat (length valid_urls)) by (by rewrite <- Hst0).
  assert (Hm0 : malicious_count st0 = 0%Z) by (by rewrite <- Hst0).
  rewrite Hr0 in Hres. rewrite Hf0 in Hf. rewrite Hm0 in Hm. clear Hst0 Hr0 Hf0 Hm0.
  set (st := fold_left add_invalid invalid_urls st0) in *. clearbody st.
  destruct (final_envelope_fields w (Z.of_nat (length items)) valid_urls invalid_urls st)
    as (Hsuccess & Hresults & _ & Hfailed & _ & Hmal & _).
  split.
  { rewrite Hmain, trace_pair. rewrite !filter_app.
    destruct (truthy (urls_of m)), valid_urls; reflexivity. }
  eexists _, _, entries. split.
  { rewrite Hmain. rewrite !app_assoc. reflexivity. }
  rewrite Hsuccess, Hresults, Hfailed, Hmal, Hres, Hf, Hm.
  split.
  { f_equal. apply andb_false_iff.
    destruct valid_urls as [|u l]; [right; reflexivity|left].
    apply Z.eqb_neq. cbn [length]. lia. }
  split; [done|]. split; [exact Hlen|]. split; [f_equal; lia|done].
Qed.

Lemma main_without_credential_witness :
  filter (fun ev => is_Stdout ev = false)
    (trace (main bare_world (JDict [("urls", JList [JStr "https://example.com"])]))) = [].
Proof.
  apply (main_without_credential bare_world
           [("urls", JList [JStr "https://example.com"])] [JStr "https://example.com"]);
    [|reflexivity].
  intros path _. reflexivity.
Defined.

(** ** One URL, end to end *)

Lemma classify_plain_url w valid_urls invalid_urls u :
  plain_url u = true ->
  classify_url w (valid_urls, invalid_urls) (JStr u) = (valid_urls ++ [u], invalid_urls).
Proof.
  unfold plain_url, classify_url. intros H.
  apply andb_true_iff in H as [H H3]. apply andb_true_iff in H as [H1 H2].
  apply negb_true_iff in H1, H3. rewrite H1, H2, H3. done.
Qed.

Lemma apply_config_api_key self c :
  vt_api_key (apply_config self (JDict c))
  = match dict_get "apikey" c with Some v => v | None => JNull end.
Proof.
  unfold apply_config, assign_or_stop. cbn.
  destruct (dict_get "settings" c) as [[ | | | | | ]|]; reflexivity.
Qed.

Lemma reaches_cons_inv d k ks v :
  reaches d (k :: ks) v ->
  exists m x, d = JDict m /\ dict_get k m = Some x /\ reaches x ks v.
Proof. intros H. inversion H; subst. by eauto. Qed.

Lemma reaches_nil_inv d v : reaches d [] v -> d = v.
Proof. intros H. by inversion H. Qed.

Lemma get_report_success w net self analysis_id text body stats :
  truthy (vt_api_key self) = true ->
  vt_get net self analysis_id = VtResponse 200 text (Some body) ->
  reaches body ["data"; "attributes"; "stats"] stats ->
  exists status,
    get_report w net self analysis_id
    = ([], Ret (JDict [("success", JBool true); ("status", status); ("stats", stats)])).
Proof.
  intros Hkey Hget Hreach.
  apply reaches_cons_inv in Hreach as (m1 & x1 & -> & H1 & Hreach).
  apply reaches_cons_inv in Hreach as (m2 & x2 & -> & H2 & Hreach).
  apply reaches_cons_inv in Hreach as (m3 & x3 & -> & H3 & Hreach).
  apply reaches_nil_inv in Hreach as ->.
  unfold get_report. rewrite Hkey, Hget. cbn. rewrite H1. cbn. rewrite H2. cbn.
  rewrite H3. by eexists.
Qed.

Lemma scan_url_exchange_success w net self url text body analysis_id status stats :
  vt_post net self url = VtResponse 200 text (Some body) ->
  reaches body ["data"; "id"] analysis_id ->
  truthy analysis_id = true ->
  get_report w net self analysis_id
  = ([], Ret (JDict [("success", JBool true); ("status", status); ("stats", stats)])) ->
  scan_url_exchange w net self url
  = ([], Ret (vt_envelope [("success", JBool true); ("url", JStr url);
                           ("analysis_id", analysis_id);
                           ("status", status); ("stats", stats)])).
Proof.
  intros Hpost Hreach Hid Hrep.
  apply reaches_cons_inv in Hreach as (m1 & x1 & -> & H1 & Hreach).
  apply reaches_cons_inv in Hreach as (m2 & x2 & -> & H2 & Hreach).
  apply reaches_nil_inv in Hreach as ->.
  unfold scan_url_exchange. rewrite Hpost. cbn. rewrite H1. cbn. rewrite H2, Hid.
  cbn. rewrite Hrep. reflexivity.
Qed.

(** With an API key, [scan_url] in the world built on a network is the
    integration's own exchange. *)
Lemma scan_url_with_network w net vt u :
  truthy (vt_api_key vt) = true ->
  scan_url (world_with_network net w) vt u
  = ([VtExchange u], Ret (returned (scan_url_exchange w net vt u))).
Proof. intros H. unfold scan_url. by rewrite H. Qed.

(** X16.  One plain URL, a configured integration and a network that
    accepts the URL and reports its verdicts: [main] fetches the config,
    makes the exchanges for that URL and writes exactly one document, with
    [success] true, [total_urls] 1, one result entry for the URL carrying the
    reported verdicts, and the URL counted clean exactly when no engine
    flagged it. *)
Theorem main_scans_one_url
    (w : world) (net : vt_network) (u : string) (c sm : list (string * json))
    (key analysis_id post_body report_body : json) (tc : list event)
    (post_text report_text : string) (flagged : Z) :
  plain_url u = true ->
  get_integration_config w "virustotal" = (tc, Ret (JDict c)) ->
  dict_get "apikey" c = Some key -> truthy key = true ->
  vt_post net (apply_config vt_initial (JDict c)) u
  = VtResponse 200 post_text (Some post_body) ->
  reaches post_body ["data"; "id"] analysis_id -> truthy analysis_id = true ->
  vt_get net (apply_config vt_initial (JDict c)) analysis_id
  = VtResponse 200 report_text (Some report_body) ->
  reaches report_body ["data"; "attributes"; "stats"] (JDict sm) ->
  dict_get "malicious" sm = Some (JNum flagged) ->
  exists doc,
    main (world_with_network net w) (JDict [("urls", JList [JStr u])])
    = (tc ++ [VtExchange u; Stdout doc], Ret tt)
    /\ search_context_path doc "virustotal.success" = JBool true
    /\ search_context_path doc "virustotal.summary.total_urls" = JNum 1
    /\ search_context_path doc "virustotal.results"
       = JList [JDict [("url", JStr u); ("verdicts", JDict sm);
                       ("success", JBool true); ("error_message", JStr "")]]
    /\ search_context_path doc "virustotal.summary.malicious_urls" = JNum flagged
    /\ search_context_path doc "virustotal.summary.clean_urls"
       = JNum (if (flagged =? 0)%Z then 1 else 0)
    /\ search_context_path doc "virustotal.summary.failed_scans" = JNum 0.
Proof.
  intros Hplain Hcfg Hkey Htk Hpost Hid Htid Hget Hstats Hmal.
  set (vt := apply_config vt_initial (JDict c)) in *.
  assert (Hc : c <> []) by (by destruct c).
  assert (Hvt_key : truthy (vt_api_key vt) = true).
  { subst vt. by rewrite apply_config_api_key, Hkey. }
  assert (Hcfg' : get_integration_config (world_with_network net w) "virustotal" = (tc, Ret (JDict c))).
  { exact Hcfg. }
  assert (Hinit : VirusTotalIntegration (world_with_network net w) = (tc, Ret vt)).
  { unfold VirusTotalIntegration, _load_config. rewrite Hcfg'. cbn.
    rewrite app_nil_r. by destruct c. }
  destruct (get_report_success w net vt analysis_id report_text report_body (JDict sm)
              Hvt_key Hget Hstats) as [status Hrep].
  pose proof (scan_url_exchange_success w net vt u post_text post_body analysis_id
                status (JDict sm) Hpost Hid Htid Hrep) as Hscan_url.
  assert (Hsm : truthy (JDict sm) = true).
  { destruct sm; [done|done]. }
  assert (Hone : scan_all (world_with_network net w) vt scan_start [u]
                 = ([VtExchange u],
                    Ret {| results := [JDict [("url", JStr u); ("verdicts", JDict sm);
                                              ("success", JBool true);
                                              ("error_message", JStr "")]];
                           malicious_count := flagged;
                           clean_count := if (flagged =? 0)%Z then 1 else 0;
                           failed_count := 0 |})).
  { cbn [scan_all]. rewrite scan_one_unfold.
    rewrite (scan_url_with_network w net vt u Hvt_key). unfold returned.
    rewrite Hscan_url. cbn [result snd]. rewrite bind_ret.
    unfold process_scan, vt_envelope. cbn -[truthy Z.eqb]. rewrite Hsm. cbn -[Z.eqb].
    rewrite Hmal. cbn -[Z.eqb]. by destruct (flagged =? 0)%Z. }
  destruct (main_run (world_with_network net w) [("urls", JList [JStr u])] [JStr u] eq_refl)
    as (vt' & st0 & Hvt' & Hscan & Hmain).
  rewrite Hinit in Hvt'. injection Hvt' as <-.
  assert (Hclass : classified (world_with_network net w) [JStr u] = ([u], [])).
  { unfold classified. cbn [fold_left]. by rewrite classify_plain_url. }
  rewrite Hclass in Hscan, Hmain. cbn [fst snd] in Hscan, Hmain.
  rewrite Hone in Hscan. injection Hscan as _ Hst0.
  rewrite Hcfg', Hvt_key in Hmain. cbn [trace fst urls_of dict_get String.eqb] in Hmain.
  eexists. split.
  { rewrite Hmain. cbn. reflexivity. }
  rewrite <- Hst0. cbn -[Z.eqb]. repeat split; reflexivity.
Qed.

Lemma main_scans_one_url_witness :
  exists doc,
    main (world_with_network sample_network configured_world)
      (JDict [("urls", JList [JStr "https://example.com"])])
    = ([HttpGet (JStr "http://localhost:8080") "virustotal" (JStr "K")]
         ++ [VtExchange "https://example.com"; Stdout doc], Ret tt)
    /\ search_context_path doc "virustotal.success" = JBool true
    /\ search_context_path doc "virustotal.summary.malicious_urls" = JNum 1.
Proof.
  destruct (main_scans_one_url configured_world sample_network "https://example.com"
              [("apikey", JStr "K")] [("malicious", JNum 1); ("harmless", JNum 2)]
              (JStr "K") (JStr "a1")
              (JDict [("data", JDict [("id", JStr "a1")])])
              (JDict [("data",
                       JDict [("attributes",
                               JDict [("status", JStr "completed");
                                      ("stats", JDict [("malicious", JNum 1);
                                                       ("harmless", JNum 2)])])])])
              [HttpGet (JStr "http://localhost:8080") "virustotal" (JStr "K")]
              "" "" 1)
    as (doc & H1 & H2 & _ & _ & H5 & _); try reflexivity.
  - repeat (eapply reaches_segment; [reflexivity|]). apply reaches_end.
  - repeat (eapply reaches_segment; [reflexivity|]). apply reaches_end.
  - exists doc. split; [exact H1|]. split; [exact H2|exact H5].
Defined.

(** ** The Redis integration *)

(** X17.  [RedisIntegration()] never raises and makes only the config fetch.
    When the fetch raises, or returns a non-empty value that is not a
    mapping, the attributes are the defaults localhost, 6379 and the empty
    password; when it returns a non-empty mapping they are its [host],
    [port] and [password] entries, each with that default; when it returns
    [None] or an empty mapping they all stay [None]. *)
Theorem RedisIntegration_outcomes (w : world) :
  exists self,
    RedisIntegration w = (trace (get_integration_config w "redis"), Ret self)
    /\ match result (get_integration_config w "redis") with
       | Raise _ => self = redis_defaults
       | Ret config =>
           if truthy config then
             match config with
             | JDict c =>
                 self = {| redis_host := entry_or c "host" (JStr "localhost");
                           redis_port := entry_or c "port" (JNum 6379);
                           redis_password := entry_or c "password" (JStr "") |}
             | _ => self = redis_defaults
             end
           else self = redis_initial
       end.
Proof.
  unfold RedisIntegration, redis_load_config.
  destruct (get_integration_config w "redis") as [t [config|e]]; cbn.
  - destruct (truthy config) eqn:Ht; cbn.
    + destruct config as [ | | | | |c]; try discriminate Ht; cbn; rewrite ?app_nil_r;
        (eexists; split; reflexivity).
    + rewrite app_nil_r. eexists. split; reflexivity.
  - rewrite app_nil_r. eexists. split; reflexivity.
Qed.

Lemma RedisIntegration_unconfigured w :
  (forall path, In path config_paths -> candidate_usable (files w path) = false) ->
  RedisIntegration w = ([], Ret redis_initial).
Proof.
  intros H. unfold RedisIntegration, redis_load_config, get_integration_config,
    get_secauto_config.
  by rewrite (secauto_config_from_unusable w config_paths H).
Qed.

(** X18.  When no candidate file yields a credential, the integration has no
    host: [get_cache] and [delete_cache] answer [Redis host not configured]
    without attempting any Redis command, for every key and every state of
    the server.  There is no fallback to a local server on this path. *)
Theorem cache_without_credential (w : world) (env : redis_env) (key : string) :
  (forall path, In path config_paths -> candidate_usable (files w path) = false) ->
  exists self,
    RedisIntegration w = ([], Ret self)
    /\ redis_host self = JNull
    /\ get_cache w env self key = ([], Ret (redis_failure "Redis host not configured"))
    /\ delete_cache w env self key = ([], Ret (redis_failure "Redis host not configured")).
Proof.
  intros H. exists redis_initial. by rewrite (RedisIntegration_unconfigured w H).
Qed.

Lemma cache_without_credential_witness :
  exists self,
    RedisIntegration bare_world = ([], Ret self)
    /\ redis_host self = JNull
    /\ get_cache bare_world empty_redis self "k"
       = ([], Ret (redis_failure "Redis host not configured"))
    /\ delete_cache bare_world empty_redis self "k"
       = ([], Ret (redis_failure "Redis host not configured")).
Proof.
  apply (cache_without_credential bare_world empty_redis "k").
  intros path _. reflexivity.
Defined.

Lemma get_cache_configured w env self key :
  truthy (redis_host self) = true -> redis_module env = true ->
  exists r,
    get_cache w env self key
    = ([Cache (RedisGet (redis_host self) (redis_port self) (redis_password self) key)],
       Ret r).
Proof.
  intros Hh Hm. unfold get_cache. rewrite Hh, Hm. cbn.
  destruct (redis_get_reply env _) as [e| |raw]; cbn; try (by eexists).
  destruct (String.eqb raw ""); cbn; [by eexists|].
  destruct (utf8_decode env raw); cbn; by eexists.
Qed.

Lemma delete_cache_configured w env self key :
  truthy (redis_host self) = true -> redis_module env = true ->
  exists r,
    delete_cache w env self key
    = ([Cache (RedisDelete (redis_host self) (redis_port self) (redis_password self) key)],
       Ret r).
Proof.
  intros Hh Hm. unfold delete_cache, redis_command. rewrite Hh, Hm. cbn.
  destruct (redis_command_raises env _); cbn; by eexists.
Qed.

(** X19.  [set_cache] never raises and never reads the integration's
    attributes: whatever host, port and password are configured, its one
    command goes to localhost, port 6379, with the empty password, while
    [get_cache] and [delete_cache] use the configured connection.  Without
    the redis module it attempts no command and reports a failure. *)
Theorem set_cache_connection (w : world) (env : redis_env) (self : redis_integration)
    (key value : string) :
  exists v,
    set_cache w env self key value
    = ((if redis_module env then [Cache (localhost_set key value)] else []), Ret v)
    /\ set_cache w env self key value = set_cache w env redis_initial key value
    /\ (v = redis_success "message" "Value set in Redis"
        <-> redis_module env = true
            /\ redis_command_raises env (localhost_set key value) = None)
    /\ (truthy (redis_host self) = true -> redis_module env = true ->
        exists r d,
          fst (get_cache w env self key)
          = [Cache (RedisGet (redis_host self) (redis_port self) (redis_password self) key)]
          /\ snd (get_cache w env self key) = Ret r
          /\ fst (delete_cache w env self key)
             = [Cache (RedisDelete (redis_host self) (redis_port self)
                         (redis_password self) key)]
          /\ snd (delete_cache w env self key) = Ret d).
Proof.
  assert (Hothers : truthy (redis_host self) = true -> redis_module env = true ->
            exists r d,
              fst (get_cache w env self key)
              = [Cache (RedisGet (redis_host self) (redis_port self)
                          (redis_password self) key)]
              /\ snd (get_cache w env self key) = Ret r
              /\ fst (delete_cache w env self key)
                 = [Cache (RedisDelete (redis_host self) (redis_port self)
                             (redis_password self) key)]
              /\ snd (delete_cache w env self key) = Ret d).
  { intros Hh Hm.
    destruct (get_cache_configured w env self key Hh Hm) as [r ->].
    destruct (delete_cache_configured w env self key Hh Hm) as [d ->].
    by exists r, d. }
  unfold set_cache, redis_command, localhost_set.
  destruct (redis_module env) eqn:Hmod; cbn.
  - destruct (redis_command_raises env _) as [e|] eqn:Hcmd; cbn.
    + eexists. split; [reflexivity|]. split; [reflexivity|]. split; [|exact Hothers].
      split; [discriminate|]. by intros [_ ?].
    + eexists. split; [reflexivity|]. split; [reflexivity|]. split; [done|exact Hothers].
  - eexists. split; [reflexivity|]. split; [reflexivity|]. split; [|exact Hothers].
    split; [discriminate|]. by intros [? _].
Qed.


(** ** The user-count automations *)

Lemma lift_bind_ret {A B : Type} (t : list event) (a : A) (k : A -> MR B) :
  lift ((t, Ret a) : M A) ≫= k = (map Core t ++ fst (k a), snd (k a)).
Proof. unfold lift, mbind, MR_bind. cbn. by destruct (k a). Qed.

Lemma lift_bind_raise {A B : Type} (t : list event) (e : exn) (k : A -> MR B) :
  lift ((t, Raise e) : M A) ≫= k = (map Core t, Raise e).
Proof. reflexivity. Qed.

Lemma bind_ret_R {A B : Type} (t : list io_event) (a : A) (k : A -> MR B) :
  ((t, Ret a) : MR A) ≫= k = (t ++ fst (k a), snd (k a)).
Proof. unfold mbind, MR_bind. by destruct (k a). Qed.

Lemma RedisIntegration_returns w :
  exists self, RedisIntegration w = (trace (get_integration_config w "redis"), Ret self).
Proof.
  unfold RedisIntegration, redis_load_config.
  destruct (get_integration_config w "redis") as [t [config|e]]; cbn.
  - destruct (truthy config); cbn.
    + destruct config; cbn; rewrite ?app_nil_r; by eexists.
    + rewrite app_nil_r. by eexists.
  - rewrite app_nil_r. by eexists.
Qed.

Lemma set_cache_returns w env self key value :
  exists v,
    set_cache w env self key value
    = ((if redis_module env then [Cache (localhost_set key value)] else []), Ret v).
Proof.
  unfold set_cache, redis_command, localhost_set.
  destruct (redis_module env); cbn; [|by eexists].
  destruct (redis_command_raises env _); cbn; by eexists.
Qed.

Lemma count_users_mappings is_active field users counts :
  Forall (fun u => is_dict u = true) users ->
  count_users is_active field users counts
  = ([], Ret ((fst counts + Z.of_nat (length (active_among is_active field users)))%Z,
              (snd counts + (Z.of_nat (length users)
                             - Z.of_nat (length (active_among is_active field users))))%Z)).
Proof.
  intros Hall. revert counts. induction Hall as [|u users Hu _ IH]; intros [a i].
  { unfold active_among. rewrite filter_nil. cbn. unfold mret, M_ret.
    do 3 f_equal; lia. }
  destruct u as [ | | | | |m]; try discriminate Hu.
  cbn [count_users]. change (py_get (JDict m) field JNull)
    with (([], Ret (entry_or m field JNull)) : M json).
  rewrite bind_ret. cbn beta. rewrite IH. unfold active_among. cbn [trace result fst snd app].
  rewrite filter_cons. cbn [user_is_active].
  destruct (is_active (entry_or m field JNull)) eqn:E.
  - rewrite decide_True by done. cbn [length fst snd]. do 3 f_equal; lia.
  - rewrite decide_False by done. cbn [length fst snd]. do 3 f_equal; lia.
Qed.

Lemma count_users_not_mapping is_active field users counts :
  Exists (fun u => is_dict u = false) users ->
  count_users is_active field users counts = ([], Raise AttributeError).
Proof.
  intros Hex. revert counts. induction users as [|u users IH]; intros counts.
  { inversion Hex. }
  destruct u as [ | | | | |m]; try reflexivity.
  cbn [count_users]. change (py_get (JDict m) field JNull)
    with (([], Ret (entry_or m field JNull)) : M json).
  rewrite bind_ret. cbn beta. rewrite IH; [done|].
  inversion Hex as [? ? Hu|]; subst; [discriminate Hu|done].
Qed.

(** X21.  On a context whose [users] is a non-empty list of mappings,
    [main] of tenableauto.py returns without raising and writes exactly one
    document, after the config fetch and the one cache write.  The active
    users are those whose [enabled] entry equals [True], all others are
    inactive, so the two counts add up to the number of users; the cache
    write goes to localhost under the key [tenable_user_count_<clientname>]
    and its outcome does not change the document. *)
Theorem tenableauto_counts (w : world) (env : redis_env) (m : list (string * json))
    (users : list json) :
  entry_or m "users" JNull = JList users ->
  users <> [] ->
  Forall (fun u => is_dict u = true) users ->
  let active := Z.of_nat (length (active_among py_eq_True "enabled" users)) in
  let inactive := (Z.of_nat (length users) - active)%Z in
  tenableauto_main w env (JDict m)
  = (map Core (trace (get_integration_config w "redis"))
     ++ (if redis_module env
         then [Cache (localhost_set
                        (String.append "tenable_user_count_"
                                       (py_format w (entry_or m "clientname" JNull)))
                        (dumps_counts active inactive))]
         else [])
     ++ [Core (Stdout (user_count_envelope active inactive))],
     Ret tt)
  /\ (0 <= active)%Z /\ (0 <= inactive)%Z
  /\ (active + inactive = Z.of_nat (length users))%Z.
Proof.
  intros Husers Hne Hall active inactive. split.
  - unfold tenableauto_main.
    change (py_get (JDict m) "redis" (JList []))
      with (([], Ret (entry_or m "redis" (JList []))) : M json).
    rewrite lift_bind_ret. cbn beta.
    destruct (RedisIntegration_returns w) as [self ->].
    generalize (trace (get_integration_config w "redis")). intros tcfg.
    rewrite lift_bind_ret. cbn beta.
    change (py_get (JDict m) "users" JNull)
      with (([], Ret (entry_or m "users" JNull)) : M json).
    rewrite lift_bind_ret. cbn beta. rewrite Husers.
    assert (Ht : truthy (JList users) = true) by (by destruct users).
    rewrite Ht. cbn [negb py_iter].
    change (mret users : M (list json)) with (([], Ret users) : M (list json)).
    rewrite lift_bind_ret. cbn beta.
    rewrite (count_users_mappings py_eq_True "enabled" users (0, 0)%Z Hall).
    rewrite lift_bind_ret. cbn beta. cbn [fst snd]. rewrite !Z.add_0_l.
    fold active. fold inactive.
    change (py_get (JDict m) "clientname" JNull)
      with (([], Ret (entry_or m "clientname" JNull)) : M json).
    rewrite lift_bind_ret. cbn beta.
    destruct (set_cache_returns w env self
                (String.append "tenable_user_count_"
                               (py_format w (entry_or m "clientname" JNull)))
                (dumps_counts active inactive)) as [v ->].
    rewrite bind_ret_R. cbn. by rewrite ?app_nil_r.
  - subst active inactive. unfold active_among.
    pose proof (length_filter (fun user => user_is_active py_eq_True "enabled" user = true)
                  users). lia.
Qed.

Lemma tenableauto_counts_witness :
  tenableauto_main bare_world empty_redis
    (JDict [("clientname", JStr "acme");
            ("users", JList [JDict [("enabled", JBool true)];
                             JDict [("enabled", JBool false)];
                             JDict [("name", JStr "x")]])])
  = ([Cache (localhost_set "tenable_user_count_acme" (dumps_counts 1 2));
      Core (Stdout (user_count_envelope 1 2))], Ret tt).
Proof.
  apply (proj1 (tenableauto_counts bare_world empty_redis
                  [("clientname", JStr "acme");
                   ("users", JList [JDict [("enabled", JBool true)];
                                    JDict [("enabled", JBool false)];
                                    JDict [("name", JStr "x")]])]
                  [JDict [("enabled", JBool true)];
                   JDict [("enabled", JBool false)];
                   JDict [("name", JStr "x")]]
                  eq_refl ltac:(discriminate) ltac:(repeat constructor))).
Defined.

(** X22.  The other paths of tenableauto.py's [main].  Without users
    ([users] missing, empty or otherwise falsy) it writes the [No Usersseen]
    envelope and attempts no cache command.  A context that is not a mapping
    raises AttributeError before anything happens.  A user that is not a
    mapping raises AttributeError after the config fetch: no document is
    written and no cache command attempted. *)
Theorem tenableauto_other_paths (w : world) (env : redis_env) (context : json)
    (m : list (string * json)) (users : list json) :
  (is_dict context = false -> tenableauto_main w env context = ([], Raise AttributeError))
  /\ (truthy (entry_or m "users" JNull) = false ->
      tenableauto_main w env (JDict m)
      = (map Core (trace (get_integration_config w "redis"))
         ++ [Core (Stdout no_users_envelope)], Ret tt))
  /\ (entry_or m "users" JNull = JList users ->
      Exists (fun u => is_dict u = false) users ->
      tenableauto_main w env (JDict m)
      = (map Core (trace (get_integration_config w "redis")), Raise AttributeError)).
Proof.
  split; [by destruct context|]. split.
  - intros Hfalsy. unfold tenableauto_main.
    change (py_get (JDict m) "redis" (JList []))
      with (([], Ret (entry_or m "redis" (JList []))) : M json).
    rewrite lift_bind_ret. cbn beta.
    destruct (RedisIntegration_returns w) as [self ->].
    generalize (trace (get_integration_config w "redis")). intros tcfg.
    rewrite lift_bind_ret. cbn beta.
    change (py_get (JDict m) "users" JNull)
      with (([], Ret (entry_or m "users" JNull)) : M json).
    rewrite lift_bind_ret. cbn beta. rewrite Hfalsy. reflexivity.
  - intros Husers Hbad. unfold tenableauto_main.
    change (py_get (JDict m) "redis" (JList []))
      with (([], Ret (entry_or m "redis" (JList []))) : M json).
    rewrite lift_bind_ret. cbn beta.
    destruct (RedisIntegration_returns w) as [self ->].
    generalize (trace (get_integration_config w "redis")). intros tcfg.
    rewrite lift_bind_ret. cbn beta.
    change (py_get (JDict m) "users" JNull)
      with (([], Ret (entry_or m "users" JNull)) : M json).
    rewrite lift_bind_ret. cbn beta. rewrite Husers.
    assert (Ht : truthy (JList users) = true).
    { destruct users; [inversion Hbad|done]. }
    rewrite Ht. cbn [negb py_iter].
    change (mret users : M (list json)) with (([], Ret users) : M (list json)).
    rewrite lift_bind_ret. cbn beta.
    rewrite (count_users_not_mapping py_eq_True "enabled" users (0, 0)%Z Hbad).
    rewrite lift_bind_raise. cbn. by rewrite ?app_nil_r.
Qed.

Lemma tenableauto_other_paths_witness :
  tenableauto_main bare_world empty_redis (JDict [("users", JList [])])
  = ([Core (Stdout no_users_envelope)], Ret tt)
  /\ tenableauto_main bare_world empty_redis (JDict [("users", JList [JStr "bob"])])
     = ([], Raise AttributeError).
Proof.
  split.
  - apply (proj1 (proj2 (tenableauto_other_paths bare_world empty_redis JNull
                           [("users", JList [])] []))). reflexivity.
  - apply (proj2 (proj2 (tenableauto_other_paths bare_world empty_redis JNull
                           [("users", JList [JStr "bob"])] [JStr "bob"])));
      [reflexivity|]. by constructor.
Defined.

(** ** qualysauto.py *)

Lemma qualys_user_entry i :
  qualys_user i = ([], match qualys_entry i with
                       | Some data => Ret data
                       | None => Raise AttributeError
                       end).
Proof.
  unfold qualys_user, qualys_entry.
  destruct i as [ | | | | |u]; try reflexivity. cbn. unfold entry_or.
  destruct (dict_get "USER_LOGIN" u) as [[ | | | | |login]|]; try reflexivity. cbn.
  destruct (dict_get "USER_STATUS" u) as [[ | | | | |status]|]; reflexivity.
Qed.

Lemma qualys_usernames_entries items :
  qualys_usernames items
  = ([], match mapM qualys_entry items with
         | Some usernames => Ret usernames
         | None => Raise AttributeError
         end).
Proof.
  induction items as [|i items IH]; [reflexivity|].
  cbn [qualys_usernames mapM]. rewrite qualys_user_entry, IH.
  destruct (qualys_entry i) as [data|]; [|reflexivity]. cbn.
  by destruct (mapM qualys_entry items).
Qed.

Lemma qualys_entries_are_mappings items usernames :
  mapM qualys_entry items = Some usernames ->
  Forall (fun u => is_dict u = true) usernames /\ length usernames = length items.
Proof.
  revert usernames. induction items as [|i items IH]; intros usernames.
  { intros [= <-]. by split. }
  cbn. destruct (qualys_entry i) as [data|] eqn:Hi; [|done]. cbn.
  destruct (mapM qualys_entry items) as [rest|]; [|done]. cbn. intros [= <-].
  destruct (IH rest eq_refl) as [Hall Hlen]. split; [|by cbn; rewrite Hlen].
  constructor; [|done]. unfold qualys_entry in Hi.
  destruct i as [ | | | | |u]; try done.
  destruct (entry_or u "USER_LOGIN" JNull); try done.
  destruct (entry_or u "USER_STATUS" JNull); try done.
  by injection Hi as <-.
Qed.

Lemma qualys_path_unfold (w : world) (env : redis_env) (m out ul : list (string * json))
    (userlist : json) :
  entry_or m "USER_LIST_OUTPUT" JNull = JDict out ->
  entry_or out "USER_LIST" JNull = JDict ul ->
  entry_or ul "USER" JNull = userlist ->
  qualysauto_main w env (JDict m)
  = (items ← lift (py_iter userlist);
     usernames ← lift (qualys_usernames items);
     redis ← lift (RedisIntegration w);
     match usernames with
     | [] => lift (return_context no_users_envelope)
     | _ =>
         '(active_users, inactive_users) ←
           lift (count_users py_eq_Active "status" usernames (0, 0)%Z);
         clientname ← lift (py_get (JDict m) "clientname" JNull);
         set_cache w env redis
           (String.append "qualys_user_count_" (py_format w clientname))
           (dumps_counts active_users inactive_users);;
         lift (return_context (user_count_envelope active_users inactive_users))
     end).
Proof.
  intros Hout Hul Huser. unfold qualysauto_main.
  change (py_get (JDict m) "redis" (JList []))
    with (([], Ret (entry_or m "redis" (JList []))) : M json).
  rewrite lift_bind_ret. cbn beta.
  change (py_get (JDict m) "USER_LIST_OUTPUT" JNull)
    with (([], Ret (entry_or m "USER_LIST_OUTPUT" JNull)) : M json).
  rewrite lift_bind_ret. cbn beta. rewrite Hout.
  change (py_get (JDict out) "USER_LIST" JNull)
    with (([], Ret (entry_or out "USER_LIST" JNull)) : M json).
  rewrite lift_bind_ret. cbn beta. rewrite Hul.
  change (py_get (JDict ul) "USER" JNull)
    with (([], Ret (entry_or ul "USER" JNull)) : M json).
  rewrite lift_bind_ret. cbn beta. rewrite Huser.
  cbn [map app fst snd].
  by destruct (_ ≫= _).
Qed.

(** X23.  On a context whose path [USER_LIST_OUTPUT.USER_LIST.USER] leads to
    a non-empty list of user records, each a mapping whose [USER_LOGIN] and
    [USER_STATUS] entries are mappings, [main] of qualysauto.py returns
    without raising and writes exactly one document, after the config fetch
    and the one cache write.  The active users are those whose status text
    equals ['Active'], all others (a missing status included) are inactive,
    so the two counts add up to the number of records; the cache write goes
    to localhost under the key [qualys_user_count_<clientname>] and its
    outcome does not change the document. *)
Theorem qualysauto_counts (w : world) (env : redis_env) (m out ul : list (string * json))
    (items usernames : list json) :
  entry_or m "USER_LIST_OUTPUT" JNull = JDict out ->
  entry_or out "USER_LIST" JNull = JDict ul ->
  entry_or ul "USER" JNull = JList items ->
  items <> [] ->
  mapM qualys_entry items = Some usernames ->
  let active := Z.of_nat (length (active_among py_eq_Active "status" usernames)) in
  let inactive := (Z.of_nat (length items) - active)%Z in
  qualysauto_main w env (JDict m)
  = (map Core (trace (get_integration_config w "redis"))
     ++ (if redis_module env
         then [Cache (localhost_set
                        (String.append "qualys_user_count_"
                                       (py_format w (entry_or m "clientname" JNull)))
                        (dumps_counts active inactive))]
         else [])
     ++ [Core (Stdout (user_count_envelope active inactive))],
     Ret tt)
  /\ (0 <= active)%Z /\ (0 <= inactive)%Z
  /\ (active + inactive = Z.of_nat (length items))%Z.
Proof.
  intros Hout Hul Huser Hne Hentries active inactive.
  destruct (qualys_entries_are_mappings items usernames Hentries) as [Hall Hlen].
  split.
  - rewrite (qualys_path_unfold w env m out ul (JList items) Hout Hul Huser).
    cbn [py_iter].
    change (mret items : M (list json)) with (([], Ret items) : M (list json)).
    rewrite lift_bind_ret. cbn beta.
    rewrite qualys_usernames_entries, Hentries.
    rewrite lift_bind_ret. cbn beta.
    destruct (RedisIntegration_returns w) as [self ->].
    generalize (trace (get_integration_config w "redis")). intros tcfg.
    rewrite lift_bind_ret. cbn beta.
    assert (Hcons : exists u rest, usernames = u :: rest).
    { destruct usernames as [|u rest]; [|by eauto].
      destruct items; [done|discriminate Hlen]. }
    destruct Hcons as (u & rest & Hu).
    assert (Hcount := count_users_mappings py_eq_Active "status" usernames (0, 0)%Z Hall).
    rewrite Hlen in Hcount. fold active in Hcount. cbn [fst snd] in Hcount.
    rewrite !Z.add_0_l in Hcount. fold inactive in Hcount.
    clearbody active inactive. subst usernames. cbv iota.
    rewrite Hcount. rewrite lift_bind_ret. cbn beta.
    change (py_get (JDict m) "clientname" JNull)
      with (([], Ret (entry_or m "clientname" JNull)) : M json).
    rewrite lift_bind_ret. cbn beta.
    destruct (set_cache_returns w env self
                (String.append "qualys_user_count_"
                               (py_format w (entry_or m "clientname" JNull)))
                (dumps_counts active inactive)) as [v ->].
    rewrite bind_ret_R. cbn. by rewrite ?app_nil_r.
  - subst active inactive. unfold active_among.
    pose proof (length_filter (fun user => user_is_active py_eq_Active "status" user = true)
                  usernames). lia.
Qed.

Lemma qualysauto_counts_witness :
  qualysauto_main bare_world empty_redis
    (JDict [("clientname", JStr "acme");
            ("USER_LIST_OUTPUT",
             JDict [("USER_LIST",
                     JDict [("USER",
                             JList [JDict [("USER_LOGIN", JDict [("#text", JStr "ann")]);
                                           ("USER_STATUS", JDict [("#text", JStr "Active")])];
                                    JDict [("USER_LOGIN", JDict [("#text", JStr "bob")]);
                                           ("USER_STATUS", JDict [("#text", JStr "Inactive")])];
                                    JDict [("USER_LOGIN", JDict []);
                                           ("USER_STATUS", JDict [])]])])])])
  = ([Cache (localhost_set "qualys_user_count_acme" (dumps_counts 1 2));
      Core (Stdout (user_count_envelope 1 2))], Ret tt).
Proof.
  apply (proj1 (qualysauto_counts bare_world empty_redis
                  [("clientname", JStr "acme");
                   ("USER_LIST_OUTPUT",
                    JDict [("USER_LIST",
                            JDict [("USER",
                                    JList [JDict [("USER_LOGIN", JDict [("#text", JStr "ann")]);
                                                  ("USER_STATUS", JDict [("#text", JStr "Active")])];
                                           JDict [("USER_LOGIN", JDict [("#text", JStr "bob")]);
                                                  ("USER_STATUS", JDict [("#text", JStr "Inactive")])];
                                           JDict [("USER_LOGIN", JDict []);
                                                  ("USER_STATUS", JDict [])]])])])]
                  [("USER_LIST",
                    JDict [("USER",
                            JList [JDict [("USER_LOGIN", JDict [("#text", JStr "ann")]);
                                          ("USER_STATUS", JDict [("#text", JStr "Active")])];
                                   JDict [("USER_LOGIN", JDict [("#text", JStr "bob")]);
                                          ("USER_STATUS", JDict [("#text", JStr "Inactive")])];
                                   JDict [("USER_LOGIN", JDict []);
                                          ("USER_STATUS", JDict [])]])])]
                  [("USER",
                    JList [JDict [("USER_LOGIN", JDict [("#text", JStr "ann")]);
                                  ("USER_STATUS", JDict [("#text", JStr "Active")])];
                           JDict [("USER_LOGIN", JDict [("#text", JStr "bob")]);
                                  ("USER_STATUS", JDict [("#text", JStr "Inactive")])];
                           JDict [("USER_LOGIN", JDict []);
                                  ("USER_STATUS", JDict [])]])]
                  [JDict [("USER_LOGIN", JDict [("#text", JStr "ann")]);
                          ("USER_STATUS", JDict [("#text", JStr "Active")])];
                   JDict [("USER_LOGIN", JDict [("#text", JStr "bob")]);
                          ("USER_STATUS", JDict [("#text", JStr "Inactive")])];
                   JDict [("USER_LOGIN", JDict []);
                          ("USER_STATUS", JDict [])]]
                  [JDict [("login", JStr "ann"); ("status", JStr "Active")];
                   JDict [("login", JStr "bob"); ("status", JStr "Inactive")];
                   JDict [("login", JNull); ("status", JNull)]]
                  eq_refl eq_refl eq_refl ltac:(discriminate) eq_refl)).
Defined.

(** X24.  The other paths of qualysauto.py's [main].  The user list is read
    and converted before the integration is constructed, so every failure of
    that part raises AttributeError before the config fetch, with no
    document written and no cache command attempted: a context without a
    [USER_LIST_OUTPUT] mapping, a record that is not a mapping or lacks a
    [USER_LOGIN] or [USER_STATUS] mapping, and a [USER] that is a single
    non-empty record instead of a list of records (its keys are iterated).
    An empty [USER] list gives the [No Usersseen] envelope after the config
    fetch, with no cache command. *)
Theorem qualysauto_other_paths (w : world) (env : redis_env) (m out ul : list (string * json))
    (items : list json) (record : list (string * json)) :
  (is_dict (entry_or m "USER_LIST_OUTPUT" JNull) = false ->
   qualysauto_main w env (JDict m) = ([], Raise AttributeError))
  /\ (entry_or m "USER_LIST_OUTPUT" JNull = JDict out ->
      entry_or out "USER_LIST" JNull = JDict ul ->
      (entry_or ul "USER" JNull = JList [] ->
       qualysauto_main w env (JDict m)
       = (map Core (trace (get_integration_config w "redis"))
          ++ [Core (Stdout no_users_envelope)], Ret tt))
      /\ (entry_or ul "USER" JNull = JList items ->
          mapM qualys_entry items = None ->
          qualysauto_main w env (JDict m) = ([], Raise AttributeError))
      /\ (entry_or ul "USER" JNull = JDict record ->
          record <> [] ->
          qualysauto_main w env (JDict m) = ([], Raise AttributeError))).
Proof.
  split.
  - intros Hnot. unfold qualysauto_main.
    change (py_get (JDict m) "redis" (JList []))
      with (([], Ret (entry_or m "redis" (JList []))) : M json).
    rewrite lift_bind_ret. cbn beta.
    change (py_get (JDict m) "USER_LIST_OUTPUT" JNull)
      with (([], Ret (entry_or m "USER_LIST_OUTPUT" JNull)) : M json).
    rewrite lift_bind_ret. cbn beta.
    by destruct (entry_or m "USER_LIST_OUTPUT" JNull).
  - intros Hout Hul. repeat split.
    + intros Huser.
      rewrite (qualys_path_unfold w env m out ul (JList []) Hout Hul Huser).
      cbn [py_iter].
      change (mret [] : M (list json)) with (([], Ret []) : M (list json)).
      rewrite lift_bind_ret. cbn beta. cbn [qualys_usernames].
      change (mret [] : M (list json)) with (([], Ret []) : M (list json)).
      rewrite lift_bind_ret. cbn beta.
      destruct (RedisIntegration_returns w) as [self ->].
      generalize (trace (get_integration_config w "redis")). intros tcfg.
      rewrite lift_bind_ret. cbn. by rewrite ?app_nil_r.
    + intros Huser Hbad.
      rewrite (qualys_path_unfold w env m out ul (JList items) Hout Hul Huser).
      cbn [py_iter].
      change (mret items : M (list json)) with (([], Ret items) : M (list json)).
      rewrite lift_bind_ret. cbn beta.
      rewrite qualys_usernames_entries, Hbad. reflexivity.
    + intros Huser Hne.
      rewrite (qualys_path_unfold w env m out ul (JDict record) Hout Hul Huser).
      cbn [py_iter].
      change (mret (map (fun kv => JStr (fst kv)) record) : M (list json))
        with (([], Ret (map (fun kv : string * json => JStr (fst kv)) record))
              : M (list json)).
      rewrite lift_bind_ret. cbn beta.
      rewrite qualys_usernames_entries.
      destruct record as [|[k v] record]; [done|]. reflexivity.
Qed.

Lemma qualysauto_other_paths_witness :
  qualysauto_main bare_world empty_redis (JDict [("users", JList [])])
  = ([], Raise AttributeError)
  /\ qualysauto_main bare_world empty_redis
       (JDict [("USER_LIST_OUTPUT", JDict [("USER_LIST", JDict [("USER", JList [])])])])
     = ([Core (Stdout no_users_envelope)], Ret tt)
  /\ qualysauto_main bare_world empty_redis
       (JDict [("USER_LIST_OUTPUT",
                JDict [("USER_LIST",
                        JDict [("USER",
                                JDict [("USER_LOGIN", JDict [("#text", JStr "ann")]);
                                       ("USER_STATUS",
                                        JDict [("#text", JStr "Active")])])])])])
     = ([], Raise AttributeError).
Proof.
  split; [|split].
  - apply (proj1 (qualysauto_other_paths bare_world empty_redis
                    [("users", JList [])] [] [] [] [])). reflexivity.
  - apply (proj1 (proj2 (qualysauto_other_paths bare_world empty_redis
                           [("USER_LIST_OUTPUT",
                             JDict [("USER_LIST", JDict [("USER", JList [])])])]
                           [("USER_LIST", JDict [("USER", JList [])])]
                           [("USER", JList [])] [] []) eq_refl eq_refl)). reflexivity.
  - apply (proj2 (proj2 (proj2 (qualysauto_other_paths bare_world empty_redis
                                  [("USER_LIST_OUTPUT",
                                    JDict [("USER_LIST",
                                            JDict [("USER",
                                                    JDict [("USER_LOGIN",
                                                            JDict [("#text", JStr "ann")]);
                                                           ("USER_STATUS",
                                                            JDict [("#text", JStr "Active")])])])])]
                                  [("USER_LIST",
                                    JDict [("USER",
                                            JDict [("USER_LOGIN",
                                                    JDict [("#text", JStr "ann")]);
                                                   ("USER_STATUS",
                                                    JDict [("#text", JStr "Active")])])])]
                                  [("USER",
                                    JDict [("USER_LOGIN", JDict [("#text", JStr "ann")]);
                                           ("USER_STATUS", JDict [("#text", JStr "Active")])])]
                                  []
                                  [("USER_LOGIN", JDict [("#text", JStr "ann")]);
                                   ("USER_STATUS", JDict [("#text", JStr "Active")])])
                                eq_refl eq_refl)));
      [reflexivity|discriminate].
Defined.
